(** * Metadata journalling on a small fixed-layout filesystem

    A shallow embedding of [journal.c]: the block store, the bitmap
    allocator, the journal framing, [cmd_create] (staging one file
    creation as a transaction) and [cmd_install] (replaying the journal
    and resetting it), followed by the properties of the specification
    that were checked against it.

    Conventions of the embedding.
    - Memory is byte addressed: a buffer is a function from offsets to
      bytes, and multi-byte fields are little endian and may lie at any
      offset (the layout and the machine the program is run with).  An
      access outside its array gives [Undefined].
    - [read_block] copies a whole block of 4096 bytes to its destination.
      Every destination in the program is an array of a block or the
      journal buffer, but for one: [cmd_create] reads block 0 into its
      [struct superblock], an object of 128 bytes, and so writes 3968
      bytes of the image behind that object.  [cmd_create] is the
      function as written and gives [Undefined] at that read.
      [cmd_create_lenient] is the same function with the superblock
      given the room of a block: the statements that follow the read, in
      a run where the bytes written behind [sb] do no harm.  It serves to
      show what those statements do on given images.
    - The image is a function from block indices to blocks: it holds a
      full block at every index the program touches, so block reads and
      writes succeed.  The program opens the image and allocates its
      journal buffer successfully.
    - The current time is an argument of [cmd_create].
    - Unsigned 32 bit arithmetic wraps and is written with [u32]; a 16 bit
      field wraps when it is stored.
    - A loop that cannot advance (a record of size 0) gives [Diverges];
      the scans of the journal run on fuel, and [OutOfFuel] is shown never
      to be the result of [cmd_install]. *)

From Stdlib Require Import String ZArith List Sorted Lia Bool.
From coqutil Require Import Byte Word.LittleEndianList.
Import ListNotations.
Local Open Scope Z_scope.

(** ** Layout constants *)

Definition FS_MAGIC : Z := 0x56534653.
Definition JOURNAL_MAGIC : Z := 0x4A524E4C.

Definition BLOCK_SIZE : Z := 4096.
Definition INODE_SIZE : Z := 128.
Definition JOURNAL_BLOCK_IDX : Z := 1.
Definition JOURNAL_BLOCKS : Z := 16.
Definition INODE_BLOCKS : Z := 2.
Definition DATA_BLOCKS : Z := 64.
Definition INODE_BMAP_IDX : Z := JOURNAL_BLOCK_IDX + JOURNAL_BLOCKS.
Definition DATA_BMAP_IDX : Z := INODE_BMAP_IDX + 1.
Definition INODE_START_IDX : Z := DATA_BMAP_IDX + 1.
Definition DATA_START_IDX : Z := INODE_START_IDX + INODE_BLOCKS.
Definition TOTAL_BLOCKS : Z := DATA_START_IDX + DATA_BLOCKS.
Definition DIRECT_POINTERS : Z := 8.
Definition NAME_LEN : Z := 28.

Definition JOURNAL_SIZE : Z := JOURNAL_BLOCKS * BLOCK_SIZE.

Definition REC_DATA : Z := 1.
Definition REC_COMMIT : Z := 2.

Definition INODE_FREE : Z := 0.
Definition INODE_FILE : Z := 1.
Definition INODE_DIR : Z := 2.

(** [(uint32_t)-1] *)
Definition UINT32_MAX : Z := 4294967295.

(** Sizes of the on-disk records ([sizeof]). *)
Definition SIZEOF_SUPERBLOCK : Z := 9 * 4 + (128 - 9 * 4).
Definition SIZEOF_DIRENT : Z := 4 + NAME_LEN.
Definition SIZEOF_JOURNAL_HEADER : Z := 8.
Definition SIZEOF_REC_HEADER : Z := 4.
Definition SIZEOF_DATA_RECORD : Z := SIZEOF_REC_HEADER + 4 + BLOCK_SIZE.
Definition SIZEOF_COMMIT_RECORD : Z := SIZEOF_REC_HEADER.

(** Field offsets inside the records. *)
Definition SB_MAGIC : Z := 0.
Definition SB_INODE_COUNT : Z := 12.
Definition INO_TYPE : Z := 0.
Definition INO_LINKS : Z := 2.
Definition INO_SIZE : Z := 4.
Definition INO_DIRECT : Z := 8.
Definition INO_CTIME : Z := 40.
Definition INO_MTIME : Z := 44.
Definition DE_INODE : Z := 0.
Definition DE_NAME : Z := 4.
Definition JH_MAGIC : Z := 0.
Definition JH_NBYTES_USED : Z := 4.
Definition RH_TYPE : Z := 0.
Definition RH_SIZE : Z := 2.
Definition DR_BLOCK_NO : Z := 4.
Definition DR_DATA : Z := 8.

Definition u32 (z : Z) : Z := z mod 2 ^ 32.

(** ** Byte-addressed memory *)

Definition buf : Type := Z -> byte.

Definition zero_buf : buf := fun _ => Byte.x00.

Definition load8 (m : buf) (a : Z) : Z := byte.unsigned (m a).

Definition load16 (m : buf) (a : Z) : Z := le_combine [m a; m (a + 1)].

Definition load32 (m : buf) (a : Z) : Z :=
  le_combine [m a; m (a + 1); m (a + 2); m (a + 3)].

Definition store_bytes (m : buf) (a : Z) (l : list byte) : buf :=
  fun i =>
    if (a <=? i) && (i <? a + Z.of_nat (length l))
    then nth (Z.to_nat (i - a)) l Byte.x00
    else m i.

Definition store8 (m : buf) (a : Z) (v : Z) : buf := store_bytes m a (le_split 1 v).
Definition store16 (m : buf) (a : Z) (v : Z) : buf := store_bytes m a (le_split 2 v).
Definition store32 (m : buf) (a : Z) (v : Z) : buf := store_bytes m a (le_split 4 v).

(** [memcpy(dst + doff, src + soff, n)] *)
Definition memcpy (dst : buf) (doff : Z) (src : buf) (soff : Z) (n : Z) : buf :=
  fun i => if (doff <=? i) && (i <? doff + n) then src (soff + (i - doff)) else dst i.

(** [memset(dst + off, c, n)] *)
Definition memset (dst : buf) (off : Z) (c : byte) (n : Z) : buf :=
  fun i => if (off <=? i) && (i <? off + n) then c else dst i.

(** Pointer arithmetic: the buffer seen from [p + off]. *)
Definition slice (m : buf) (off : Z) : buf := fun i => m (off + i).

(** ** C strings

    A string argument is the list of its bytes; it ends at its first NUL
    byte or at the end of the list. *)

Fixpoint strlen (s : list byte) : Z :=
  match s with
  | [] => 0
  | c :: s' => if byte.unsigned c =? 0 then 0 else 1 + strlen s'
  end.

(** [strcmp(m + a, s) == 0] *)
Fixpoint strcmp_eq (m : buf) (a : Z) (s : list byte) : bool :=
  match s with
  | [] => load8 m a =? 0
  | c :: s' =>
      if byte.unsigned c =? 0 then load8 m a =? 0
      else (load8 m a =? byte.unsigned c) && strcmp_eq m (a + 1) s'
  end.

(** [strncpy(m + a, s, n)]: the bytes of [s], then NUL padding up to [n]. *)
Fixpoint strncpy (m : buf) (a : Z) (s : list byte) (n : nat) : buf :=
  match n with
  | O => m
  | S n' =>
      match s with
      | [] => strncpy (store8 m a 0) (a + 1) [] n'
      | c :: s' =>
          if byte.unsigned c =? 0 then strncpy (store8 m a 0) (a + 1) [] n'
          else strncpy (store8 m a (byte.unsigned c)) (a + 1) s' n'
      end
  end.

(** ** The block store and the monad of the commands *)

(** The image: block index to block contents. *)
Definition disk : Type := Z -> buf.

Inductive error : Type :=
| NameTooLong
| InvalidImage
| NoFreeInode
| DuplicateName
| NoFreeDirectorySlot
| JournalFull
| JournalNotInitialized.

(** How a computation ends: normally, by [exit(EXIT_FAILURE)] after a
    diagnostic, by an access outside an array, in a loop that never
    advances, or (for the model only) with its fuel used up. *)
Inductive res (A : Type) : Type :=
| Ok (a : A)
| Exit (e : error)
| Undefined
| Diverges
| OutOfFuel.

Arguments Ok {A} a.
Arguments Exit {A} e.
Arguments Undefined {A}.
Arguments Diverges {A}.
Arguments OutOfFuel {A}.

Definition M (A : Type) : Type := disk -> res A * disk.

Definition ret {A} (a : A) : M A := fun d => (Ok a, d).

Definition bind {A B} (m : M A) (k : A -> M B) : M B :=
  fun d =>
    match m d with
    | (Ok a, d') => k a d'
    | (Exit e, d') => (Exit e, d')
    | (Undefined, d') => (Undefined, d')
    | (Diverges, d') => (Diverges, d')
    | (OutOfFuel, d') => (OutOfFuel, d')
    end.

Definition exit {A} (e : error) : M A := fun d => (Exit e, d).

(** A computation that does no I/O. *)
Definition lift {A} (r : res A) : M A := fun d => (r, d).

Declare Scope cmd_scope.
Delimit Scope cmd_scope with cmd.
Notation "x <- m ;; k" := (bind m (fun x => k))
  (at level 61, m at next level, right associativity) : cmd_scope.
Notation "m ;;; k" := (bind m (fun _ => k))
  (at level 61, right associativity) : cmd_scope.
Local Open Scope cmd_scope.

(** [read_block(fd, block_index, buf)] into a buffer of a block. *)
Definition read_block (block_index : Z) : M buf :=
  fun d => (Ok (d block_index), d).

(** [read_block(fd, block_index, buf)] into an object of [size] bytes.
    The call copies [BLOCK_SIZE] bytes whatever it is given: into a
    smaller object, the bytes behind it are written outside it. *)
Definition read_block_into (size : Z) (block_index : Z) : M buf :=
  if size <? BLOCK_SIZE then lift Undefined else read_block block_index.

Definition write_block (block_index : Z) (b : buf) : M unit :=
  fun d => (Ok tt, fun i => if i =? block_index then b else d i).

(** ** Bitmap allocator *)

Definition bitmap_test (bitmap : buf) (index : Z) : Z :=
  Z.land (Z.shiftr (load8 bitmap (index / 8)) (index mod 8)) 1.

Definition bitmap_set (bitmap : buf) (index : Z) : buf :=
  store8 bitmap (index / 8)
    (Z.lor (load8 bitmap (index / 8)) (Z.shiftl 1 (index mod 8))).

(** The [for] loop of [bitmap_find_free], [todo] iterations left, on a
    bitmap of [BLOCK_SIZE] bytes. *)
Fixpoint bitmap_find_free_loop (todo : nat) (bitmap : buf) (i : Z) : res Z :=
  match todo with
  | O => Ok UINT32_MAX
  | S todo' =>
      if BLOCK_SIZE <=? i / 8 then Undefined
      else if bitmap_test bitmap i =? 0 then Ok i
      else bitmap_find_free_loop todo' bitmap (i + 1)
  end.

Definition bitmap_find_free (bitmap : buf) (max_bits : Z) : res Z :=
  bitmap_find_free_loop (Z.to_nat max_bits) bitmap 0.

(** ** Journal manager *)

Fixpoint read_journal_loop (todo : nat) (i : Z) (journal_buf : buf) : M buf :=
  match todo with
  | O => ret journal_buf
  | S todo' =>
      b <- read_block (JOURNAL_BLOCK_IDX + i) ;;
      read_journal_loop todo' (i + 1) (memcpy journal_buf (i * BLOCK_SIZE) b 0 BLOCK_SIZE)
  end.

Definition read_journal : M buf :=
  read_journal_loop (Z.to_nat JOURNAL_BLOCKS) 0 zero_buf.

(** What [read_journal] leaves in the buffer, as a function of the image. *)
Fixpoint journal_loaded (todo : nat) (i : Z) (journal_buf : buf) (d : disk) : buf :=
  match todo with
  | O => journal_buf
  | S todo' =>
      journal_loaded todo' (i + 1)
        (memcpy journal_buf (i * BLOCK_SIZE) (d (JOURNAL_BLOCK_IDX + i)) 0 BLOCK_SIZE) d
  end.

Definition journal_of (d : disk) : buf :=
  journal_loaded (Z.to_nat JOURNAL_BLOCKS) 0 zero_buf d.

Fixpoint write_journal_loop (todo : nat) (i : Z) (journal_buf : buf) : M unit :=
  match todo with
  | O => ret tt
  | S todo' =>
      write_block (JOURNAL_BLOCK_IDX + i) (slice journal_buf (i * BLOCK_SIZE)) ;;;
      write_journal_loop todo' (i + 1) journal_buf
  end.

Definition write_journal (journal_buf : buf) : M unit :=
  write_journal_loop (Z.to_nat JOURNAL_BLOCKS) 0 journal_buf.

Definition init_journal (journal_buf : buf) : buf :=
  let journal_buf := memset journal_buf 0 Byte.x00 JOURNAL_SIZE in
  let journal_buf := store32 journal_buf JH_MAGIC JOURNAL_MAGIC in
  store32 journal_buf JH_NBYTES_USED SIZEOF_JOURNAL_HEADER.

Definition journal_is_initialized (journal_buf : buf) : bool :=
  load32 journal_buf JH_MAGIC =? JOURNAL_MAGIC.

(** Both append helpers write through a pointer into the journal buffer
    without a check of their own; a record that does not fit in the
    buffer is an access outside it. *)
Definition append_data_record (journal_buf : buf) (offset : Z)
    (block_no : Z) (block_data : buf) : res (buf * Z) :=
  if JOURNAL_SIZE <? offset + SIZEOF_DATA_RECORD then Undefined
  else
    let journal_buf := store16 journal_buf (offset + RH_TYPE) REC_DATA in
    let journal_buf := store16 journal_buf (offset + RH_SIZE) SIZEOF_DATA_RECORD in
    let journal_buf := store32 journal_buf (offset + DR_BLOCK_NO) block_no in
    let journal_buf := memcpy journal_buf (offset + DR_DATA) block_data 0 BLOCK_SIZE in
    Ok (journal_buf, u32 (offset + load16 journal_buf (offset + RH_SIZE))).

Definition append_commit_record (journal_buf : buf) (offset : Z) : res (buf * Z) :=
  if JOURNAL_SIZE <? offset + SIZEOF_COMMIT_RECORD then Undefined
  else
    let journal_buf := store16 journal_buf (offset + RH_TYPE) REC_COMMIT in
    let journal_buf := store16 journal_buf (offset + RH_SIZE) SIZEOF_COMMIT_RECORD in
    Ok (journal_buf, u32 (offset + load16 journal_buf (offset + RH_SIZE))).

Definition update_journal_header (journal_buf : buf) (nbytes_used : Z) : buf :=
  store32 journal_buf JH_NBYTES_USED nbytes_used.

(** ** Transaction builder: [cmd_create] *)

(** The scan of the root directory block: the first unused slot ends the
    scan; an earlier slot whose name equals [filename] is a duplicate. *)
Fixpoint find_free_entry (todo : nat) (entries : buf) (filename : list byte)
    (i : Z) : res Z :=
  match todo with
  | O => Ok UINT32_MAX
  | S todo' =>
      if (load32 entries (i * SIZEOF_DIRENT + DE_INODE) =? 0)
         && (load8 entries (i * SIZEOF_DIRENT + DE_NAME) =? 0)
      then Ok i
      else if strcmp_eq entries (i * SIZEOF_DIRENT + DE_NAME) filename
      then Exit DuplicateName
      else find_free_entry todo' entries filename (i + 1)
  end.

(** The body of [cmd_create], with the size of the object [sb] that
    receives block 0 as a parameter. *)
Definition cmd_create_sized (sizeof_sb : Z) (filename : list byte) (now : Z) : M unit :=
  if NAME_LEN <=? strlen filename then exit NameTooLong
  else
  sb <- read_block_into sizeof_sb 0 ;;
  if negb (load32 sb SB_MAGIC =? FS_MAGIC) then exit InvalidImage
  else
  journal_buf <- read_journal ;;
  let journal_buf :=
    if journal_is_initialized journal_buf then journal_buf
    else init_journal journal_buf in
  let current_offset := load32 journal_buf JH_NBYTES_USED in
  inode_bitmap <- read_block INODE_BMAP_IDX ;;
  data_bitmap <- read_block DATA_BMAP_IDX ;;
  inode_block <- read_block INODE_START_IDX ;;
  let root_data_blk := load32 inode_block (INO_DIRECT + 4 * 0) in
  root_data_block <- read_block root_data_blk ;;
  free_inode <- lift (bitmap_find_free inode_bitmap (load32 sb SB_INODE_COUNT)) ;;
  if free_inode =? UINT32_MAX then exit NoFreeInode
  else
  let max_entries := BLOCK_SIZE / SIZEOF_DIRENT in
  free_entry <- lift (find_free_entry (Z.to_nat max_entries) root_data_block filename 0) ;;
  if free_entry =? UINT32_MAX then exit NoFreeDirectorySlot
  else
  let new_inode_bitmap := memcpy zero_buf 0 inode_bitmap 0 BLOCK_SIZE in
  let new_inode_block := memcpy zero_buf 0 inode_block 0 BLOCK_SIZE in
  let new_root_data_block := memcpy zero_buf 0 root_data_block 0 BLOCK_SIZE in
  let new_inode_bitmap := bitmap_set new_inode_bitmap free_inode in
  let inode_block_idx := free_inode / (BLOCK_SIZE / INODE_SIZE) in
  let inode_offset := free_inode mod (BLOCK_SIZE / INODE_SIZE) in
  new_inode_block <-
    (if negb (inode_block_idx =? 0)
     then read_block (u32 (INODE_START_IDX + inode_block_idx))
     else ret new_inode_block) ;;
  let new_file_inode := inode_offset * INODE_SIZE in
  let new_inode_block := store16 new_inode_block (new_file_inode + INO_TYPE) INODE_FILE in
  let new_inode_block := store16 new_inode_block (new_file_inode + INO_LINKS) 1 in
  let new_inode_block := store32 new_inode_block (new_file_inode + INO_SIZE) 0 in
  let new_inode_block :=
    memset new_inode_block (new_file_inode + INO_DIRECT) Byte.x00 (4 * DIRECT_POINTERS) in
  let new_inode_block := store32 new_inode_block (new_file_inode + INO_CTIME) (u32 now) in
  let new_inode_block := store32 new_inode_block (new_file_inode + INO_MTIME) (u32 now) in
  let new_entry := free_entry * SIZEOF_DIRENT in
  let new_root_data_block := store32 new_root_data_block (new_entry + DE_INODE) free_inode in
  let new_root_data_block :=
    strncpy new_root_data_block (new_entry + DE_NAME) filename (Z.to_nat (NAME_LEN - 1)) in
  let new_root_data_block :=
    store8 new_root_data_block (new_entry + DE_NAME + (NAME_LEN - 1)) 0 in
  let new_inode_block :=
    if inode_block_idx =? 0
    then
      let b := store32 new_inode_block INO_SIZE
                 (u32 (load32 new_inode_block INO_SIZE + SIZEOF_DIRENT)) in
      store32 b INO_MTIME (u32 now)
    else new_inode_block in
  let record_size := SIZEOF_REC_HEADER + 4 + BLOCK_SIZE in
  let num_data_records := 3 in
  let commit_size := SIZEOF_REC_HEADER in
  let total_needed := u32 (u32 (num_data_records * record_size) + commit_size) in
  if JOURNAL_SIZE <? u32 (current_offset + total_needed) then exit JournalFull
  else
  p <- lift (append_data_record journal_buf current_offset INODE_BMAP_IDX new_inode_bitmap) ;;
  let '(journal_buf, current_offset) := p in
  p <- lift (append_data_record journal_buf current_offset
               (u32 (INODE_START_IDX + inode_block_idx)) new_inode_block) ;;
  let '(journal_buf, current_offset) := p in
  p <- lift (append_data_record journal_buf current_offset root_data_blk new_root_data_block) ;;
  let '(journal_buf, current_offset) := p in
  p <- lift (append_commit_record journal_buf current_offset) ;;
  let '(journal_buf, current_offset) := p in
  let journal_buf := update_journal_header journal_buf current_offset in
  write_journal journal_buf.

(** [cmd_create] as written: [struct superblock sb; read_block(fd, 0, &sb)]. *)
Definition cmd_create : list byte -> Z -> M unit :=
  cmd_create_sized SIZEOF_SUPERBLOCK.

(** [cmd_create] with [sb] given the room of a block. *)
Definition cmd_create_lenient : list byte -> Z -> M unit :=
  cmd_create_sized BLOCK_SIZE.

(** ** Install: [cmd_install] *)

(** First scan: count the commit records. *)
Fixpoint count_commits (fuel : nat) (journal_buf : buf) (nbytes_used offset : Z)
    (transactions_replayed : Z) : res Z :=
  match fuel with
  | O => OutOfFuel
  | S fuel' =>
      if offset <? nbytes_used then
        if nbytes_used <? offset + SIZEOF_REC_HEADER then Ok transactions_replayed
        else if JOURNAL_SIZE <? offset + RH_TYPE + 2 then Undefined
        else
          let type := load16 journal_buf (offset + RH_TYPE) in
          let size := load16 journal_buf (offset + RH_SIZE) in
          if type =? REC_DATA then
            if JOURNAL_SIZE <? offset + RH_SIZE + 2 then Undefined
            else if size =? 0 then Diverges
            else count_commits fuel' journal_buf nbytes_used (u32 (offset + size))
                   transactions_replayed
          else if type =? REC_COMMIT then
            if JOURNAL_SIZE <? offset + RH_SIZE + 2 then Undefined
            else if size =? 0 then Diverges
            else count_commits fuel' journal_buf nbytes_used (u32 (offset + size))
                   (transactions_replayed + 1)
          else Ok transactions_replayed
      else Ok transactions_replayed
  end.

(** Second scan: write every data record to its target block. *)
Fixpoint replay_records (fuel : nat) (journal_buf : buf) (nbytes_used offset : Z)
    : M unit :=
  match fuel with
  | O => lift OutOfFuel
  | S fuel' =>
      if offset <? nbytes_used then
        if nbytes_used <? offset + SIZEOF_REC_HEADER then ret tt
        else if JOURNAL_SIZE <? offset + RH_TYPE + 2 then lift Undefined
        else
          let type := load16 journal_buf (offset + RH_TYPE) in
          let size := load16 journal_buf (offset + RH_SIZE) in
          if type =? REC_DATA then
            if JOURNAL_SIZE <? offset + SIZEOF_DATA_RECORD then lift Undefined
            else
              write_block (load32 journal_buf (offset + DR_BLOCK_NO))
                          (slice journal_buf (offset + DR_DATA)) ;;;
              if size =? 0 then lift Diverges
              else replay_records fuel' journal_buf nbytes_used (u32 (offset + size))
          else if type =? REC_COMMIT then
            if JOURNAL_SIZE <? offset + RH_SIZE + 2 then lift Undefined
            else if size =? 0 then lift Diverges
            else replay_records fuel' journal_buf nbytes_used (u32 (offset + size))
          else ret tt
      else ret tt
  end.

(** Offsets only grow while a scan runs, so [JOURNAL_SIZE] iterations are
    more than either scan can make. *)
Definition scan_fuel : nat := Z.to_nat JOURNAL_SIZE.

Definition cmd_install : M Z :=
  journal_buf <- read_journal ;;
  if negb (journal_is_initialized journal_buf) then exit JournalNotInitialized
  else
  let offset := SIZEOF_JOURNAL_HEADER in
  let nbytes_used := load32 journal_buf JH_NBYTES_USED in
  transactions_replayed <-
    lift (count_commits scan_fuel journal_buf nbytes_used offset 0) ;;
  replay_records scan_fuel journal_buf nbytes_used offset ;;;
  let journal_buf := init_journal journal_buf in
  write_journal journal_buf ;;;
  ret transactions_replayed.

(** ** The second implementation

    The repository holds a second implementation of the two commands.
    Its create first replays the records staged in the journal over its
    in-memory copies of the bitmap, inode and root directory blocks
    ("read and replay journal to get current state").  It takes the
    block numbers from the superblock, has no check of the name, and does
    not touch the root inode.  Its [main] reads block 0 into a buffer of
    a block and copies the superblock out of it. *)
Module MergeAware.

Definition SB_JOURNAL_BLOCK : Z := 16.
Definition SB_INODE_BITMAP : Z := 20.
Definition SB_INODE_START : Z := 28.
Definition SB_DATA_START : Z := 32.

(** [bitmap_find_free(bm, bytes)] scans [bytes * 8] bits; [-1] when
    none is clear. *)
Fixpoint bitmap_find_free_loop (todo : nat) (bm : buf) (i : Z) : Z :=
  match todo with
  | O => -1
  | S todo' =>
      if bitmap_test bm i =? 0 then i
      else bitmap_find_free_loop todo' bm (i + 1)
  end.

Definition bitmap_find_free (bm : buf) (bytes : Z) : Z :=
  bitmap_find_free_loop (Z.to_nat (bytes * 8)) bm 0.

(** [append_data] and [append_commit] check the room themselves and
    leave the buffer alone when there is none. *)
Definition append_data (jbuf : buf) (off : Z) (block : Z) (data : buf) : buf * Z :=
  let need := SIZEOF_REC_HEADER + 4 + BLOCK_SIZE in
  if BLOCK_SIZE * JOURNAL_BLOCKS <? u32 (off + need) then (jbuf, off)
  else
    let jbuf := store16 jbuf (off + RH_TYPE) REC_DATA in
    let jbuf := store16 jbuf (off + RH_SIZE) need in
    let jbuf := store32 jbuf (off + DR_BLOCK_NO) block in
    let jbuf := memcpy jbuf (off + DR_DATA) data 0 BLOCK_SIZE in
    (jbuf, u32 (off + need)).

Definition append_commit (jbuf : buf) (off : Z) : buf * Z :=
  if BLOCK_SIZE * JOURNAL_BLOCKS <? off + SIZEOF_COMMIT_RECORD then (jbuf, off)
  else
    let jbuf := store16 jbuf (off + RH_TYPE) REC_COMMIT in
    let jbuf := store16 jbuf (off + RH_SIZE) SIZEOF_COMMIT_RECORD in
    (jbuf, u32 (off + SIZEOF_COMMIT_RECORD)).

Fixpoint read_journal_loop (todo : nat) (journal_block i : Z) (jbuf : buf) : M buf :=
  match todo with
  | O => ret jbuf
  | S todo' =>
      b <- read_block (u32 (journal_block + i)) ;;
      read_journal_loop todo' journal_block (i + 1)
        (memcpy jbuf (i * BLOCK_SIZE) b 0 BLOCK_SIZE)
  end.

Fixpoint write_journal_loop (todo : nat) (journal_block i : Z) (jbuf : buf) : M unit :=
  match todo with
  | O => ret tt
  | S todo' =>
      write_block (u32 (journal_block + i)) (slice jbuf (i * BLOCK_SIZE)) ;;;
      write_journal_loop todo' journal_block (i + 1) jbuf
  end.

(** The replay in memory: every data record below [nbytes_used] whose
    target is the inode bitmap, the first inode block or the root
    directory block replaces the copy of that block. *)
Fixpoint merge_staged (fuel : nat) (jbuf : buf) (nbytes_used off : Z)
    (sb inode_bitmap inode_blk root_blk : buf) : res (buf * buf * buf) :=
  match fuel with
  | O => OutOfFuel
  | S fuel' =>
      if off + SIZEOF_REC_HEADER <=? nbytes_used then
        if BLOCK_SIZE * JOURNAL_BLOCKS <? off + SIZEOF_REC_HEADER then Undefined
        else
          let type := load16 jbuf (off + RH_TYPE) in
          let size := load16 jbuf (off + RH_SIZE) in
          if type =? REC_DATA then
            if BLOCK_SIZE * JOURNAL_BLOCKS <? off + DR_BLOCK_NO + 4 then Undefined
            else
              let block_no := load32 jbuf (off + DR_BLOCK_NO) in
              let data := memcpy zero_buf 0 (slice jbuf (off + DR_DATA)) 0 BLOCK_SIZE in
              if (block_no =? load32 sb SB_INODE_BITMAP)
                 || (block_no =? load32 sb SB_INODE_START)
                 || (block_no =? load32 sb SB_DATA_START)
              then
                if BLOCK_SIZE * JOURNAL_BLOCKS <? off + SIZEOF_DATA_RECORD then Undefined
                else
                  let '(inode_bitmap, inode_blk, root_blk) :=
                    if block_no =? load32 sb SB_INODE_BITMAP
                    then (data, inode_blk, root_blk)
                    else if block_no =? load32 sb SB_INODE_START
                    then (inode_bitmap, data, root_blk)
                    else (inode_bitmap, inode_blk, data) in
                  if size =? 0 then Diverges
                  else merge_staged fuel' jbuf nbytes_used (off + size)
                         sb inode_bitmap inode_blk root_blk
              else
                if size =? 0 then Diverges
                else merge_staged fuel' jbuf nbytes_used (off + size)
                       sb inode_bitmap inode_blk root_blk
          else
            if size =? 0 then Diverges
            else merge_staged fuel' jbuf nbytes_used (off + size)
                   sb inode_bitmap inode_blk root_blk
      else Ok (inode_bitmap, inode_blk, root_blk)
  end.

(** The first unused directory slot, recognised by its empty name. *)
Fixpoint find_slot (todo : nat) (d : buf) (i : Z) : option Z :=
  match todo with
  | O => None
  | S todo' =>
      if load8 d (i * SIZEOF_DIRENT + DE_NAME) =? 0 then Some i
      else find_slot todo' d (i + 1)
  end.

(** [main] reads and checks the superblock, then calls [cmd_create]. *)
Definition cmd_create (name : list byte) (now : Z) : M unit :=
  sb <- read_block 0 ;;
  if negb (load32 sb SB_MAGIC =? FS_MAGIC) then exit InvalidImage
  else
  inode_bitmap <- read_block (load32 sb SB_INODE_BITMAP) ;;
  inode_blk <- read_block (load32 sb SB_INODE_START) ;;
  root_blk <- read_block (load32 sb SB_DATA_START) ;;
  jbuf <- read_journal_loop (Z.to_nat JOURNAL_BLOCKS) (load32 sb SB_JOURNAL_BLOCK) 0 zero_buf ;;
  merged <-
    (if load32 jbuf JH_MAGIC =? JOURNAL_MAGIC
     then lift (merge_staged scan_fuel jbuf (load32 jbuf JH_NBYTES_USED)
                  SIZEOF_JOURNAL_HEADER sb inode_bitmap inode_blk root_blk)
     else ret (inode_bitmap, inode_blk, root_blk)) ;;
  let '(inode_bitmap, inode_blk, root_blk) := merged in
  let ino := bitmap_find_free inode_bitmap BLOCK_SIZE in
  if ino <? 0 then exit NoFreeInode
  else
  let new_inode_bitmap := memcpy zero_buf 0 inode_bitmap 0 BLOCK_SIZE in
  let new_inode_blk := memcpy zero_buf 0 inode_blk 0 BLOCK_SIZE in
  let new_root_blk := memcpy zero_buf 0 root_blk 0 BLOCK_SIZE in
  let new_inode_bitmap := bitmap_set new_inode_bitmap ino in
  let ip := ino * INODE_SIZE in
  if BLOCK_SIZE <? ip + INODE_SIZE then lift Undefined
  else
  let new_inode_blk := memset new_inode_blk ip Byte.x00 INODE_SIZE in
  let new_inode_blk := store16 new_inode_blk (ip + INO_TYPE) 1 in
  let new_inode_blk := store16 new_inode_blk (ip + INO_LINKS) 1 in
  let new_inode_blk := store32 new_inode_blk (ip + INO_MTIME) (u32 now) in
  let new_inode_blk := store32 new_inode_blk (ip + INO_CTIME) (u32 now) in
  match find_slot (Z.to_nat (BLOCK_SIZE / SIZEOF_DIRENT)) new_root_blk 0 with
  | None => exit NoFreeDirectorySlot
  | Some i =>
      let e := i * SIZEOF_DIRENT in
      let new_root_blk := store32 new_root_blk (e + DE_INODE) ino in
      let new_root_blk :=
        strncpy new_root_blk (e + DE_NAME) name (Z.to_nat (NAME_LEN - 1)) in
      let new_root_blk := store8 new_root_blk (e + DE_NAME + (NAME_LEN - 1)) 0 in
      let jbuf :=
        if negb (load32 jbuf JH_MAGIC =? JOURNAL_MAGIC)
        then store32 (store32 jbuf JH_MAGIC JOURNAL_MAGIC)
               JH_NBYTES_USED SIZEOF_JOURNAL_HEADER
        else jbuf in
      let off := load32 jbuf JH_NBYTES_USED in
      let need := u32 (3 * (SIZEOF_REC_HEADER + 4 + BLOCK_SIZE) + SIZEOF_REC_HEADER) in
      if BLOCK_SIZE * JOURNAL_BLOCKS <? u32 (off + need) then exit JournalFull
      else
      let '(jbuf, off) := append_data jbuf off (load32 sb SB_INODE_BITMAP) new_inode_bitmap in
      let '(jbuf, off) := append_data jbuf off (load32 sb SB_INODE_START) new_inode_blk in
      let '(jbuf, off) := append_data jbuf off (load32 sb SB_DATA_START) new_root_blk in
      let '(jbuf, off) := append_commit jbuf off in
      let jbuf := store32 jbuf JH_NBYTES_USED off in
      write_journal_loop (Z.to_nat JOURNAL_BLOCKS) (load32 sb SB_JOURNAL_BLOCK) 0 jbuf
  end.

(** [clear_journal(fd, jblk)]: a block that holds the journal header
    alone, then a block of zeros for each of the fifteen blocks after it. *)
Fixpoint clear_journal_loop (todo : nat) (jblk i : Z) (b : buf) : M unit :=
  match todo with
  | O => ret tt
  | S todo' =>
      write_block (u32 (jblk + i)) b ;;;
      clear_journal_loop todo' jblk (i + 1) b
  end.

Definition clear_journal (jblk : Z) : M unit :=
  let b := memset zero_buf 0 Byte.x00 BLOCK_SIZE in
  let b := store32 b JH_MAGIC JOURNAL_MAGIC in
  let b := store32 b JH_NBYTES_USED SIZEOF_JOURNAL_HEADER in
  write_block jblk b ;;;
  let b := memset b 0 Byte.x00 BLOCK_SIZE in
  clear_journal_loop (Z.to_nat (JOURNAL_BLOCKS - 1)) jblk 1 b.

(** The loop of [cmd_install]: one pass that writes every data record to
    its block and counts it, steps over commit records and stops at a
    record of another type.  The offset is a [size_t] and does not wrap. *)
Fixpoint install_loop (fuel : nat) (jbuf : buf) (nbytes_used off : Z)
    (records_applied : Z) : M Z :=
  match fuel with
  | O => lift OutOfFuel
  | S fuel' =>
      if off + SIZEOF_REC_HEADER <=? nbytes_used then
        if BLOCK_SIZE * JOURNAL_BLOCKS <? off + SIZEOF_REC_HEADER then lift Undefined
        else
          let type := load16 jbuf (off + RH_TYPE) in
          let size := load16 jbuf (off + RH_SIZE) in
          if type =? REC_DATA then
            if BLOCK_SIZE * JOURNAL_BLOCKS <? off + SIZEOF_DATA_RECORD then lift Undefined
            else
              write_block (load32 jbuf (off + DR_BLOCK_NO)) (slice jbuf (off + DR_DATA)) ;;;
              if size =? 0 then lift Diverges
              else install_loop fuel' jbuf nbytes_used (off + size) (records_applied + 1)
          else if type =? REC_COMMIT then
            if size =? 0 then lift Diverges
            else install_loop fuel' jbuf nbytes_used (off + size) records_applied
          else ret records_applied
      else ret records_applied
  end.

(** [main] reads and checks the superblock, then calls [cmd_install].
    The result is the number of data records the command reports as
    applied; with no journal magic it reports an empty journal and
    returns at once. *)
Definition cmd_install : M Z :=
  sb <- read_block 0 ;;
  if negb (load32 sb SB_MAGIC =? FS_MAGIC) then exit InvalidImage
  else
  jbuf <- read_journal_loop (Z.to_nat JOURNAL_BLOCKS) (load32 sb SB_JOURNAL_BLOCK) 0 zero_buf ;;
  if negb (load32 jbuf JH_MAGIC =? JOURNAL_MAGIC) then ret 0
  else
  records_applied <-
    install_loop scan_fuel jbuf (load32 jbuf JH_NBYTES_USED) SIZEOF_JOURNAL_HEADER 0 ;;
  clear_journal (load32 sb SB_JOURNAL_BLOCK) ;;;
  verify_root <- read_block (load32 sb SB_DATA_START) ;;
  ret records_applied.

End MergeAware.

(** ** Views of the image used to state the properties *)

(** The image after a run of a command. *)
Definition after {A} (m : M A) (d : disk) : disk := snd (m d).

(** What [write_journal] leaves on the image. *)
Definition journal_written (journal_buf : buf) (d : disk) : disk :=
  snd (write_journal journal_buf d).

(** The journal buffer [cmd_create] works on: the journal region of the
    image, initialized in memory when its magic is absent. *)
Definition journal_in_memory (d : disk) : buf :=
  let journal_buf := journal_of d in
  if journal_is_initialized journal_buf then journal_buf
  else init_journal journal_buf.

(** The offset at which [cmd_create] stages its transaction. *)
Definition staged_offset (d : disk) : Z :=
  load32 (journal_in_memory d) JH_NBYTES_USED.

(** Three data records and one commit record. *)
Definition TRANSACTION_SIZE : Z := 3 * SIZEOF_DATA_RECORD + SIZEOF_COMMIT_RECORD.

Definition in_journal_region (b : Z) : Prop :=
  JOURNAL_BLOCK_IDX <= b < JOURNAL_BLOCK_IDX + JOURNAL_BLOCKS.

(** Two blocks hold the same [BLOCK_SIZE] bytes. *)
Definition block_eq (b1 b2 : buf) : Prop :=
  forall i, 0 <= i < BLOCK_SIZE -> b1 i = b2 i.

Definition disk_eq (d1 d2 : disk) : Prop :=
  forall b, block_eq (d1 b) (d2 b).

(** The checks of [cmd_create] in the order the code makes them, up to
    the choice of the inode and of the directory slot: the first check
    that fails, or the inode number and the slot index. *)
Definition checks_in_order (filename : list byte) (d : disk) : res (Z * Z) :=
  if NAME_LEN <=? strlen filename then Exit NameTooLong
  else if negb (load32 (d 0) SB_MAGIC =? FS_MAGIC) then Exit InvalidImage
  else
    match bitmap_find_free (d INODE_BMAP_IDX) (load32 (d 0) SB_INODE_COUNT) with
    | Ok free_inode =>
        if free_inode =? UINT32_MAX then Exit NoFreeInode
        else
          let root_data_blk := load32 (d INODE_START_IDX) (INO_DIRECT + 4 * 0) in
          match find_free_entry (Z.to_nat (BLOCK_SIZE / SIZEOF_DIRENT))
                  (d root_data_blk) filename 0 with
          | Ok free_entry =>
              if free_entry =? UINT32_MAX then Exit NoFreeDirectorySlot
              else Ok (free_inode, free_entry)
          | Exit e => Exit e
          | Undefined => Undefined
          | Diverges => Diverges
          | OutOfFuel => OutOfFuel
          end
    | Exit e => Exit e
    | Undefined => Undefined
    | Diverges => Diverges
    | OutOfFuel => OutOfFuel
    end.

(** The three blocks [cmd_create] journals once it has chosen [free_inode]
    and [free_entry], as functions of the image. *)
Definition new_inode_bitmap_of (d : disk) (free_inode : Z) : buf :=
  bitmap_set (memcpy zero_buf 0 (d INODE_BMAP_IDX) 0 BLOCK_SIZE) free_inode.

Definition new_inode_block_of (d : disk) (now free_inode : Z) : buf :=
  let inode_block_idx := free_inode / (BLOCK_SIZE / INODE_SIZE) in
  let inode_offset := free_inode mod (BLOCK_SIZE / INODE_SIZE) in
  let new_inode_block :=
    if negb (inode_block_idx =? 0)
    then d (u32 (INODE_START_IDX + inode_block_idx))
    else memcpy zero_buf 0 (d INODE_START_IDX) 0 BLOCK_SIZE in
  let new_file_inode := inode_offset * INODE_SIZE in
  let new_inode_block := store16 new_inode_block (new_file_inode + INO_TYPE) INODE_FILE in
  let new_inode_block := store16 new_inode_block (new_file_inode + INO_LINKS) 1 in
  let new_inode_block := store32 new_inode_block (new_file_inode + INO_SIZE) 0 in
  let new_inode_block :=
    memset new_inode_block (new_file_inode + INO_DIRECT) Byte.x00 (4 * DIRECT_POINTERS) in
  let new_inode_block := store32 new_inode_block (new_file_inode + INO_CTIME) (u32 now) in
  let new_inode_block := store32 new_inode_block (new_file_inode + INO_MTIME) (u32 now) in
  if inode_block_idx =? 0
  then
    let b := store32 new_inode_block INO_SIZE
               (u32 (load32 new_inode_block INO_SIZE + SIZEOF_DIRENT)) in
    store32 b INO_MTIME (u32 now)
  else new_inode_block.

Definition new_root_data_block_of (d : disk) (filename : list byte)
    (free_inode free_entry : Z) : buf :=
  let root_data_blk := load32 (d INODE_START_IDX) (INO_DIRECT + 4 * 0) in
  let new_root_data_block := memcpy zero_buf 0 (d root_data_blk) 0 BLOCK_SIZE in
  let new_entry := free_entry * SIZEOF_DIRENT in
  let new_root_data_block := store32 new_root_data_block (new_entry + DE_INODE) free_inode in
  let new_root_data_block :=
    strncpy new_root_data_block (new_entry + DE_NAME) filename (Z.to_nat (NAME_LEN - 1)) in
  store8 new_root_data_block (new_entry + DE_NAME + (NAME_LEN - 1)) 0.

(** The four appends of [cmd_create] and the update of the header. *)
Definition staged_journal (d : disk) (filename : list byte) (now free_inode free_entry : Z)
    : res buf :=
  let inode_block_idx := free_inode / (BLOCK_SIZE / INODE_SIZE) in
  let root_data_blk := load32 (d INODE_START_IDX) (INO_DIRECT + 4 * 0) in
  match append_data_record (journal_in_memory d) (staged_offset d) INODE_BMAP_IDX
          (new_inode_bitmap_of d free_inode) with
  | Ok (journal_buf, current_offset) =>
    match append_data_record journal_buf current_offset
            (u32 (INODE_START_IDX + inode_block_idx))
            (new_inode_block_of d now free_inode) with
    | Ok (journal_buf, current_offset) =>
      match append_data_record journal_buf current_offset root_data_blk
              (new_root_data_block_of d filename free_inode free_entry) with
      | Ok (journal_buf, current_offset) =>
        match append_commit_record journal_buf current_offset with
        | Ok (journal_buf, current_offset) =>
            Ok (update_journal_header journal_buf current_offset)
        | _ => Undefined
        end
      | _ => Undefined
      end
    | _ => Undefined
    end
  | _ => Undefined
  end.

(** The offsets of the data records the second scan of [cmd_install]
    writes, in the order it writes them. *)
Fixpoint applied_records (fuel : nat) (journal_buf : buf) (nbytes_used offset : Z)
    : list Z :=
  match fuel with
  | O => []
  | S fuel' =>
      if offset <? nbytes_used then
        if nbytes_used <? offset + SIZEOF_REC_HEADER then []
        else if JOURNAL_SIZE <? offset + RH_TYPE + 2 then []
        else
          let type := load16 journal_buf (offset + RH_TYPE) in
          let size := load16 journal_buf (offset + RH_SIZE) in
          if type =? REC_DATA then
            if JOURNAL_SIZE <? offset + SIZEOF_DATA_RECORD then []
            else
              offset ::
                (if size =? 0 then []
                 else applied_records fuel' journal_buf nbytes_used (u32 (offset + size)))
          else if type =? REC_COMMIT then
            if JOURNAL_SIZE <? offset + RH_SIZE + 2 then []
            else if size =? 0 then []
            else applied_records fuel' journal_buf nbytes_used (u32 (offset + size))
          else []
      else []
  end.

(** The write the replay makes for the data record at [offset]. *)
Definition apply_record (journal_buf : buf) (d : disk) (offset : Z) : disk :=
  after (write_block (load32 journal_buf (offset + DR_BLOCK_NO))
                     (slice journal_buf (offset + DR_DATA))) d.

(** ** The journal as a list of records *)

(** A record of the journal: a data record with its target block and its
    payload, or a commit record. *)
Inductive record : Type :=
| DataRec (block_no : Z) (data : buf)
| CommitRec.

Definition record_size (r : record) : Z :=
  match r with
  | DataRec _ _ => SIZEOF_DATA_RECORD
  | CommitRec => SIZEOF_COMMIT_RECORD
  end.

Definition records_size (recs : list record) : Z :=
  fold_right (fun r n => record_size r + n) 0 recs.

(** The bytes of [journal_buf] at [offset] are the framing of [r]. *)
Definition record_at (journal_buf : buf) (offset : Z) (r : record) : Prop :=
  match r with
  | DataRec block_no data =>
      load16 journal_buf (offset + RH_TYPE) = REC_DATA /\
      load16 journal_buf (offset + RH_SIZE) = SIZEOF_DATA_RECORD /\
      load32 journal_buf (offset + DR_BLOCK_NO) = block_no /\
      block_eq (slice journal_buf (offset + DR_DATA)) data
  | CommitRec =>
      load16 journal_buf (offset + RH_TYPE) = REC_COMMIT /\
      load16 journal_buf (offset + RH_SIZE) = SIZEOF_COMMIT_RECORD
  end.

Fixpoint records_at (journal_buf : buf) (offset : Z) (recs : list record) : Prop :=
  match recs with
  | [] => True
  | r :: recs' =>
      record_at journal_buf offset r /\
      records_at journal_buf (offset + record_size r) recs'
  end.

(** [journal_buf] is an initialized journal whose records, from just
    after the header up to [nbytes_used], are exactly [recs]. *)
Definition journal_holds (journal_buf : buf) (recs : list record) : Prop :=
  load32 journal_buf JH_MAGIC = JOURNAL_MAGIC /\
  load32 journal_buf JH_NBYTES_USED = SIZEOF_JOURNAL_HEADER + records_size recs /\
  SIZEOF_JOURNAL_HEADER + records_size recs <= JOURNAL_SIZE /\
  records_at journal_buf SIZEOF_JOURNAL_HEADER recs.

Definition commits_in (recs : list record) : Z :=
  fold_right (fun r n => match r with CommitRec => 1 + n | DataRec _ _ => n end) 0 recs.

(** Writing a record to its place. *)
Definition install_record (d : disk) (r : record) : disk :=
  match r with
  | DataRec block_no data => after (write_block block_no data) d
  | CommitRec => d
  end.

(** The transaction [cmd_create] stages for the chosen inode and slot. *)
Definition transaction_of (d : disk) (filename : list byte) (now free_inode free_entry : Z)
    : list record :=
  [ DataRec INODE_BMAP_IDX (new_inode_bitmap_of d free_inode);
    DataRec (u32 (INODE_START_IDX + free_inode / (BLOCK_SIZE / INODE_SIZE)))
            (new_inode_block_of d now free_inode);
    DataRec (load32 (d INODE_START_IDX) (INO_DIRECT + 4 * 0))
            (new_root_data_block_of d filename free_inode free_entry);
    CommitRec ].

(** ** Vocabulary for the contents of the filesystem *)

(** Directory slot [slot] of the block [root] names [filename] and maps it
    to inode [ino]. *)
Definition dir_entry_is (root : buf) (slot ino : Z) (filename : list byte) : Prop :=
  load32 root (slot * SIZEOF_DIRENT + DE_INODE) = ino /\
  strcmp_eq root (slot * SIZEOF_DIRENT + DE_NAME) filename = true.

(** The inode record at byte offset [ino] of an inode-table block is that
    of a new, empty file. *)
Definition empty_file_inode (blk : buf) (ino : Z) : Prop :=
  load16 blk (ino + INO_TYPE) = INODE_FILE /\
  load16 blk (ino + INO_LINKS) = 1 /\
  load32 blk (ino + INO_SIZE) = 0 /\
  (forall k, 0 <= k < DIRECT_POINTERS -> load32 blk (ino + INO_DIRECT + 4 * k) = 0).

(** Modelled from the spec: the formatting step is an external
    collaborator; it produces "a valid initial image (superblock written,
    bitmaps zeroed except reserved entries, empty root directory present
    at its designated data block)", laid out by the constants above, with
    a journal that is empty or not yet initialized. *)
Definition fresh_image (d : disk) : Prop :=
  load32 (d 0) SB_MAGIC = FS_MAGIC /\
  load32 (d 0) SB_INODE_COUNT = INODE_BLOCKS * (BLOCK_SIZE / INODE_SIZE) /\
  load8 (d INODE_BMAP_IDX) 0 = 1 /\
  (forall i, 1 <= i < BLOCK_SIZE -> load8 (d INODE_BMAP_IDX) i = 0) /\
  load16 (d INODE_START_IDX) INO_TYPE = INODE_DIR /\
  load32 (d INODE_START_IDX) (INO_DIRECT + 4 * 0) = DATA_START_IDX /\
  (forall i, 0 <= i < BLOCK_SIZE -> d DATA_START_IDX i = Byte.x00) /\
  (load32 (d JOURNAL_BLOCK_IDX) JH_MAGIC <> JOURNAL_MAGIC \/
   load32 (d JOURNAL_BLOCK_IDX) JH_NBYTES_USED = SIZEOF_JOURNAL_HEADER).

(** ** Concrete images *)

(** A freshly formatted image: the superblock, both bitmaps with their
    first bit reserved, the root directory inode and an empty root
    directory block; every other block is zero, the journal included. *)
Definition superblock0 : buf :=
  let b := store32 zero_buf SB_MAGIC FS_MAGIC in
  let b := store32 b 4 BLOCK_SIZE in
  let b := store32 b 8 TOTAL_BLOCKS in
  let b := store32 b SB_INODE_COUNT (INODE_BLOCKS * (BLOCK_SIZE / INODE_SIZE)) in
  let b := store32 b 16 JOURNAL_BLOCK_IDX in
  let b := store32 b 20 INODE_BMAP_IDX in
  let b := store32 b 24 DATA_BMAP_IDX in
  let b := store32 b 28 INODE_START_IDX in
  store32 b 32 DATA_START_IDX.

Definition root_inode0 : buf :=
  let b := store16 zero_buf INO_TYPE INODE_DIR in
  let b := store16 b INO_LINKS 2 in
  store32 b INO_DIRECT DATA_START_IDX.

Definition image0 : disk :=
  fun b =>
    if b =? 0 then superblock0
    else if b =? INODE_BMAP_IDX then store8 zero_buf 0 1
    else if b =? DATA_BMAP_IDX then store8 zero_buf 0 1
    else if b =? INODE_START_IDX then root_inode0
    else zero_buf.

Definition foo_txt : list byte := list_byte_of_string "foo.txt".
Definition bar_txt : list byte := list_byte_of_string "bar.txt".

(** A name of 28 characters, one more than a directory entry holds. *)
Definition long_name : list byte := list_byte_of_string "abcdefghijklmnopqrstuvwxyz01".

(** One create staged on the fresh image. *)
Definition image_one_staged : disk := after (cmd_create_lenient foo_txt 7) image0.

(** Two creates staged on the fresh image, not installed. *)
Definition image_two_staged : disk := after (cmd_create_lenient bar_txt 8) image_one_staged.

(** Five transactions staged and not installed: the journal has no room
    for a sixth. *)
Definition image_five_staged : disk :=
  let d := after (cmd_create_lenient (list_byte_of_string "a") 1) image0 in
  let d := after (cmd_create_lenient (list_byte_of_string "b") 2) d in
  let d := after (cmd_create_lenient (list_byte_of_string "c") 3) d in
  let d := after (cmd_create_lenient (list_byte_of_string "d") 4) d in
  after (cmd_create_lenient (list_byte_of_string "e") 5) d.

(** All 64 inodes in use, and "foo.txt" in the first directory slot. *)
Definition image_no_inode : disk :=
  fun b =>
    if b =? INODE_BMAP_IDX then memset zero_buf 0 Byte.xff 8
    else if b =? DATA_START_IDX
    then strncpy (store32 zero_buf DE_INODE 1) DE_NAME foo_txt (Z.to_nat (NAME_LEN - 1))
    else image0 b.

(** Inodes 0 to 31 in use: the next inode lies in the second block of the
    inode table. *)
Definition image_32_inodes : disk :=
  fun b =>
    if b =? INODE_BMAP_IDX then memset zero_buf 0 Byte.xff 4
    else image0 b.

Definition image_32_inodes_staged : disk := after (cmd_create_lenient foo_txt 7) image_32_inodes.

(** One create staged, then the journal header cut back to 12 bytes used:
    the header of the first data record lies below [nbytes_used], the rest
    of the record above it. *)
Definition image_truncated : disk :=
  fun b =>
    if b =? JOURNAL_BLOCK_IDX
    then store32 (image_one_staged JOURNAL_BLOCK_IDX) JH_NBYTES_USED 12
    else image_one_staged b.

(** A journal whose records reach its last bytes: a commit record of
    declared size 65520 at offset 8, then the header of a data record at
    offset 65528, eight bytes before the end of the journal. *)
Definition journal_to_the_end : buf :=
  let jb := store32 (store32 zero_buf JH_MAGIC JOURNAL_MAGIC) JH_NBYTES_USED JOURNAL_SIZE in
  let jb := store16 jb (8 + RH_TYPE) REC_COMMIT in
  let jb := store16 jb (8 + RH_SIZE) 65520 in
  let jb := store16 jb (65528 + RH_TYPE) REC_DATA in
  store16 jb (65528 + RH_SIZE) SIZEOF_DATA_RECORD.

Definition image_journal_to_the_end : disk := journal_written journal_to_the_end image0.

(** The fresh image with a journal header whose offset is [2 ^ 32 - 1]. *)
Definition image_wild_offset : disk :=
  fun b =>
    if b =? JOURNAL_BLOCK_IDX
    then store32 (store32 zero_buf JH_MAGIC JOURNAL_MAGIC) JH_NBYTES_USED UINT32_MAX
    else image0 b.

(** The image [image0] with the root directory placed, wrongly, on block 5
    of the journal region. *)
Definition image_root_in_journal : disk :=
  fun b =>
    if b =? INODE_START_IDX then store32 root_inode0 INO_DIRECT 5
    else image0 b.

(** Two creates staged on it, not installed. *)
Definition image_root_in_journal_staged : disk :=
  after (cmd_create_lenient bar_txt 8)
    (after (cmd_create_lenient foo_txt 7) image_root_in_journal).

(** Two creates staged by the second implementation on the fresh image. *)
Definition image_two_staged_merge_aware : disk :=
  after (MergeAware.cmd_create bar_txt 8)
    (after (MergeAware.cmd_create foo_txt 7) image0).

(** ** Further views *)

(** A directory slot is unused when its inode number is 0 and its name is
    empty: the test that ends the scan of [cmd_create]. *)
Definition slot_unused (entries : buf) (i : Z) : bool :=
  (load32 entries (i * SIZEOF_DIRENT + DE_INODE) =? 0)
  && (load8 entries (i * SIZEOF_DIRENT + DE_NAME) =? 0).

(** The payload of the last data record of [recs] that targets [blk], or
    [dflt] when there is none. *)
Fixpoint last_staged (blk : Z) (recs : list record) (dflt : buf) : buf :=
  match recs with
  | [] => dflt
  | DataRec block_no data :: recs' =>
      last_staged blk recs' (if block_no =? blk then data else dflt)
  | CommitRec :: recs' => last_staged blk recs' dflt
  end.

(** The number of data records of a list. *)
Definition data_records_in (recs : list record) : Z :=
  fold_right (fun r n => match r with DataRec _ _ => 1 + n | CommitRec => n end) 0 recs.

(** The block [cmd_create] reads as the root directory: the one the first
    direct pointer of the root inode names. *)
Definition root_directory_of (d : disk) : buf :=
  d (load32 (d INODE_START_IDX) (INO_DIRECT + 4 * 0)).

(** ** Further images *)

(** One create staged on the fresh image and installed. *)
Definition image_one_installed : disk := after cmd_install image_one_staged.

(** The fresh image with a root directory block that has no unused slot:
    every byte of it is 1. *)
Definition image_full_directory : disk :=
  fun b =>
    if b =? DATA_START_IDX then memset zero_buf 0 Byte.x01 BLOCK_SIZE
    else image0 b.

(** A journal whose header says 12 bytes are used while the four bytes
    after the header are zero: a record header of type 0. *)
Definition image_unknown_record : disk :=
  fun b =>
    if b =? JOURNAL_BLOCK_IDX
    then store32 (store32 zero_buf JH_MAGIC JOURNAL_MAGIC) JH_NBYTES_USED 12
    else image0 b.

(** A journal that holds one data record, for the inode bitmap block, and
    no commit record. *)
Definition journal_uncommitted : buf :=
  match append_data_record (init_journal zero_buf) SIZEOF_JOURNAL_HEADER INODE_BMAP_IDX
          (memset zero_buf 0 Byte.xff BLOCK_SIZE) with
  | Ok (journal_buf, offset) => update_journal_header journal_buf offset
  | _ => zero_buf
  end.

Definition image_uncommitted : disk := journal_written journal_uncommitted image0.

(** All inodes but 0 and 1 free; the first slot of the root directory
    unused and "foo.txt", inode 1, in the second: the directory as it is
    once the file of the first slot has been removed. *)
Definition image_name_behind_hole : disk :=
  fun b =>
    if b =? INODE_BMAP_IDX then store8 zero_buf 0 3
    else if b =? DATA_START_IDX
    then strncpy (store32 zero_buf (1 * SIZEOF_DIRENT + DE_INODE) 1)
           (1 * SIZEOF_DIRENT + DE_NAME) foo_txt (Z.to_nat (NAME_LEN - 1))
    else image0 b.

Definition image_name_behind_hole_staged : disk :=
  after (cmd_create_lenient foo_txt 7) image_name_behind_hole.

(** * Properties *)

(** ** Memory *)

Lemma store_bytes_in m a l i :
  a <= i < a + Z.of_nat (length l) ->
  store_bytes m a l i = nth (Z.to_nat (i - a)) l Byte.x00.
Proof.
  intros H. unfold store_bytes.
  destruct (Z.leb_spec a i), (Z.ltb_spec i (a + Z.of_nat (length l)));
    cbn [andb]; try reflexivity; lia.
Qed.

Lemma store_bytes_out m a l i :
  i < a \/ a + Z.of_nat (length l) <= i ->
  store_bytes m a l i = m i.
Proof.
  intros H. unfold store_bytes.
  destruct (Z.leb_spec a i), (Z.ltb_spec i (a + Z.of_nat (length l)));
    cbn [andb]; try reflexivity; lia.
Qed.

Lemma memcpy_in dst doff src soff n i :
  doff <= i < doff + n -> memcpy dst doff src soff n i = src (soff + (i - doff)).
Proof.
  intros H. unfold memcpy.
  destruct (Z.leb_spec doff i), (Z.ltb_spec i (doff + n));
    cbn [andb]; try reflexivity; lia.
Qed.

Lemma memcpy_out dst doff src soff n i :
  i < doff \/ doff + n <= i -> memcpy dst doff src soff n i = dst i.
Proof.
  intros H. unfold memcpy.
  destruct (Z.leb_spec doff i), (Z.ltb_spec i (doff + n));
    cbn [andb]; try reflexivity; lia.
Qed.

Lemma memset_in dst off c n i :
  off <= i < off + n -> memset dst off c n i = c.
Proof.
  intros H. unfold memset.
  destruct (Z.leb_spec off i), (Z.ltb_spec i (off + n));
    cbn [andb]; try reflexivity; lia.
Qed.

Lemma memset_out dst off c n i :
  i < off \/ off + n <= i -> memset dst off c n i = dst i.
Proof.
  intros H. unfold memset.
  destruct (Z.leb_spec off i), (Z.ltb_spec i (off + n));
    cbn [andb]; try reflexivity; lia.
Qed.

(** A load only depends on the bytes it covers. *)
Lemma load8_ext m m' a : m a = m' a -> load8 m a = load8 m' a.
Proof. unfold load8. now intros ->. Qed.

Lemma load16_ext m m' a :
  (forall i, a <= i < a + 2 -> m i = m' i) -> load16 m a = load16 m' a.
Proof. intros H. unfold load16. rewrite !H by lia. reflexivity. Qed.

Lemma load32_ext m m' a :
  (forall i, a <= i < a + 4 -> m i = m' i) -> load32 m a = load32 m' a.
Proof. intros H. unfold load32. rewrite !H by lia. reflexivity. Qed.

Lemma load32_range m a : 0 <= load32 m a < 2 ^ 32.
Proof. unfold load32. apply (le_combine_bound [m a; m (a + 1); m (a + 2); m (a + 3)]). Qed.

Lemma load16_range m a : 0 <= load16 m a < 2 ^ 16.
Proof. unfold load16. apply (le_combine_bound [m a; m (a + 1)]). Qed.

Lemma load8_range m a : 0 <= load8 m a < 2 ^ 8.
Proof. unfold load8. apply byte.unsigned_range. Qed.

Lemma u32_small z : 0 <= z < 2 ^ 32 -> u32 z = z.
Proof. intros H. unfold u32. apply Z.mod_small. exact H. Qed.

Lemma load8_store8_same m a v : load8 (store8 m a v) a = v mod 2 ^ 8.
Proof.
  unfold load8, store8. rewrite store_bytes_in by (rewrite length_le_split; lia).
  rewrite Z.sub_diag. change (Z.to_nat 0) with 0%nat. cbv [le_split nth]. apply byte.unsigned_of_Z.
Qed.

Lemma load16_store16_same m a v : load16 (store16 m a v) a = v mod 2 ^ 16.
Proof.
  unfold load16, store16.
  rewrite !store_bytes_in by (rewrite length_le_split; lia).
  replace (a + 1 - a) with 1 by lia. rewrite Z.sub_diag.
  change (Z.to_nat 0) with 0%nat. change (Z.to_nat 1) with 1%nat.
  cbv [le_split nth]. apply (le_combine_split 2 v).
Qed.

Lemma load32_store32_same m a v : load32 (store32 m a v) a = v mod 2 ^ 32.
Proof.
  unfold load32, store32.
  rewrite !store_bytes_in by (rewrite length_le_split; lia).
  replace (a + 1 - a) with 1 by lia. replace (a + 2 - a) with 2 by lia.
  replace (a + 3 - a) with 3 by lia. rewrite Z.sub_diag.
  change (Z.to_nat 0) with 0%nat. change (Z.to_nat 1) with 1%nat.
  change (Z.to_nat 2) with 2%nat. change (Z.to_nat 3) with 3%nat.
  cbv [le_split nth]. apply (le_combine_split 4 v).
Qed.

Lemma store8_out m a v i : i <> a -> store8 m a v i = m i.
Proof. intros H. apply store_bytes_out. rewrite length_le_split. lia. Qed.

Lemma store16_out m a v i : i < a \/ a + 2 <= i -> store16 m a v i = m i.
Proof. intros H. apply store_bytes_out. rewrite length_le_split. lia. Qed.

Lemma store32_out m a v i : i < a \/ a + 4 <= i -> store32 m a v i = m i.
Proof. intros H. apply store_bytes_out. rewrite length_le_split. lia. Qed.

(** ** Running the monad *)

Lemma read_journal_loop_run (todo : nat) : forall i jb d,
  read_journal_loop todo i jb d = (Ok (journal_loaded todo i jb d), d).
Proof.
  induction todo as [|todo IH]; intros i jb d; cbn [read_journal_loop journal_loaded].
  - reflexivity.
  - unfold bind, read_block. apply IH.
Qed.

Lemma read_journal_run d : read_journal d = (Ok (journal_of d), d).
Proof. apply read_journal_loop_run. Qed.

Lemma journal_loaded_spec (todo : nat) : forall i jb d a,
  0 <= i ->
  journal_loaded todo i jb d a =
    if (i * BLOCK_SIZE <=? a) && (a <? (i + Z.of_nat todo) * BLOCK_SIZE)
    then d (JOURNAL_BLOCK_IDX + a / BLOCK_SIZE) (a mod BLOCK_SIZE)
    else jb a.
Proof.
  unfold BLOCK_SIZE.
  induction todo as [|todo IH]; intros i jb d a Hi; cbn [journal_loaded].
  - destruct (Z.leb_spec (i * 4096) a), (Z.ltb_spec a ((i + Z.of_nat 0) * 4096));
      cbn [andb]; try reflexivity; lia.
  - rewrite IH by lia. unfold memcpy, BLOCK_SIZE.
    destruct (Z.leb_spec ((i + 1) * 4096) a),
             (Z.ltb_spec a ((i + 1 + Z.of_nat todo) * 4096)),
             (Z.leb_spec (i * 4096) a),
             (Z.ltb_spec a ((i + Z.of_nat (S todo)) * 4096)),
             (Z.ltb_spec a (i * 4096 + 4096));
      cbn [andb]; try reflexivity; try lia.
    assert (a / 4096 = i) as -> by (Z.to_euclidean_division_equations; lia).
    f_equal. Z.to_euclidean_division_equations; lia.
Qed.

Lemma journal_of_spec d a :
  0 <= a < JOURNAL_SIZE ->
  journal_of d a = d (JOURNAL_BLOCK_IDX + a / BLOCK_SIZE) (a mod BLOCK_SIZE).
Proof.
  intros Ha. unfold journal_of. rewrite journal_loaded_spec by lia.
  unfold JOURNAL_SIZE, JOURNAL_BLOCKS, BLOCK_SIZE in *.
  destruct (Z.leb_spec (0 * 4096) a),
           (Z.ltb_spec a ((0 + Z.of_nat (Z.to_nat 16)) * 4096));
    cbn [andb]; try reflexivity; lia.
Qed.

Lemma write_journal_loop_run (todo : nat) : forall i jb d,
  fst (write_journal_loop todo i jb d) = Ok tt /\
  forall b,
    snd (write_journal_loop todo i jb d) b =
      if (JOURNAL_BLOCK_IDX + i <=? b) && (b <? JOURNAL_BLOCK_IDX + i + Z.of_nat todo)
      then slice jb ((b - JOURNAL_BLOCK_IDX) * BLOCK_SIZE)
      else d b.
Proof.
  unfold JOURNAL_BLOCK_IDX.
  induction todo as [|todo IH]; intros i jb d; cbn [write_journal_loop].
  - split; [reflexivity|]. intros b. cbn [ret snd].
    destruct (Z.leb_spec (1 + i) b), (Z.ltb_spec b (1 + i + Z.of_nat 0));
      cbn [andb]; try reflexivity; lia.
  - unfold bind, write_block. cbv beta iota.
    destruct (IH (i + 1) jb (fun j => if j =? 1 + i then slice jb (i * BLOCK_SIZE) else d j))
      as [Hr Hd].
    split; [exact Hr|]. intros b. rewrite Hd.
    destruct (Z.leb_spec (1 + (i + 1)) b),
             (Z.ltb_spec b (1 + (i + 1) + Z.of_nat todo)),
             (Z.leb_spec (1 + i) b),
             (Z.ltb_spec b (1 + i + Z.of_nat (S todo))),
             (Z.eqb_spec b (1 + i));
      cbn [andb]; try reflexivity; try lia.
    subst b. f_equal. lia.
Qed.

Lemma write_journal_run jb d : write_journal jb d = (Ok tt, journal_written jb d).
Proof.
  unfold journal_written, write_journal.
  destruct (write_journal_loop_run (Z.to_nat JOURNAL_BLOCKS) 0 jb d) as [Hr _].
  destruct (write_journal_loop _ _ _ _) as [r d']. cbn [fst snd] in *. now subst r.
Qed.

Lemma journal_written_spec jb d b :
  journal_written jb d b =
    if (JOURNAL_BLOCK_IDX <=? b) && (b <? JOURNAL_BLOCK_IDX + JOURNAL_BLOCKS)
    then slice jb ((b - JOURNAL_BLOCK_IDX) * BLOCK_SIZE)
    else d b.
Proof.
  unfold journal_written, write_journal.
  destruct (write_journal_loop_run (Z.to_nat JOURNAL_BLOCKS) 0 jb d) as [_ Hd].
  rewrite Hd. rewrite Z.add_0_r. reflexivity.
Qed.

Lemma journal_written_outside jb d b :
  ~ in_journal_region b -> journal_written jb d b = d b.
Proof.
  intros Hb. rewrite journal_written_spec. unfold in_journal_region in Hb.
  destruct (Z.leb_spec JOURNAL_BLOCK_IDX b),
           (Z.ltb_spec b (JOURNAL_BLOCK_IDX + JOURNAL_BLOCKS));
    cbn [andb]; try reflexivity; lia.
Qed.

(** Reading back a journal that was just written. *)
Lemma journal_of_written jb d a :
  0 <= a < JOURNAL_SIZE -> journal_of (journal_written jb d) a = jb a.
Proof.
  intros Ha. rewrite journal_of_spec by assumption. rewrite journal_written_spec.
  unfold JOURNAL_SIZE, JOURNAL_BLOCKS, JOURNAL_BLOCK_IDX, BLOCK_SIZE, slice in *.
  destruct (Z.leb_spec 1 (1 + a / 4096)), (Z.ltb_spec (1 + a / 4096) (1 + 16));
    cbn [andb]; try (Z.to_euclidean_division_equations; lia).
  f_equal. Z.to_euclidean_division_equations; lia.
Qed.

(** ** The shape of a run of [cmd_create_lenient] *)

Lemma append_data_record_cases jb off blk data :
  append_data_record jb off blk data = Undefined \/
  exists r, append_data_record jb off blk data = Ok r.
Proof.
  unfold append_data_record.
  destruct (JOURNAL_SIZE <? off + SIZEOF_DATA_RECORD); [left|right; eexists]; reflexivity.
Qed.

Lemma append_commit_record_cases jb off :
  append_commit_record jb off = Undefined \/
  exists r, append_commit_record jb off = Ok r.
Proof.
  unfold append_commit_record.
  destruct (JOURNAL_SIZE <? off + SIZEOF_COMMIT_RECORD); [left|right; eexists]; reflexivity.
Qed.

(** [cmd_create_lenient] fails exactly as [checks_in_order] says, and
    after the checks it is the capacity test followed by the staging. *)
Lemma cmd_create_lenient_after_checks filename now d :
  cmd_create_lenient filename now d =
    match checks_in_order filename d with
    | Ok (free_inode, free_entry) =>
        if JOURNAL_SIZE <? u32 (staged_offset d + u32 (u32 (3 * (SIZEOF_REC_HEADER + 4 + BLOCK_SIZE)) + SIZEOF_REC_HEADER))
        then (Exit JournalFull, d)
        else
          match staged_journal d filename now free_inode free_entry with
          | Ok jb => (Ok tt, journal_written jb d)
          | _ => (Undefined, d)
          end
    | Exit e => (Exit e, d)
    | Undefined => (Undefined, d)
    | Diverges => (Diverges, d)
    | OutOfFuel => (OutOfFuel, d)
    end.
Proof.
  unfold cmd_create_lenient, cmd_create_sized, checks_in_order.
  destruct (NAME_LEN <=? strlen filename); [reflexivity|].
  change (read_block_into BLOCK_SIZE 0) with (read_block 0).
  unfold bind at 1. unfold read_block at 1.
  destruct (negb (load32 (d 0) SB_MAGIC =? FS_MAGIC)); [reflexivity|].
  unfold bind at 1. rewrite read_journal_run.
  unfold bind at 1. unfold read_block at 1.
  unfold bind at 1. unfold read_block at 1.
  unfold bind at 1. unfold read_block at 1.
  unfold bind at 1. unfold read_block at 1.
  unfold bind at 1. unfold lift at 1.
  destruct (bitmap_find_free _ _) as [free_inode| | | |]; try reflexivity.
  destruct (free_inode =? UINT32_MAX); [reflexivity|].
  unfold bind at 1. unfold lift at 1.
  destruct (find_free_entry _ _ _ _) as [free_entry| | | |]; try reflexivity.
  destruct (free_entry =? UINT32_MAX); [reflexivity|].
  unfold bind at 1.
  match goal with
  | |- context [match ?m d with _ => _ end] =>
      assert (m d = (Ok (if negb (free_inode / (BLOCK_SIZE / INODE_SIZE) =? 0)
                         then d (u32 (INODE_START_IDX + free_inode / (BLOCK_SIZE / INODE_SIZE)))
                         else memcpy zero_buf 0 (d INODE_START_IDX) 0 BLOCK_SIZE), d)) as ->
        by (destruct (negb _); reflexivity)
  end.
  cbv zeta. fold (journal_in_memory d). fold (staged_offset d).
  match goal with |- context [if ?c then exit JournalFull else _] => destruct c end;
    [reflexivity|].
  unfold staged_journal.
  fold (new_inode_bitmap_of d free_inode).
  fold (new_inode_block_of d now free_inode).
  fold (new_root_data_block_of d filename free_inode free_entry).
  unfold bind at 1. unfold lift at 1.
  match goal with |- context [append_data_record ?a ?b ?c ?e] =>
    destruct (append_data_record_cases a b c e) as [->|[[jb1 off1] ->]] end;
    [reflexivity|].
  unfold bind at 1. unfold lift at 1.
  match goal with |- context [append_data_record ?a ?b ?c ?e] =>
    destruct (append_data_record_cases a b c e) as [->|[[jb2 off2] ->]] end;
    [reflexivity|].
  unfold bind at 1. unfold lift at 1.
  match goal with |- context [append_data_record ?a ?b ?c ?e] =>
    destruct (append_data_record_cases a b c e) as [->|[[jb3 off3] ->]] end;
    [reflexivity|].
  unfold bind at 1. unfold lift at 1.
  match goal with |- context [append_commit_record ?a ?b] =>
    destruct (append_commit_record_cases a b) as [->|[[jb4 off4] ->]] end;
    [reflexivity|].
  apply write_journal_run.
Qed.

(** [cmd_create_lenient] has no unbounded loop: it returns, exits with
    an error, or makes an access outside an array. *)
Lemma bitmap_find_free_loop_cases (todo : nat) bitmap : forall i,
  bitmap_find_free_loop todo bitmap i = Undefined \/
  exists r, bitmap_find_free_loop todo bitmap i = Ok r.
Proof.
  induction todo as [|todo IH]; intros i; cbn [bitmap_find_free_loop].
  - right. eexists. reflexivity.
  - destruct (BLOCK_SIZE <=? i / 8); [left; reflexivity|].
    destruct (bitmap_test bitmap i =? 0); [right; eexists; reflexivity|apply IH].
Qed.

Lemma find_free_entry_cases (todo : nat) entries filename : forall i,
  find_free_entry todo entries filename i = Exit DuplicateName \/
  exists r, find_free_entry todo entries filename i = Ok r.
Proof.
  induction todo as [|todo IH]; intros i; cbn [find_free_entry].
  - right. eexists. reflexivity.
  - destruct (_ && _); [right; eexists; reflexivity|].
    destruct (strcmp_eq _ _ _); [left; reflexivity|apply IH].
Qed.

Lemma cmd_create_lenient_total filename now d :
  fst (cmd_create_lenient filename now d) <> Diverges /\
  fst (cmd_create_lenient filename now d) <> OutOfFuel.
Proof.
  rewrite cmd_create_lenient_after_checks. unfold checks_in_order, bitmap_find_free.
  destruct (NAME_LEN <=? strlen filename); [split; discriminate|].
  destruct (negb _); [split; discriminate|].
  match goal with |- context [bitmap_find_free_loop ?t ?b ?i] =>
    destruct (bitmap_find_free_loop_cases t b i) as [->|[fi ->]] end;
    [split; discriminate|].
  destruct (fi =? UINT32_MAX); [split; discriminate|].
  cbv zeta.
  match goal with |- context [find_free_entry ?t ?e ?f ?i] =>
    destruct (find_free_entry_cases t e f i) as [->|[fe ->]] end;
    [split; discriminate|].
  destruct (fe =? UINT32_MAX); [split; discriminate|].
  destruct (JOURNAL_SIZE <? _); [split; discriminate|].
  destruct (staged_journal d filename now fi fe); split; discriminate.
Qed.

(** ** The run of [cmd_create] as written *)

(** After the check of the name, [cmd_create] copies the 4096 bytes of
    block 0 into its 128-byte [struct superblock]. *)
Lemma cmd_create_run filename now d :
  cmd_create filename now d =
    (if NAME_LEN <=? strlen filename then Exit NameTooLong else Undefined, d).
Proof.
  unfold cmd_create, cmd_create_sized.
  destruct (NAME_LEN <=? strlen filename); [reflexivity|].
  unfold bind at 1. reflexivity.
Qed.

(** ** Failures of [cmd_create_lenient] *)

(** [cmd_create_lenient] fails with the error of the first failed
    check, and the image is then as it was. *)
Lemma cmd_create_lenient_fails_as_checks filename now d e :
  checks_in_order filename d = Exit e ->
  cmd_create_lenient filename now d = (Exit e, d).
Proof.
  intros H. rewrite cmd_create_lenient_after_checks. rewrite H. reflexivity.
Qed.

(** C3: the code does not keep the order of the specification, and it
    does not find every name that is in the directory.  [cmd_create]
    looks for a free inode (journal.c:215) before it scans the directory
    (journal.c:227-238): on [image_no_inode], where "foo.txt" is in the
    first slot and no inode is free, the statements of the function end
    in [NoFreeInode], not in [DuplicateName].  The scan stops at the
    first unused slot: on [image_name_behind_hole], where the first slot
    is unused and "foo.txt" is in the second, a create of "foo.txt" is
    accepted, and after the install the directory holds the name twice,
    for inodes 2 and 1.  As written, the function does not get as far as
    any of these checks in a defined way: the read of the superblock is
    outside its object. *)
Theorem create_misses_duplicate_names :
  dir_entry_is (image_no_inode DATA_START_IDX) 0 1 foo_txt /\
  load32 (image_no_inode 0) SB_MAGIC = FS_MAGIC /\
  bitmap_find_free (image_no_inode INODE_BMAP_IDX)
    (load32 (image_no_inode 0) SB_INODE_COUNT) = Ok UINT32_MAX /\
  cmd_create_lenient foo_txt 7 image_no_inode = (Exit NoFreeInode, image_no_inode) /\
  slot_unused (image_name_behind_hole DATA_START_IDX) 0 = true /\
  dir_entry_is (image_name_behind_hole DATA_START_IDX) 1 1 foo_txt /\
  checks_in_order foo_txt image_name_behind_hole = Ok (2, 0) /\
  fst (cmd_create_lenient foo_txt 7 image_name_behind_hole) = Ok tt /\
  fst (cmd_install image_name_behind_hole_staged) = Ok 1 /\
  dir_entry_is (after cmd_install image_name_behind_hole_staged DATA_START_IDX) 0 2 foo_txt /\
  dir_entry_is (after cmd_install image_name_behind_hole_staged DATA_START_IDX) 1 1 foo_txt /\
  cmd_create foo_txt 7 image_no_inode = (Undefined, image_no_inode).
Proof.
  unfold dir_entry_is.
  split; [split; vm_compute; reflexivity|].
  split; [vm_compute; reflexivity|].
  split; [vm_compute; reflexivity|].
  split; [apply cmd_create_lenient_fails_as_checks; vm_compute; reflexivity|].
  split; [vm_compute; reflexivity|].
  split; [split; vm_compute; reflexivity|].
  split; [vm_compute; reflexivity|].
  split; [vm_compute; reflexivity|].
  split; [vm_compute; reflexivity|].
  split; [split; vm_compute; reflexivity|].
  split; [split; vm_compute; reflexivity|].
  apply cmd_create_run.
Qed.

(** C9 (as amended): a file name of [NAME_LEN] bytes or more is rejected
    before anything is read or written; the image is unchanged.  (An empty
    name is not rejected by this check.) *)
Theorem create_rejects_long_name filename now d :
  NAME_LEN <= strlen filename ->
  cmd_create filename now d = (Exit NameTooLong, d).
Proof.
  intros H. rewrite cmd_create_run.
  destruct (Z.leb_spec NAME_LEN (strlen filename)); [reflexivity | lia].
Qed.

Lemma create_rejects_long_name_witness :
  NAME_LEN <= strlen long_name /\
  cmd_create long_name 7 image0 = (Exit NameTooLong, image0).
Proof.
  assert (H : NAME_LEN <= strlen long_name) by (vm_compute; discriminate).
  split; [exact H | exact (create_rejects_long_name long_name 7 image0 H)].
Defined.

(** The empty name passes validation: [cmd_create] does not reject it,
    and the statements that follow the read of the superblock stage the
    create, so that the journal header on the image changes. *)
Lemma create_accepts_empty_name :
  strlen [] = 0 /\
  fst (cmd_create_lenient [] 7 image0) = Ok tt /\
  load32 (image0 JOURNAL_BLOCK_IDX) JH_NBYTES_USED = 0 /\
  load32 (after (cmd_create_lenient [] 7) image0 JOURNAL_BLOCK_IDX) JH_NBYTES_USED
    = SIZEOF_JOURNAL_HEADER + TRANSACTION_SIZE /\
  fst (cmd_create [] 7 image0) <> Exit NameTooLong.
Proof.
  split; [reflexivity|].
  split; [vm_compute; reflexivity|].
  split; [vm_compute; reflexivity|].
  split; [vm_compute; reflexivity|].
  rewrite cmd_create_run. cbn. discriminate.
Qed.

(** The capacity test, for every header offset whose 32-bit sum with the
    size of the transaction does not wrap. *)
Lemma create_capacity_check filename now d :
  JOURNAL_SIZE - staged_offset d < TRANSACTION_SIZE ->
  staged_offset d + TRANSACTION_SIZE < 2 ^ 32 ->
  snd (cmd_create_lenient filename now d) = d /\
  fst (cmd_create_lenient filename now d) <> Ok tt /\
  (forall p, checks_in_order filename d = Ok p ->
             cmd_create_lenient filename now d = (Exit JournalFull, d)).
Proof.
  intros Hfull Hwrap.
  assert (Hcap : (JOURNAL_SIZE <?
            u32 (staged_offset d + u32 (u32 (3 * (SIZEOF_REC_HEADER + 4 + BLOCK_SIZE))
                                        + SIZEOF_REC_HEADER))) = true).
  { pose proof (load32_range (journal_in_memory d) JH_NBYTES_USED) as Hr.
    fold (staged_offset d) in Hr.
    change (u32 (u32 (3 * (SIZEOF_REC_HEADER + 4 + BLOCK_SIZE)) + SIZEOF_REC_HEADER))
      with TRANSACTION_SIZE.
    rewrite u32_small by (unfold TRANSACTION_SIZE, SIZEOF_DATA_RECORD, SIZEOF_COMMIT_RECORD,
                            SIZEOF_REC_HEADER, BLOCK_SIZE in *; lia).
    apply Z.ltb_lt. lia. }
  rewrite cmd_create_lenient_after_checks.
  destruct (checks_in_order filename d) as [[fi fe]|e| | |]; rewrite ?Hcap; cbn [fst snd];
    repeat split; try discriminate; intros p Hp; try discriminate; reflexivity.
Qed.

(** On that image the earlier checks pass, so the failure is
    [JournalFull]. *)
Lemma create_sixth_is_journal_full :
  cmd_create_lenient foo_txt 7 image_five_staged = (Exit JournalFull, image_five_staged).
Proof.
  apply (create_capacity_check foo_txt 7 image_five_staged) with (p := (1, 0));
    vm_compute; reflexivity.
Qed.

(** C5: the capacity test is made once, for the whole transaction, and
    where its sum does not wrap it does what the specification says (the
    two lemmas above).  But the sum [current_offset + total_needed]
    (journal.c:290) is a 32-bit sum.  On [image_wild_offset] the journal
    header gives [2 ^ 32 - 1] bytes used, more than the journal holds, so
    no room is left for a transaction; the sum wraps to 12315, the test
    passes, and the first append writes its record outside the journal
    buffer: the create does not fail with [JournalFull].  As written, the
    function does not reach the test in a defined way: the read of the
    superblock is outside its object. *)
Theorem create_capacity_check_wraps :
  load32 (journal_of image_wild_offset) JH_MAGIC = JOURNAL_MAGIC /\
  staged_offset image_wild_offset = UINT32_MAX /\
  JOURNAL_SIZE - staged_offset image_wild_offset < TRANSACTION_SIZE /\
  checks_in_order foo_txt image_wild_offset = Ok (1, 0) /\
  u32 (staged_offset image_wild_offset + TRANSACTION_SIZE) = TRANSACTION_SIZE - 1 /\
  append_data_record (journal_in_memory image_wild_offset) (staged_offset image_wild_offset)
    INODE_BMAP_IDX (new_inode_bitmap_of image_wild_offset 1) = Undefined /\
  fst (cmd_create_lenient foo_txt 7 image_wild_offset) = Undefined /\
  fst (cmd_create_lenient foo_txt 7 image_wild_offset) <> Exit JournalFull /\
  cmd_create foo_txt 7 image_wild_offset = (Undefined, image_wild_offset).
Proof.
  split; [vm_compute; reflexivity|].
  split; [vm_compute; reflexivity|].
  split; [vm_compute; reflexivity|].
  split; [vm_compute; reflexivity|].
  split; [vm_compute; reflexivity|].
  split; [vm_compute; reflexivity|].
  split; [vm_compute; reflexivity|].
  split; [vm_compute; discriminate|].
  apply cmd_create_run.
Qed.

(** The only write of [cmd_create_lenient] is the write of the journal region. *)
Lemma cmd_create_lenient_writes_journal_only filename now d d' b :
  cmd_create_lenient filename now d = (Ok tt, d') ->
  ~ in_journal_region b ->
  d' b = d b.
Proof.
  intros Hrun Hb. rewrite cmd_create_lenient_after_checks in Hrun.
  destruct (checks_in_order filename d) as [[fi fe]|e| | |]; try discriminate.
  destruct (JOURNAL_SIZE <? _); [discriminate|].
  destruct (staged_journal d filename now fi fe) as [jb| | | |]; try discriminate.
  injection Hrun as <-. apply journal_written_outside. exact Hb.
Qed.



(** ** Install *)

Lemma scan_fuel_succ : exists fuel, scan_fuel = S fuel.
Proof.
  exists (Z.to_nat (JOURNAL_SIZE - 1)). unfold scan_fuel.
  rewrite <- Z2Nat.inj_succ by (unfold JOURNAL_SIZE, JOURNAL_BLOCKS, BLOCK_SIZE; lia).
  f_equal; lia.
Qed.

(** The image only changes by the writes of the data records. *)
Lemma replay_records_writes jb nb (fuel : nat) : forall off d,
  snd (replay_records fuel jb nb off d) =
    fold_left (apply_record jb) (applied_records fuel jb nb off) d.
Proof.
  induction fuel as [|fuel IH]; intros off d; cbn [replay_records applied_records].
  - reflexivity.
  - repeat (match goal with
            | |- context [if ?c then _ else _] =>
                lazymatch c with
                | context [if _ then _ else _] => fail
                | _ => destruct c
                end
            end);
      try reflexivity; try apply IH;
      unfold bind at 1; unfold write_block at 1; cbn [fold_left];
      rewrite ?IH; reflexivity.
Qed.

Lemma cmd_install_run d :
  cmd_install d =
    let jb := journal_of d in
    if negb (journal_is_initialized jb) then (Exit JournalNotInitialized, d)
    else
      let nb := load32 jb JH_NBYTES_USED in
      match count_commits scan_fuel jb nb SIZEOF_JOURNAL_HEADER 0 with
      | Ok n =>
          match replay_records scan_fuel jb nb SIZEOF_JOURNAL_HEADER d with
          | (Ok _, d1) => (Ok n, journal_written (init_journal jb) d1)
          | (Exit e, d1) => (Exit e, d1)
          | (Undefined, d1) => (Undefined, d1)
          | (Diverges, d1) => (Diverges, d1)
          | (OutOfFuel, d1) => (OutOfFuel, d1)
          end
      | Exit e => (Exit e, d)
      | Undefined => (Undefined, d)
      | Diverges => (Diverges, d)
      | OutOfFuel => (OutOfFuel, d)
      end.
Proof.
  unfold cmd_install. unfold bind at 1. rewrite read_journal_run. cbv zeta.
  destruct (negb (journal_is_initialized (journal_of d))); [reflexivity|].
  unfold bind at 1. unfold lift at 1.
  destruct (count_commits _ _ _ _ _) as [n| | | |]; reflexivity.
Qed.

(** A successful install leaves the data records applied in scan order,
    then the journal region reset. *)
Lemma cmd_install_ok d n d' :
  cmd_install d = (Ok n, d') ->
  let jb := journal_of d in
  journal_is_initialized jb = true /\
  count_commits scan_fuel jb (load32 jb JH_NBYTES_USED) SIZEOF_JOURNAL_HEADER 0 = Ok n /\
  d' = journal_written (init_journal jb)
         (fold_left (apply_record jb)
            (applied_records scan_fuel jb (load32 jb JH_NBYTES_USED) SIZEOF_JOURNAL_HEADER) d).
Proof.
  rewrite cmd_install_run. cbv zeta.
  destruct (journal_is_initialized (journal_of d)); cbn [negb]; [|discriminate].
  destruct (count_commits _ _ _ _ _) as [n0| | | |]; try discriminate.
  pose proof (replay_records_writes (journal_of d) (load32 (journal_of d) JH_NBYTES_USED)
                scan_fuel SIZEOF_JOURNAL_HEADER d) as Hw.
  destruct (replay_records _ _ _ _ d) as [[[]| | | |] d1]; try discriminate.
  cbn [snd] in Hw. intros [= <- <-]. subst d1. repeat split.
Qed.

(** The reset journal does not depend on what was in the buffer. *)
Lemma init_journal_bytes jb a :
  0 <= a < JOURNAL_SIZE -> init_journal jb a = init_journal zero_buf a.
Proof.
  intros Ha. unfold init_journal, JH_MAGIC, JH_NBYTES_USED.
  unfold store32, store_bytes.
  repeat (match goal with |- context [if ?c then _ else _] => destruct c end;
          try reflexivity).
  rewrite !memset_in by lia. reflexivity.
Qed.

Lemma init_journal_magic jb : load32 (init_journal jb) JH_MAGIC = JOURNAL_MAGIC.
Proof.
  unfold init_journal, JH_MAGIC, JH_NBYTES_USED.
  erewrite load32_ext by (intros i Hi; apply store32_out; lia).
  rewrite load32_store32_same. reflexivity.
Qed.

Lemma init_journal_nbytes_used jb :
  load32 (init_journal jb) JH_NBYTES_USED = SIZEOF_JOURNAL_HEADER.
Proof. unfold init_journal. rewrite load32_store32_same. reflexivity. Qed.

(** After a successful install the journal on the image is empty. *)
Lemma installed_journal_empty d n d' :
  cmd_install d = (Ok n, d') ->
  load32 (journal_of d') JH_MAGIC = JOURNAL_MAGIC /\
  load32 (journal_of d') JH_NBYTES_USED = SIZEOF_JOURNAL_HEADER.
Proof.
  intros Hrun. apply cmd_install_ok in Hrun. cbv zeta in Hrun.
  destruct Hrun as (_ & _ & ->).
  split.
  - rewrite <- (init_journal_magic (journal_of d)).
    apply load32_ext. intros i Hi. apply journal_of_written.
    unfold JH_MAGIC, JOURNAL_SIZE, JOURNAL_BLOCKS, BLOCK_SIZE in *. lia.
  - rewrite <- (init_journal_nbytes_used (journal_of d)).
    apply load32_ext. intros i Hi. apply journal_of_written.
    unfold JH_NBYTES_USED, JOURNAL_SIZE, JOURNAL_BLOCKS, BLOCK_SIZE in *. lia.
Qed.

(** Without the journal magic the install stops with an error before it
    reads a record or writes a block. *)
Lemma cmd_install_uninitialized d :
  load32 (journal_of d) JH_MAGIC <> JOURNAL_MAGIC ->
  cmd_install d = (Exit JournalNotInitialized, d).
Proof.
  intros Hm. rewrite cmd_install_run. cbv zeta. unfold journal_is_initialized.
  apply Z.eqb_neq in Hm. rewrite Hm. reflexivity.
Qed.

(** C8 (as amended): once an install has succeeded the journal on the
    image is empty (magic set, [nbytes_used] equal to the header size),
    whatever the number of commits it found; a second install then writes
    no data block, reports zero transactions and leaves every block of
    the image with the bytes it had.  (An install that does not find the
    journal magic does not succeed and resets nothing.) *)
Theorem install_idempotent d n d1 :
  cmd_install d = (Ok n, d1) ->
  load32 (journal_of d1) JH_MAGIC = JOURNAL_MAGIC /\
  load32 (journal_of d1) JH_NBYTES_USED = SIZEOF_JOURNAL_HEADER /\
  applied_records scan_fuel (journal_of d1) (load32 (journal_of d1) JH_NBYTES_USED)
    SIZEOF_JOURNAL_HEADER = [] /\
  fst (cmd_install d1) = Ok 0 /\
  disk_eq (after cmd_install d1) d1.
Proof.
  intros Hrun.
  destruct (installed_journal_empty d n d1 Hrun) as [Hmagic Hused].
  destruct scan_fuel_succ as [fuel Hfuel].
  split; [exact Hmagic|]. split; [exact Hused|].
  assert (Hnone : applied_records scan_fuel (journal_of d1)
                    (load32 (journal_of d1) JH_NBYTES_USED) SIZEOF_JOURNAL_HEADER = []).
  { rewrite Hused, Hfuel. cbn [applied_records]. rewrite Z.ltb_irrefl. reflexivity. }
  split; [exact Hnone|].
  unfold after. rewrite cmd_install_run. cbv zeta.
  unfold journal_is_initialized. rewrite Hmagic, Z.eqb_refl. cbn [negb].
  pose proof (replay_records_writes (journal_of d1) (load32 (journal_of d1) JH_NBYTES_USED)
                scan_fuel SIZEOF_JOURNAL_HEADER d1) as Hw.
  rewrite Hnone in Hw. cbn [fold_left] in Hw.
  rewrite Hused in *. rewrite Hfuel in *.
  cbn [count_commits replay_records] in *. rewrite Z.ltb_irrefl in *.
  cbn [ret fst snd]. split; [reflexivity|].
  intros b i Hi.
  apply cmd_install_ok in Hrun. cbv zeta in Hrun. destruct Hrun as (_ & _ & Hd1).
  rewrite journal_written_spec.
  destruct ((JOURNAL_BLOCK_IDX <=? b) && (b <? JOURNAL_BLOCK_IDX + JOURNAL_BLOCKS)) eqn:Hb;
    [|reflexivity].
  assert (Hblk : d1 b = slice (init_journal (journal_of d))
                           ((b - JOURNAL_BLOCK_IDX) * BLOCK_SIZE))
    by (rewrite Hd1, journal_written_spec, Hb; reflexivity).
  rewrite Hblk.
  apply andb_prop in Hb. destruct Hb as [Hb1 Hb2].
  apply Z.leb_le in Hb1. apply Z.ltb_lt in Hb2.
  unfold slice.
  rewrite (init_journal_bytes (journal_of d1)), (init_journal_bytes (journal_of d));
    [reflexivity| |];
    unfold JOURNAL_SIZE, JOURNAL_BLOCKS, JOURNAL_BLOCK_IDX, BLOCK_SIZE in *; lia.
Qed.

Lemma install_idempotent_witness :
  cmd_install image_one_staged = (Ok 1, after cmd_install image_one_staged) /\
  load32 (journal_of (after cmd_install image_one_staged)) JH_MAGIC = JOURNAL_MAGIC /\
  load32 (journal_of (after cmd_install image_one_staged)) JH_NBYTES_USED
    = SIZEOF_JOURNAL_HEADER /\
  applied_records scan_fuel (journal_of (after cmd_install image_one_staged))
    (load32 (journal_of (after cmd_install image_one_staged)) JH_NBYTES_USED)
    SIZEOF_JOURNAL_HEADER = [] /\
  fst (cmd_install (after cmd_install image_one_staged)) = Ok 0 /\
  disk_eq (after cmd_install (after cmd_install image_one_staged))
          (after cmd_install image_one_staged).
Proof.
  assert (H : cmd_install image_one_staged = (Ok 1, after cmd_install image_one_staged)).
  { unfold after. rewrite (surjective_pairing (cmd_install image_one_staged)) at 1.
    f_equal; vm_compute; reflexivity. }
  split; [exact H|].
  exact (install_idempotent image_one_staged 1 _ H).
Defined.

(** Not every install resets the journal.  The journal region of the
    fresh image has no magic: the install exits with its error, the image
    is as it was, its journal still without magic and without a header
    offset, and a second install fails in the same way instead of
    reporting zero transactions. *)
Lemma install_without_magic_resets_nothing :
  load32 (journal_of image0) JH_MAGIC <> JOURNAL_MAGIC /\
  cmd_install image0 = (Exit JournalNotInitialized, image0) /\
  load32 (journal_of (after cmd_install image0)) JH_MAGIC <> JOURNAL_MAGIC /\
  load32 (journal_of (after cmd_install image0)) JH_NBYTES_USED <> SIZEOF_JOURNAL_HEADER /\
  cmd_install (after cmd_install image0) = (Exit JournalNotInitialized, image0) /\
  fst (cmd_install (after cmd_install image0)) <> Ok 0.
Proof.
  assert (Hm : load32 (journal_of image0) JH_MAGIC <> JOURNAL_MAGIC)
    by (vm_compute; discriminate).
  assert (Hrun : cmd_install image0 = (Exit JournalNotInitialized, image0))
    by (apply cmd_install_uninitialized; exact Hm).
  assert (Hafter : after cmd_install image0 = image0)
    by (unfold after; rewrite Hrun; reflexivity).
  rewrite Hafter, Hrun.
  split; [exact Hm|]. split; [reflexivity|]. split; [exact Hm|].
  split; [vm_compute; discriminate|]. split; [reflexivity|].
  cbn [fst]. discriminate.
Qed.


(** *** The order of the writes *)

Section ReplayOrder.

Variables (jb : buf) (nb : Z).

Lemma applied_records_lower (fuel : nat) : forall off o,
  0 <= off -> In o (applied_records fuel jb nb off) -> off <= o.
Proof.
  induction fuel as [|fuel IH]; intros off o Hoff; cbn [applied_records]; [intros []|].
  unfold SIZEOF_DATA_RECORD, SIZEOF_REC_HEADER, RH_SIZE, RH_TYPE, JOURNAL_SIZE,
    JOURNAL_BLOCKS, BLOCK_SIZE.
  pose proof (load16_range jb (off + 2)) as Hsz.
  repeat (match goal with
          | |- context [if ?c then _ else _] =>
              lazymatch c with
              | context [if _ then _ else _] => fail
              | _ => destruct c eqn:?
              end
          end); cbn [In]; try tauto;
    repeat (match goal with
            | H : (_ <? _) = false |- _ => apply Z.ltb_ge in H
            | H : (_ =? _) = false |- _ => apply Z.eqb_neq in H
            end);
    intros Hin; try (destruct Hin as [<-|Hin]; [lia|]); try tauto;
    apply IH in Hin; unfold u32 in *;
    try (rewrite Z.mod_small in Hin by lia; lia);
    apply Z.mod_pos_bound; lia.
Qed.

Lemma applied_records_increasing (fuel : nat) : forall off,
  0 <= off -> StronglySorted Z.lt (applied_records fuel jb nb off).
Proof.
  induction fuel as [|fuel IH]; intros off Hoff; cbn [applied_records]; [constructor|].
  unfold SIZEOF_DATA_RECORD, SIZEOF_REC_HEADER, RH_SIZE, RH_TYPE, JOURNAL_SIZE,
    JOURNAL_BLOCKS, BLOCK_SIZE.
  pose proof (load16_range jb (off + 2)) as Hsz.
  assert (Hu : forall z, 0 <= u32 z) by (intros z; apply Z.mod_pos_bound; reflexivity).
  repeat (match goal with
          | |- context [if ?c then _ else _] =>
              lazymatch c with
              | context [if _ then _ else _] => fail
              | _ => destruct c eqn:?
              end
          end); try (constructor; fail); try (apply IH; apply Hu).
  - repeat constructor.
  - repeat (match goal with
            | H : (_ <? _) = false |- _ => apply Z.ltb_ge in H
            | H : (_ =? _) = false |- _ => apply Z.eqb_neq in H
            end).
    constructor; [apply IH; apply Hu|].
    apply Forall_forall. intros o Hin.
    apply applied_records_lower in Hin; [|apply Hu].
    unfold u32 in Hin. rewrite Z.mod_small in Hin by lia. lia.
Qed.

End ReplayOrder.

(** *** The last write to a block *)

Section LastWrite.

Variable jb : buf.

Lemma apply_record_same d o :
  apply_record jb d o (load32 jb (o + DR_BLOCK_NO)) = slice jb (o + DR_DATA).
Proof. unfold apply_record, after, write_block. cbn [snd]. now rewrite Z.eqb_refl. Qed.

Lemma apply_record_other d o b :
  load32 jb (o + DR_BLOCK_NO) <> b -> apply_record jb d o b = d b.
Proof.
  intros H. unfold apply_record, after, write_block. cbn [snd].
  destruct (Z.eqb_spec b (load32 jb (o + DR_BLOCK_NO))); [congruence|reflexivity].
Qed.

Lemma fold_apply_record_untouched b (l : list Z) : forall d,
  (forall o, In o l -> load32 jb (o + DR_BLOCK_NO) <> b) ->
  fold_left (apply_record jb) l d b = d b.
Proof.
  induction l as [|o l IH]; intros d Hl; cbn [fold_left]; [reflexivity|].
  rewrite IH by (intros o' Ho'; apply Hl; now right).
  apply apply_record_other. apply Hl. now left.
Qed.

Lemma fold_apply_record_last l1 o l2 d :
  (forall o', In o' l2 -> load32 jb (o' + DR_BLOCK_NO) <> load32 jb (o + DR_BLOCK_NO)) ->
  fold_left (apply_record jb) (l1 ++ o :: l2) d (load32 jb (o + DR_BLOCK_NO))
    = slice jb (o + DR_DATA).
Proof.
  intros Hl2. rewrite fold_left_app. cbn [fold_left].
  rewrite fold_apply_record_untouched by exact Hl2.
  apply apply_record_same.
Qed.

End LastWrite.

(** C10 (as amended): install writes the data records in increasing order
    of journal offset, one block each; so when several data records of the
    scan target the same block, and that block lies outside the journal
    region, the block ends up holding the payload of the last of them,
    wherever the commit records are.  (A block of the journal region is
    overwritten by the reset that follows the replay.) *)
Theorem install_last_writer_wins d n d' l1 o l2 :
  cmd_install d = (Ok n, d') ->
  applied_records scan_fuel (journal_of d) (load32 (journal_of d) JH_NBYTES_USED)
    SIZEOF_JOURNAL_HEADER = l1 ++ o :: l2 ->
  (forall o', In o' l2 ->
     load32 (journal_of d) (o' + DR_BLOCK_NO) <> load32 (journal_of d) (o + DR_BLOCK_NO)) ->
  ~ in_journal_region (load32 (journal_of d) (o + DR_BLOCK_NO)) ->
  StronglySorted Z.lt (l1 ++ o :: l2) /\
  d' (load32 (journal_of d) (o + DR_BLOCK_NO)) = slice (journal_of d) (o + DR_DATA).
Proof.
  intros Hrun Hscan Hlast Hout. split.
  - rewrite <- Hscan. apply applied_records_increasing. unfold SIZEOF_JOURNAL_HEADER. lia.
  - apply cmd_install_ok in Hrun. cbv zeta in Hrun. destruct Hrun as (_ & _ & ->).
    rewrite journal_written_outside by exact Hout.
    rewrite Hscan. apply fold_apply_record_last. exact Hlast.
Qed.

Lemma install_last_writer_wins_witness :
  cmd_install image_two_staged = (Ok 2, after cmd_install image_two_staged) /\
  applied_records scan_fuel (journal_of image_two_staged)
    (load32 (journal_of image_two_staged) JH_NBYTES_USED) SIZEOF_JOURNAL_HEADER
    = [8; 4112; 8216] ++ 12324 :: [16428; 20532] /\
  load32 (journal_of image_two_staged) (8 + DR_BLOCK_NO)
    = load32 (journal_of image_two_staged) (12324 + DR_BLOCK_NO) /\
  StronglySorted Z.lt ([8; 4112; 8216] ++ 12324 :: [16428; 20532]) /\
  after cmd_install image_two_staged
    (load32 (journal_of image_two_staged) (12324 + DR_BLOCK_NO))
    = slice (journal_of image_two_staged) (12324 + DR_DATA).
Proof.
  assert (H1 : cmd_install image_two_staged = (Ok 2, after cmd_install image_two_staged)).
  { unfold after. rewrite (surjective_pairing (cmd_install image_two_staged)) at 1.
    f_equal; vm_compute; reflexivity. }
  assert (H2 : applied_records scan_fuel (journal_of image_two_staged)
                 (load32 (journal_of image_two_staged) JH_NBYTES_USED) SIZEOF_JOURNAL_HEADER
               = [8; 4112; 8216] ++ 12324 :: [16428; 20532])
    by (vm_compute; reflexivity).
  assert (H3 : forall o', In o' [16428; 20532] ->
            load32 (journal_of image_two_staged) (o' + DR_BLOCK_NO)
            <> load32 (journal_of image_two_staged) (12324 + DR_BLOCK_NO))
    by (intros o' [<-|[<-|[]]]; vm_compute; discriminate).
  assert (H4 : ~ in_journal_region
                 (load32 (journal_of image_two_staged) (12324 + DR_BLOCK_NO)))
    by (vm_compute; intros [_ H]; discriminate H).
  split; [exact H1|]. split; [exact H2|].
  split; [vm_compute; reflexivity|].
  exact (install_last_writer_wins image_two_staged 2 _ _ _ _ H1 H2 H3 H4).
Defined.

(** Two data records target block 5, inside the journal region; after
    the install that block holds the reset journal, not the payload of
    the last of them. *)
Lemma install_last_writer_lost_in_journal_region :
  fst (cmd_install image_root_in_journal_staged) = Ok 2 /\
  applied_records scan_fuel (journal_of image_root_in_journal_staged)
    (load32 (journal_of image_root_in_journal_staged) JH_NBYTES_USED) SIZEOF_JOURNAL_HEADER
    = [8; 4112; 8216; 12324; 16428] ++ 20532 :: [] /\
  load32 (journal_of image_root_in_journal_staged) (8216 + DR_BLOCK_NO) = 5 /\
  load32 (journal_of image_root_in_journal_staged) (20532 + DR_BLOCK_NO) = 5 /\
  after cmd_install image_root_in_journal_staged 5 DE_INODE
    <> slice (journal_of image_root_in_journal_staged) (20532 + DR_DATA) DE_INODE.
Proof.
  repeat split; try (vm_compute; reflexivity). vm_compute. discriminate.
Qed.

(** *** The fuel of the scans is enough *)

Section ScanFuel.

Variables (jb : buf) (nb : Z).

Lemma count_commits_fuel : forall (fuel : nat) off n,
  0 <= off -> Z.max 0 (JOURNAL_SIZE - off) < Z.of_nat fuel ->
  count_commits fuel jb nb off n <> OutOfFuel.
Proof.
  induction fuel as [|fuel IH]; intros off n Hoff Hfuel; cbn [count_commits].
  - cbn [Z.of_nat] in Hfuel. lia.
  - pose proof (load16_range jb (off + RH_SIZE)) as Hsz.
    unfold JOURNAL_SIZE, JOURNAL_BLOCKS, BLOCK_SIZE, RH_TYPE, RH_SIZE, SIZEOF_REC_HEADER in *.
    repeat (match goal with
            | |- context [if ?c then _ else _] =>
                lazymatch c with
                | context [if _ then _ else _] => fail
                | _ => destruct c eqn:?
                end
            end); try discriminate;
      repeat (match goal with
              | H : (_ <? _) = false |- _ => apply Z.ltb_ge in H
              | H : (_ =? _) = false |- _ => apply Z.eqb_neq in H
              end);
      (apply IH; unfold u32; rewrite Z.mod_small by lia; lia).
Qed.

Lemma replay_records_fuel : forall (fuel : nat) off d,
  0 <= off -> Z.max 0 (JOURNAL_SIZE - off) < Z.of_nat fuel ->
  fst (replay_records fuel jb nb off d) <> OutOfFuel.
Proof.
  induction fuel as [|fuel IH]; intros off d Hoff Hfuel; cbn [replay_records].
  - cbn [Z.of_nat] in Hfuel. lia.
  - pose proof (load16_range jb (off + RH_SIZE)) as Hsz.
    unfold JOURNAL_SIZE, JOURNAL_BLOCKS, BLOCK_SIZE, RH_TYPE, RH_SIZE, SIZEOF_REC_HEADER,
      SIZEOF_DATA_RECORD in *.
    repeat (match goal with
            | |- context [if ?c then _ else _] =>
                lazymatch c with
                | context [if _ then _ else _] => fail
                | _ => destruct c eqn:?
                end
            end); try (cbn; discriminate);
      repeat (match goal with
              | H : (_ <? _) = false |- _ => apply Z.ltb_ge in H
              | H : (_ =? _) = false |- _ => apply Z.eqb_neq in H
              end);
      try (unfold bind, write_block; cbv beta iota);
      (apply IH; unfold u32; rewrite Z.mod_small by lia; lia).
Qed.

End ScanFuel.

(** [cmd_install] never runs out of fuel: the model is total. *)
Lemma cmd_install_fuel d : fst (cmd_install d) <> OutOfFuel.
Proof.
  assert (Hfuel : Z.max 0 (JOURNAL_SIZE - SIZEOF_JOURNAL_HEADER) < Z.of_nat scan_fuel)
    by (unfold scan_fuel, SIZEOF_JOURNAL_HEADER, JOURNAL_SIZE, JOURNAL_BLOCKS, BLOCK_SIZE; lia).
  assert (H8 : 0 <= SIZEOF_JOURNAL_HEADER) by (unfold SIZEOF_JOURNAL_HEADER; lia).
  rewrite cmd_install_run. cbv zeta.
  destruct (negb (journal_is_initialized (journal_of d))); [cbn [fst]; discriminate|].
  set (jb := journal_of d). set (nb := load32 jb JH_NBYTES_USED).
  pose proof (count_commits_fuel jb nb scan_fuel SIZEOF_JOURNAL_HEADER 0 H8 Hfuel) as Hc.
  pose proof (replay_records_fuel jb nb scan_fuel SIZEOF_JOURNAL_HEADER d H8 Hfuel) as Hr.
  set (c := count_commits scan_fuel jb nb SIZEOF_JOURNAL_HEADER 0) in *.
  set (r := replay_records scan_fuel jb nb SIZEOF_JOURNAL_HEADER d) in *.
  clearbody c r.
  destruct c as [n| | | |]; cbn [fst]; [|discriminate|discriminate|discriminate|congruence].
  destruct r as [[[]| | | |] d1]; cbn [fst] in *; [discriminate|discriminate|discriminate|discriminate|congruence].
Qed.


(** ** The journal as a list of records *)

(** *** Loads past a write *)

Lemma load8_store_bytes_other m a l a' :
  a' < a \/ a + Z.of_nat (length l) <= a' ->
  load8 (store_bytes m a l) a' = load8 m a'.
Proof. intros H. apply load8_ext. apply store_bytes_out. lia. Qed.

Lemma load16_store_bytes_other m a l a' :
  a' + 2 <= a \/ a + Z.of_nat (length l) <= a' ->
  load16 (store_bytes m a l) a' = load16 m a'.
Proof. intros H. apply load16_ext. intros i Hi. apply store_bytes_out. lia. Qed.

Lemma load32_store_bytes_other m a l a' :
  a' + 4 <= a \/ a + Z.of_nat (length l) <= a' ->
  load32 (store_bytes m a l) a' = load32 m a'.
Proof. intros H. apply load32_ext. intros i Hi. apply store_bytes_out. lia. Qed.

Lemma load8_memcpy_other dst doff src soff n a' :
  a' < doff \/ doff + n <= a' ->
  load8 (memcpy dst doff src soff n) a' = load8 dst a'.
Proof. intros H. apply load8_ext. apply memcpy_out. lia. Qed.

Lemma load16_memcpy_other dst doff src soff n a' :
  a' + 2 <= doff \/ doff + n <= a' ->
  load16 (memcpy dst doff src soff n) a' = load16 dst a'.
Proof. intros H. apply load16_ext. intros i Hi. apply memcpy_out. lia. Qed.

Lemma load32_memcpy_other dst doff src soff n a' :
  a' + 4 <= doff \/ doff + n <= a' ->
  load32 (memcpy dst doff src soff n) a' = load32 dst a'.
Proof. intros H. apply load32_ext. intros i Hi. apply memcpy_out. lia. Qed.

Lemma load8_memset_other dst off c n a' :
  a' < off \/ off + n <= a' ->
  load8 (memset dst off c n) a' = load8 dst a'.
Proof. intros H. apply load8_ext. apply memset_out. lia. Qed.

Lemma load16_memset_other dst off c n a' :
  a' + 2 <= off \/ off + n <= a' ->
  load16 (memset dst off c n) a' = load16 dst a'.
Proof. intros H. apply load16_ext. intros i Hi. apply memset_out. lia. Qed.

Lemma load32_memset_other dst off c n a' :
  a' + 4 <= off \/ off + n <= a' ->
  load32 (memset dst off c n) a' = load32 dst a'.
Proof. intros H. apply load32_ext. intros i Hi. apply memset_out. lia. Qed.

Lemma load8_memcpy_in dst doff src soff n a' :
  doff <= a' < doff + n ->
  load8 (memcpy dst doff src soff n) a' = load8 src (soff + (a' - doff)).
Proof. intros H. unfold load8. now rewrite memcpy_in by lia. Qed.

Lemma load16_memcpy_in dst doff src soff n a' :
  doff <= a' /\ a' + 2 <= doff + n ->
  load16 (memcpy dst doff src soff n) a' = load16 src (soff + (a' - doff)).
Proof.
  intros H. unfold load16. rewrite !memcpy_in by lia.
  replace (soff + (a' + 1 - doff)) with (soff + (a' - doff) + 1) by lia.
  reflexivity.
Qed.

Lemma load32_memcpy_in dst doff src soff n a' :
  doff <= a' /\ a' + 4 <= doff + n ->
  load32 (memcpy dst doff src soff n) a' = load32 src (soff + (a' - doff)).
Proof.
  intros H. unfold load32. rewrite !memcpy_in by lia.
  replace (soff + (a' + 1 - doff)) with (soff + (a' - doff) + 1) by lia.
  replace (soff + (a' + 2 - doff)) with (soff + (a' - doff) + 2) by lia.
  replace (soff + (a' + 3 - doff)) with (soff + (a' - doff) + 3) by lia.
  reflexivity.
Qed.

Lemma load8_store8_other m a v a' :
  a' < a \/ a + 1 <= a' ->
  load8 (store8 m a v) a' = load8 m a'.
Proof.
  intros H. unfold store8. apply load8_store_bytes_other. rewrite length_le_split. lia.
Qed.

Lemma load8_store16_other m a v a' :
  a' < a \/ a + 2 <= a' ->
  load8 (store16 m a v) a' = load8 m a'.
Proof.
  intros H. unfold store16. apply load8_store_bytes_other. rewrite length_le_split. lia.
Qed.

Lemma load8_store32_other m a v a' :
  a' < a \/ a + 4 <= a' ->
  load8 (store32 m a v) a' = load8 m a'.
Proof.
  intros H. unfold store32. apply load8_store_bytes_other. rewrite length_le_split. lia.
Qed.

Lemma load16_store8_other m a v a' :
  a' + 2 <= a \/ a + 1 <= a' ->
  load16 (store8 m a v) a' = load16 m a'.
Proof.
  intros H. unfold store8. apply load16_store_bytes_other. rewrite length_le_split. lia.
Qed.

Lemma load16_store16_other m a v a' :
  a' + 2 <= a \/ a + 2 <= a' ->
  load16 (store16 m a v) a' = load16 m a'.
Proof.
  intros H. unfold store16. apply load16_store_bytes_other. rewrite length_le_split. lia.
Qed.

Lemma load16_store32_other m a v a' :
  a' + 2 <= a \/ a + 4 <= a' ->
  load16 (store32 m a v) a' = load16 m a'.
Proof.
  intros H. unfold store32. apply load16_store_bytes_other. rewrite length_le_split. lia.
Qed.

Lemma load32_store8_other m a v a' :
  a' + 4 <= a \/ a + 1 <= a' ->
  load32 (store8 m a v) a' = load32 m a'.
Proof.
  intros H. unfold store8. apply load32_store_bytes_other. rewrite length_le_split. lia.
Qed.

Lemma load32_store16_other m a v a' :
  a' + 4 <= a \/ a + 2 <= a' ->
  load32 (store16 m a v) a' = load32 m a'.
Proof.
  intros H. unfold store16. apply load32_store_bytes_other. rewrite length_le_split. lia.
Qed.

Lemma load32_store32_other m a v a' :
  a' + 4 <= a \/ a + 4 <= a' ->
  load32 (store32 m a v) a' = load32 m a'.
Proof.
  intros H. unfold store32. apply load32_store_bytes_other. rewrite length_le_split. lia.
Qed.

(** Peel the writes that do not overlap a load, down to the one that
    made it. *)
Ltac peel :=
  repeat first
    [ rewrite load8_store8_other by lia
    | rewrite load8_store16_other by lia
    | rewrite load8_store32_other by lia
    | rewrite load16_store8_other by lia
    | rewrite load16_store16_other by lia
    | rewrite load16_store32_other by lia
    | rewrite load32_store8_other by lia
    | rewrite load32_store16_other by lia
    | rewrite load32_store32_other by lia
    | rewrite load8_memcpy_other by lia
    | rewrite load16_memcpy_other by lia
    | rewrite load32_memcpy_other by lia
    | rewrite load8_memset_other by lia
    | rewrite load16_memset_other by lia
    | rewrite load32_memset_other by lia ].

(** *** What the appends write *)

Lemma append_data_record_spec jb off blk data :
  0 <= off -> off + SIZEOF_DATA_RECORD <= JOURNAL_SIZE -> 0 <= blk < 2 ^ 32 ->
  exists jb',
    append_data_record jb off blk data = Ok (jb', off + SIZEOF_DATA_RECORD) /\
    record_at jb' off (DataRec blk data) /\
    (forall a, a < off \/ off + SIZEOF_DATA_RECORD <= a -> jb' a = jb a).
Proof.
  intros Hoff Hfit Hblk. unfold append_data_record.
  destruct (Z.ltb_spec JOURNAL_SIZE (off + SIZEOF_DATA_RECORD)); [lia|].
  unfold SIZEOF_DATA_RECORD, SIZEOF_REC_HEADER, RH_TYPE, RH_SIZE, DR_BLOCK_NO, DR_DATA,
    JOURNAL_SIZE, JOURNAL_BLOCKS, BLOCK_SIZE, REC_DATA in *.
  cbv zeta.
  assert (Hsize : load16
            (memcpy (store32 (store16 (store16 jb (off + 0) 1) (off + 2) (4 + 4 + 4096))
                       (off + 4) blk) (off + 8) data 0 4096) (off + 2) = 4104).
  { peel. rewrite load16_store16_same. reflexivity. }
  eexists. split; [|split].
  - rewrite Hsize. rewrite u32_small by lia. reflexivity.
  - cbn [record_at]. unfold RH_TYPE, RH_SIZE, DR_BLOCK_NO, DR_DATA, REC_DATA,
      SIZEOF_DATA_RECORD, SIZEOF_REC_HEADER, BLOCK_SIZE.
    repeat split.
    + peel. rewrite load16_store16_same. reflexivity.
    + exact Hsize.
    + peel. rewrite load32_store32_same. apply Z.mod_small. exact Hblk.
    + intros i Hi. unfold slice, BLOCK_SIZE in *. rewrite memcpy_in by lia.
      f_equal. lia.
  - intros a Ha. rewrite memcpy_out, store32_out, !store16_out by lia. reflexivity.
Qed.

Lemma append_commit_record_spec jb off :
  0 <= off -> off + SIZEOF_COMMIT_RECORD <= JOURNAL_SIZE ->
  exists jb',
    append_commit_record jb off = Ok (jb', off + SIZEOF_COMMIT_RECORD) /\
    record_at jb' off CommitRec /\
    (forall a, a < off \/ off + SIZEOF_COMMIT_RECORD <= a -> jb' a = jb a).
Proof.
  intros Hoff Hfit. unfold append_commit_record.
  destruct (Z.ltb_spec JOURNAL_SIZE (off + SIZEOF_COMMIT_RECORD)); [lia|].
  unfold SIZEOF_COMMIT_RECORD, SIZEOF_REC_HEADER, RH_TYPE, RH_SIZE,
    JOURNAL_SIZE, JOURNAL_BLOCKS, BLOCK_SIZE, REC_COMMIT in *.
  cbv zeta.
  assert (Hsize : load16 (store16 (store16 jb (off + 0) 2) (off + 2) 4) (off + 2) = 4).
  { rewrite load16_store16_same. reflexivity. }
  eexists. split; [|split].
  - rewrite Hsize. rewrite u32_small by lia. reflexivity.
  - cbn [record_at]. unfold RH_TYPE, RH_SIZE, REC_COMMIT, SIZEOF_COMMIT_RECORD,
      SIZEOF_REC_HEADER.
    split; [|exact Hsize].
    peel. rewrite load16_store16_same. reflexivity.
  - intros a Ha. rewrite !store16_out by lia. reflexivity.
Qed.

(** *** Framing only depends on the bytes of the records *)

Lemma record_size_pos r : 0 < record_size r.
Proof. destruct r; cbn; unfold SIZEOF_DATA_RECORD, SIZEOF_COMMIT_RECORD,
  SIZEOF_REC_HEADER, BLOCK_SIZE; lia. Qed.

Lemma records_size_nonneg recs : 0 <= records_size recs.
Proof.
  induction recs as [|r recs IH]; cbn [records_size fold_right]; [lia|].
  pose proof (record_size_pos r). fold (records_size recs). lia.
Qed.

Lemma records_size_app r1 r2 : records_size (r1 ++ r2) = records_size r1 + records_size r2.
Proof.
  induction r1 as [|r r1 IH]; cbn [records_size fold_right app]; [reflexivity|].
  fold (records_size (r1 ++ r2)) (records_size r1). lia.
Qed.

Lemma commits_in_app r1 r2 : commits_in (r1 ++ r2) = commits_in r1 + commits_in r2.
Proof.
  induction r1 as [|r r1 IH]; cbn [commits_in fold_right app]; [reflexivity|].
  fold (commits_in (r1 ++ r2)) (commits_in r1). destruct r; lia.
Qed.

Lemma record_at_ext jb jb' off r :
  (forall a, off <= a < off + record_size r -> jb' a = jb a) ->
  record_at jb off r -> record_at jb' off r.
Proof.
  intros Hext. destruct r as [blk data|]; cbn [record_at record_size] in *;
    unfold SIZEOF_DATA_RECORD, SIZEOF_COMMIT_RECORD, SIZEOF_REC_HEADER, RH_TYPE, RH_SIZE,
      DR_BLOCK_NO, DR_DATA, BLOCK_SIZE in *.
  - intros (Ht & Hs & Hb & Hd). repeat split.
    + rewrite <- Ht. apply load16_ext. intros i Hi. apply Hext. lia.
    + rewrite <- Hs. apply load16_ext. intros i Hi. apply Hext. lia.
    + rewrite <- Hb. apply load32_ext. intros i Hi. apply Hext. lia.
    + intros i Hi. rewrite <- (Hd i Hi). unfold slice, BLOCK_SIZE in *. apply Hext. lia.
  - intros (Ht & Hs). split.
    + rewrite <- Ht. apply load16_ext. intros i Hi. apply Hext. lia.
    + rewrite <- Hs. apply load16_ext. intros i Hi. apply Hext. lia.
Qed.

Lemma records_at_ext jb jb' recs : forall off,
  (forall a, off <= a < off + records_size recs -> jb' a = jb a) ->
  records_at jb off recs -> records_at jb' off recs.
Proof.
  induction recs as [|r recs IH]; intros off Hext; cbn [records_at]; [trivial|].
  cbn [records_size fold_right] in Hext. fold (records_size recs) in Hext.
  pose proof (record_size_pos r). pose proof (records_size_nonneg recs).
  intros [Hr Hrs]. split.
  - apply (record_at_ext jb); [|exact Hr]. intros a Ha. apply Hext. lia.
  - apply IH; [|exact Hrs]. intros a Ha. apply Hext. lia.
Qed.

Lemma records_at_app jb r1 : forall off r2,
  records_at jb off (r1 ++ r2) <->
  records_at jb off r1 /\ records_at jb (off + records_size r1) r2.
Proof.
  induction r1 as [|r r1 IH]; intros off r2; cbn [records_at app records_size fold_right].
  - rewrite Z.add_0_r. tauto.
  - fold (records_size r1). rewrite IH. rewrite Z.add_assoc. tauto.
Qed.

Lemma journal_holds_ext jb jb' recs :
  (forall a, 0 <= a < JOURNAL_SIZE -> jb' a = jb a) ->
  journal_holds jb recs -> journal_holds jb' recs.
Proof.
  unfold journal_holds. intros Hext (Hm & Hu & Hfit & Hr).
  pose proof (records_size_nonneg recs).
  unfold JH_MAGIC, JH_NBYTES_USED, SIZEOF_JOURNAL_HEADER, JOURNAL_SIZE, JOURNAL_BLOCKS,
    BLOCK_SIZE in *.
  split; [|split; [|split]].
  - rewrite <- Hm. apply load32_ext. intros i Hi. apply Hext. lia.
  - rewrite <- Hu. apply load32_ext. intros i Hi. apply Hext. lia.
  - exact Hfit.
  - apply (records_at_ext jb); [|exact Hr]. intros a Ha. apply Hext. lia.
Qed.

(** *** The two scans on a framed journal *)

Section FramedScans.

Variables (jb : buf) (nb : Z).

Lemma count_commits_holds recs : forall (fuel : nat) off n,
  0 <= off -> records_at jb off recs -> nb = off + records_size recs ->
  nb <= JOURNAL_SIZE -> (length recs < fuel)%nat ->
  count_commits fuel jb nb off n = Ok (n + commits_in recs).
Proof.
  induction recs as [|r recs IH]; intros fuel off n Hoff Hrecs Hnb Hfit Hfuel;
    (destruct fuel as [|fuel]; [cbn [length] in Hfuel; lia|]);
    cbn [count_commits records_at records_size fold_right commits_in length] in *.
  - rewrite Z.add_0_r in Hnb. subst nb. rewrite Z.ltb_irrefl. f_equal. lia.
  - fold (records_size recs) in Hnb. fold (commits_in recs).
    pose proof (records_size_nonneg recs) as Hnn.
    pose proof (record_size_pos r) as Hpos.
    destruct Hrecs as [Hr Hrs].
    assert (H4 : SIZEOF_REC_HEADER <= record_size r)
      by (destruct r; cbn; unfold SIZEOF_DATA_RECORD, SIZEOF_COMMIT_RECORD,
            SIZEOF_REC_HEADER, BLOCK_SIZE; lia).
    destruct (Z.ltb_spec off nb); [|lia].
    destruct (Z.ltb_spec nb (off + SIZEOF_REC_HEADER)); [lia|].
    unfold SIZEOF_REC_HEADER, RH_TYPE, RH_SIZE in *.
    destruct (Z.ltb_spec JOURNAL_SIZE (off + 0 + 2)); [lia|].
    destruct (Z.ltb_spec JOURNAL_SIZE (off + 2 + 2)); [lia|].
    destruct r as [blk data|]; cbn [record_at record_size] in *.
    + destruct Hr as (Ht & Hs & _). unfold RH_TYPE, RH_SIZE in *. rewrite Ht, Hs.
      change (REC_DATA =? REC_DATA) with true. cbv iota.
      change (SIZEOF_DATA_RECORD =? 0) with false. cbv iota.
      rewrite u32_small
        by (unfold SIZEOF_DATA_RECORD, SIZEOF_REC_HEADER, JOURNAL_SIZE, JOURNAL_BLOCKS,
              BLOCK_SIZE in *; lia).
      apply IH; try assumption; lia.
    + destruct Hr as (Ht & Hs). unfold RH_TYPE, RH_SIZE in *. rewrite Ht, Hs.
      change (REC_COMMIT =? REC_DATA) with false. cbv iota.
      change (REC_COMMIT =? REC_COMMIT) with true. cbv iota.
      change (SIZEOF_COMMIT_RECORD =? 0) with false. cbv iota.
      rewrite u32_small
        by (unfold SIZEOF_COMMIT_RECORD, SIZEOF_REC_HEADER, JOURNAL_SIZE, JOURNAL_BLOCKS,
              BLOCK_SIZE in *; lia).
      rewrite IH with (off := off + SIZEOF_COMMIT_RECORD); try assumption; try lia.
      f_equal. lia.
Qed.

Lemma write_block_eq d d0 blk p p0 :
  disk_eq d d0 -> block_eq p p0 ->
  disk_eq (after (write_block blk p) d) (after (write_block blk p0) d0).
Proof.
  intros Hd Hp b. unfold after, write_block. cbn [snd].
  destruct (b =? blk); [exact Hp | apply Hd].
Qed.

Lemma replay_records_holds recs : forall (fuel : nat) off d d0,
  0 <= off -> records_at jb off recs -> nb = off + records_size recs ->
  nb <= JOURNAL_SIZE -> (length recs < fuel)%nat ->
  disk_eq d d0 ->
  fst (replay_records fuel jb nb off d) = Ok tt /\
  disk_eq (snd (replay_records fuel jb nb off d)) (fold_left install_record recs d0).
Proof.
  induction recs as [|r recs IH]; intros fuel off d d0 Hoff Hrecs Hnb Hfit Hfuel Hd;
    (destruct fuel as [|fuel]; [cbn [length] in Hfuel; lia|]);
    cbn [replay_records records_at records_size fold_right fold_left length] in *.
  - rewrite Z.add_0_r in Hnb. subst nb. rewrite Z.ltb_irrefl. split; [reflexivity|exact Hd].
  - fold (records_size recs) in Hnb.
    pose proof (records_size_nonneg recs) as Hnn.
    pose proof (record_size_pos r) as Hpos.
    destruct Hrecs as [Hr Hrs].
    assert (H4 : SIZEOF_REC_HEADER <= record_size r)
      by (destruct r; cbn; unfold SIZEOF_DATA_RECORD, SIZEOF_COMMIT_RECORD,
            SIZEOF_REC_HEADER, BLOCK_SIZE; lia).
    destruct (Z.ltb_spec off nb); [|lia].
    destruct (Z.ltb_spec nb (off + SIZEOF_REC_HEADER)); [lia|].
    unfold SIZEOF_REC_HEADER, RH_TYPE, RH_SIZE in *.
    destruct (Z.ltb_spec JOURNAL_SIZE (off + 0 + 2)); [lia|].
    destruct r as [blk data|]; cbn [record_at record_size install_record] in *.
    + destruct Hr as (Ht & Hs & Hb & Hdata). unfold RH_TYPE, RH_SIZE in *. rewrite Ht, Hs.
      change (REC_DATA =? REC_DATA) with true. cbv iota.
      destruct (Z.ltb_spec JOURNAL_SIZE (off + SIZEOF_DATA_RECORD)); [lia|].
      change (SIZEOF_DATA_RECORD =? 0) with false. cbv iota.
      rewrite u32_small
        by (unfold SIZEOF_DATA_RECORD, SIZEOF_REC_HEADER, JOURNAL_SIZE, JOURNAL_BLOCKS,
              BLOCK_SIZE in *; lia).
      unfold bind at 1 2. unfold write_block at 1 2. rewrite Hb.
      apply IH; try assumption; try lia.
      apply (write_block_eq d d0 blk _ data Hd Hdata).
    + destruct Hr as (Ht & Hs). unfold RH_TYPE, RH_SIZE in *. rewrite Ht, Hs.
      change (REC_COMMIT =? REC_DATA) with false. cbv iota.
      change (REC_COMMIT =? REC_COMMIT) with true. cbv iota.
      destruct (Z.ltb_spec JOURNAL_SIZE (off + 2 + 2)); [lia|].
      change (SIZEOF_COMMIT_RECORD =? 0) with false. cbv iota.
      rewrite u32_small
        by (unfold SIZEOF_COMMIT_RECORD, SIZEOF_REC_HEADER, JOURNAL_SIZE, JOURNAL_BLOCKS,
              BLOCK_SIZE in *; lia).
      apply IH; try assumption; lia.
Qed.

End FramedScans.

Lemma records_length_bound recs : 4 * Z.of_nat (length recs) <= records_size recs.
Proof.
  induction recs as [|r recs IH]; cbn [records_size fold_right length]; [lia|].
  fold (records_size recs).
  assert (4 <= record_size r)
    by (destruct r; cbn; unfold SIZEOF_DATA_RECORD, SIZEOF_COMMIT_RECORD,
          SIZEOF_REC_HEADER, BLOCK_SIZE; lia).
  lia.
Qed.

Lemma journal_holds_fuel jb recs :
  journal_holds jb recs -> (length recs < scan_fuel)%nat.
Proof.
  intros (_ & _ & Hfit & _). pose proof (records_length_bound recs).
  unfold scan_fuel, SIZEOF_JOURNAL_HEADER, JOURNAL_SIZE, JOURNAL_BLOCKS, BLOCK_SIZE in *.
  lia.
Qed.

Lemma init_journal_holds jb : journal_holds (init_journal jb) [].
Proof.
  unfold journal_holds. split; [|split; [|split]].
  - apply init_journal_magic.
  - rewrite init_journal_nbytes_used. cbn. lia.
  - cbn. unfold SIZEOF_JOURNAL_HEADER, JOURNAL_SIZE, JOURNAL_BLOCKS, BLOCK_SIZE. lia.
  - exact I.
Qed.

(** Install on a framed journal: it reports the number of commit records,
    leaves every block outside the journal region as the records written
    in order leave it, and leaves an empty journal. *)
Theorem install_replays_journal d recs :
  journal_holds (journal_of d) recs ->
  exists d',
    cmd_install d = (Ok (commits_in recs), d') /\
    (forall b, ~ in_journal_region b ->
               block_eq (d' b) (fold_left install_record recs d b)) /\
    journal_holds (journal_of d') [].
Proof.
  intros Hh. pose proof (journal_holds_fuel _ _ Hh) as Hfuel.
  destruct Hh as (Hm & Hu & Hfit & Hr).
  rewrite cmd_install_run. cbv zeta.
  unfold journal_is_initialized. rewrite Hm, Z.eqb_refl. cbn [negb].
  assert (H8 : 0 <= SIZEOF_JOURNAL_HEADER) by (unfold SIZEOF_JOURNAL_HEADER; lia).
  rewrite (count_commits_holds _ _ recs scan_fuel _ 0 H8 Hr Hu) by (rewrite ?Hu; assumption).
  destruct (replay_records_holds (journal_of d) _ recs scan_fuel _ d d H8 Hr Hu)
    as [Hok Heq]; try (rewrite ?Hu; assumption).
  { intros b i Hi. reflexivity. }
  destruct (replay_records _ _ _ _ d) as [r d1]. cbn [fst snd] in *. subst r.
  eexists. split; [reflexivity|]. split.
  - intros b Hb. rewrite journal_written_outside by exact Hb. apply Heq.
  - apply (journal_holds_ext (init_journal (journal_of d))).
    + intros a Ha. apply journal_of_written. exact Ha.
    + apply init_journal_holds.
Qed.

(** The journal [cmd_create] starts from is framed when the journal on
    the image is, and is the empty journal when the magic is absent. *)
Lemma journal_in_memory_holds d recs :
  journal_holds (journal_of d) recs -> journal_holds (journal_in_memory d) recs.
Proof.
  intros Hh. unfold journal_in_memory, journal_is_initialized. cbv zeta.
  destruct Hh as (Hm & Hrest). rewrite Hm, Z.eqb_refl. split; assumption.
Qed.

Lemma journal_in_memory_uninitialized d :
  load32 (journal_of d) JH_MAGIC <> JOURNAL_MAGIC ->
  journal_holds (journal_in_memory d) [].
Proof.
  intros Hm. unfold journal_in_memory, journal_is_initialized. cbv zeta.
  destruct (Z.eqb_spec (load32 (journal_of d) JH_MAGIC) JOURNAL_MAGIC); [contradiction|].
  apply init_journal_holds.
Qed.

(** Create on a framed journal with room for one more transaction: the
    journal on the image becomes the old records followed by the new
    transaction, and nothing else changes. *)
Theorem create_stages_transaction filename now d recs free_inode free_entry :
  journal_holds (journal_in_memory d) recs ->
  checks_in_order filename d = Ok (free_inode, free_entry) ->
  SIZEOF_JOURNAL_HEADER + records_size recs + TRANSACTION_SIZE <= JOURNAL_SIZE ->
  exists d',
    cmd_create_lenient filename now d = (Ok tt, d') /\
    journal_holds (journal_of d')
      (recs ++ transaction_of d filename now free_inode free_entry) /\
    (forall b, ~ in_journal_region b -> d' b = d b).
Proof.
  intros (Hm & Hu & Hfit & Hr) Hchecks Hroom.
  pose proof (records_size_nonneg recs) as Hnn.
  rewrite cmd_create_lenient_after_checks, Hchecks.
  fold (staged_offset d) in Hu.
  change (u32 (u32 (3 * (SIZEOF_REC_HEADER + 4 + BLOCK_SIZE)) + SIZEOF_REC_HEADER))
    with TRANSACTION_SIZE.
  unfold TRANSACTION_SIZE, SIZEOF_DATA_RECORD, SIZEOF_COMMIT_RECORD, SIZEOF_REC_HEADER,
    SIZEOF_JOURNAL_HEADER, JOURNAL_SIZE, JOURNAL_BLOCKS, BLOCK_SIZE in Hroom, Hfit, Hu.
  rewrite u32_small
    by (unfold TRANSACTION_SIZE, SIZEOF_DATA_RECORD, SIZEOF_COMMIT_RECORD,
          SIZEOF_REC_HEADER, BLOCK_SIZE; lia).
  destruct (Z.ltb_spec JOURNAL_SIZE (staged_offset d + TRANSACTION_SIZE)) as [Hbad|_].
  { unfold TRANSACTION_SIZE, SIZEOF_DATA_RECORD, SIZEOF_COMMIT_RECORD, SIZEOF_REC_HEADER,
      JOURNAL_SIZE, JOURNAL_BLOCKS, BLOCK_SIZE in Hbad. lia. }
  unfold staged_journal. cbv zeta.
  set (off0 := staged_offset d) in *.
  set (jb0 := journal_in_memory d) in *.
  set (bm := new_inode_bitmap_of d free_inode).
  set (ib := new_inode_block_of d now free_inode).
  set (db := new_root_data_block_of d filename free_inode free_entry).
  set (blk2 := u32 (INODE_START_IDX + free_inode / (BLOCK_SIZE / INODE_SIZE))).
  set (blk3 := load32 (d INODE_START_IDX) (INO_DIRECT + 4 * 0)).
  assert (Hblk1 : 0 <= INODE_BMAP_IDX < 2 ^ 32)
    by (unfold INODE_BMAP_IDX, JOURNAL_BLOCK_IDX, JOURNAL_BLOCKS; lia).
  assert (Hblk2 : 0 <= blk2 < 2 ^ 32) by (apply Z.mod_pos_bound; lia).
  assert (Hblk3 : 0 <= blk3 < 2 ^ 32) by apply load32_range.
  assert (Hsz : SIZEOF_DATA_RECORD = 4104) by reflexivity.
  assert (Hcz : SIZEOF_COMMIT_RECORD = 4) by reflexivity.
  assert (Hjs : JOURNAL_SIZE = 65536) by reflexivity.
  destruct (append_data_record_spec jb0 off0 INODE_BMAP_IDX bm) as (jb1 & E1 & R1 & F1);
    try lia.
  rewrite E1.
  destruct (append_data_record_spec jb1 (off0 + SIZEOF_DATA_RECORD) blk2 ib)
    as (jb2 & E2 & R2 & F2); try lia.
  rewrite E2.
  destruct (append_data_record_spec jb2 (off0 + SIZEOF_DATA_RECORD + SIZEOF_DATA_RECORD)
              blk3 db) as (jb3 & E3 & R3 & F3); try lia.
  rewrite E3.
  destruct (append_commit_record_spec jb3
              (off0 + SIZEOF_DATA_RECORD + SIZEOF_DATA_RECORD + SIZEOF_DATA_RECORD))
    as (jb4 & E4 & R4 & F4); try lia.
  rewrite E4.
  eexists. split; [reflexivity|]. split; [|intros b Hb; apply journal_written_outside, Hb].
  set (jbF := update_journal_header jb4 _).
  apply (journal_holds_ext jbF); [intros a Ha; apply journal_of_written, Ha|].
  assert (Hhdr : forall a, a < 4 \/ 8 <= a -> jbF a = jb4 a).
  { intros a Ha. unfold jbF, update_journal_header, JH_NBYTES_USED.
    apply store32_out. lia. }
  assert (Hold : forall a, a < off0 -> jb4 a = jb0 a).
  { intros a Ha. rewrite F4, F3, F2, F1 by lia. reflexivity. }
  unfold journal_holds. rewrite records_size_app.
  change (records_size (transaction_of d filename now free_inode free_entry))
    with 12316.
  unfold SIZEOF_JOURNAL_HEADER, JH_MAGIC, JH_NBYTES_USED in *.
  split; [|split; [|split]].
  - rewrite <- Hm. apply load32_ext. intros i Hi. rewrite Hhdr, Hold by lia. reflexivity.
  - unfold jbF, update_journal_header, JH_NBYTES_USED. rewrite load32_store32_same.
    rewrite Z.mod_small by lia. lia.
  - lia.
  - apply records_at_app. split.
    + apply (records_at_ext jb0); [|exact Hr]. intros a Ha.
      rewrite Hhdr, Hold by lia. reflexivity.
    + replace (8 + records_size recs) with off0 by lia.
      unfold transaction_of. fold bm ib db blk2 blk3.
      cbn [records_at record_size]. split; [|split; [|split; [|split; [|exact I]]]].
      * apply (record_at_ext jb1); [|exact R1]. intros a Ha. cbn [record_size] in Ha.
        rewrite Hhdr, F4, F3, F2 by lia. reflexivity.
      * apply (record_at_ext jb2); [|exact R2]. intros a Ha. cbn [record_size] in Ha.
        rewrite Hhdr, F4, F3 by lia. reflexivity.
      * apply (record_at_ext jb3); [|exact R3]. intros a Ha. cbn [record_size] in Ha.
        rewrite Hhdr, F4 by lia. reflexivity.
      * apply (record_at_ext jb4); [|exact R4]. intros a Ha. cbn [record_size] in Ha.
        rewrite Hhdr by lia. reflexivity.
Qed.

(** ** Create then install on a fresh image *)

Lemma load8_block_eq b1 b2 a :
  block_eq b1 b2 -> 0 <= a < BLOCK_SIZE -> load8 b1 a = load8 b2 a.
Proof. intros H Ha. apply load8_ext. apply H. exact Ha. Qed.

Lemma load16_block_eq b1 b2 a :
  block_eq b1 b2 -> 0 <= a -> a + 2 <= BLOCK_SIZE -> load16 b1 a = load16 b2 a.
Proof. intros H Ha Hb. apply load16_ext. intros i Hi. apply H. lia. Qed.

Lemma load32_block_eq b1 b2 a :
  block_eq b1 b2 -> 0 <= a -> a + 4 <= BLOCK_SIZE -> load32 b1 a = load32 b2 a.
Proof. intros H Ha Hb. apply load32_ext. intros i Hi. apply H. lia. Qed.

Lemma load32_journal_of d a :
  0 <= a -> a + 4 <= BLOCK_SIZE ->
  load32 (journal_of d) a = load32 (d JOURNAL_BLOCK_IDX) a.
Proof.
  intros Ha Hb. apply load32_ext. intros i Hi.
  rewrite journal_of_spec
    by (unfold JOURNAL_SIZE, JOURNAL_BLOCKS, BLOCK_SIZE in *; lia).
  unfold BLOCK_SIZE in *.
  rewrite Z.div_small, Z.mod_small by lia. rewrite Z.add_0_r. reflexivity.
Qed.

(** *** Strings in a directory entry *)

Lemma strlen_nonneg s : 0 <= strlen s.
Proof.
  induction s as [|c s IH]; cbn [strlen]; [lia|].
  destruct (byte.unsigned c =? 0); lia.
Qed.

Lemma strncpy_out (n : nat) : forall s m a i,
  i < a \/ a + Z.of_nat n <= i -> strncpy m a s n i = m i.
Proof.
  induction n as [|n IH]; intros s m a i Hi; cbn [strncpy]; [reflexivity|].
  destruct s as [|c s]; [|destruct (byte.unsigned c =? 0)];
    rewrite IH by lia; apply store8_out; lia.
Qed.

(** The name copied by [strncpy] and closed by a NUL compares equal to
    the argument. *)
Lemma strncpy_nul_strcmp_eq (n : nat) : forall s m a,
  strlen s <= Z.of_nat n ->
  strcmp_eq (store8 (strncpy m a s n) (a + Z.of_nat n) 0) a s = true.
Proof.
  induction n as [|n IH]; intros s m a Hlen.
  - cbn [strncpy Z.of_nat]. rewrite Z.add_0_r.
    pose proof (strlen_nonneg s) as Hnn.
    destruct s as [|c s]; cbn [strcmp_eq strlen] in *.
    + rewrite load8_store8_same. reflexivity.
    + destruct (Z.eqb_spec (byte.unsigned c) 0) as [Hc|Hc].
      * rewrite load8_store8_same. reflexivity.
      * pose proof (strlen_nonneg s). cbn [Z.of_nat] in Hlen. lia.
  - assert (Hfirst : forall v s', 0 <= v < 2 ^ 8 ->
              load8 (store8 (strncpy (store8 m a v) (a + 1) s' n) (a + Z.of_nat (S n)) 0) a
              = v).
    { intros v s' Hv. rewrite load8_store8_other by lia.
      unfold load8. rewrite strncpy_out by lia. fold (load8 (store8 m a v) a).
      rewrite load8_store8_same. apply Z.mod_small. exact Hv. }
    cbn [strncpy]. destruct s as [|c s]; cbn [strcmp_eq strlen] in *.
    + rewrite Hfirst by lia. reflexivity.
    + destruct (Z.eqb_spec (byte.unsigned c) 0) as [Hc|Hc].
      * rewrite Hfirst by lia. reflexivity.
      * rewrite Hfirst by apply byte.unsigned_range. rewrite Z.eqb_refl. cbn [andb].
        replace (a + Z.of_nat (S n)) with (a + 1 + Z.of_nat n) by lia.
        apply IH. lia.
Qed.

(** *** The blocks of the transaction *)

Lemma new_root_data_block_entry d filename free_inode free_entry :
  strlen filename < NAME_LEN -> 0 <= free_inode < 2 ^ 32 ->
  let db := new_root_data_block_of d filename free_inode free_entry in
  let ent := free_entry * SIZEOF_DIRENT in
  load32 db (ent + DE_INODE) = free_inode /\
  strcmp_eq db (ent + DE_NAME) filename = true /\
  (forall i, 0 <= i < BLOCK_SIZE -> i < ent \/ ent + SIZEOF_DIRENT <= i ->
     db i = d (load32 (d INODE_START_IDX) (INO_DIRECT + 4 * 0)) i).
Proof.
  intros Hlen Hino. cbv zeta. unfold new_root_data_block_of. cbv zeta.
  unfold SIZEOF_DIRENT, NAME_LEN, DE_INODE, DE_NAME, BLOCK_SIZE in *.
  set (ent := free_entry * (4 + 28)).
  set (src := d _).
  split; [|split].
  - rewrite load32_store8_other by lia.
    apply eq_trans with
      (load32 (store32 (memcpy zero_buf 0 src 0 4096) (ent + 0) free_inode) (ent + 0)).
    + apply load32_ext. intros i Hi. apply strncpy_out. lia.
    + rewrite load32_store32_same. apply Z.mod_small. exact Hino.
  - replace (ent + 4 + (28 - 1)) with (ent + 4 + Z.of_nat (Z.to_nat (28 - 1))) by lia.
    apply strncpy_nul_strcmp_eq. lia.
  - intros i Hi Hout.
    rewrite store8_out by lia.
    rewrite strncpy_out by (change (Z.of_nat (Z.to_nat (28 - 1))) with 27; lia).
    rewrite store32_out by lia.
    rewrite memcpy_in by lia. f_equal. lia.
Qed.

Lemma new_inode_bitmap_bit d free_inode :
  0 <= free_inode -> free_inode / 8 < BLOCK_SIZE ->
  bitmap_test (new_inode_bitmap_of d free_inode) free_inode = 1.
Proof.
  intros Hi Hb. unfold new_inode_bitmap_of, bitmap_test, bitmap_set.
  rewrite load8_store8_same.
  set (x := load8 _ _).
  assert (Hx : 0 <= x < 2 ^ 8) by apply load8_range.
  assert (Hm : 0 <= free_inode mod 8 < 8) by (apply Z.mod_pos_bound; lia).
  set (k := free_inode mod 8) in *.
  assert (Hlor : 0 <= Z.lor x (Z.shiftl 1 k) < 2 ^ 8).
  { rewrite Z.shiftl_1_l. split.
    - apply Z.lor_nonneg. split; [lia|]. apply Z.pow_nonneg. lia.
    - assert (Hk : k = 0 \/ k = 1 \/ k = 2 \/ k = 3 \/ k = 4 \/ k = 5 \/ k = 6 \/ k = 7) by lia.
      assert (Hlt : forall y, 0 <= y < 2 ^ 8 -> Z.lor x y < 2 ^ 8).
      { intros y Hy.
        destruct (Z.eq_dec (Z.lor x y) 0) as [->|Hnz]; [lia|].
        apply Z.log2_lt_pow2; [pose proof (Z.lor_nonneg x y); lia|].
        rewrite Z.log2_lor by lia.
        destruct (Z.eq_dec x 0) as [->|Hx0], (Z.eq_dec y 0) as [->|Hy0];
          cbn [Z.log2]; try (apply Z.max_lub_lt); try lia;
          try (apply Z.log2_lt_pow2; lia). }
      apply Hlt.
      destruct Hk as [->|[->|[->|[->|[->|[->|[->| ->]]]]]]]; cbn; lia. }
  rewrite Z.mod_small by exact Hlor.
  change 1 with (Z.ones 1) at 2. rewrite Z.land_ones by lia.
  rewrite <- Z.bit0_mod. rewrite Z.shiftr_spec by lia. rewrite Z.add_0_l.
  rewrite Z.lor_spec. rewrite Z.shiftl_spec by lia. rewrite Z.sub_diag.
  cbn. rewrite orb_true_r. reflexivity.
Qed.

Lemma load32_memset_zero dst off n a :
  off <= a -> a + 4 <= off + n -> load32 (memset dst off Byte.x00 n) a = 0.
Proof.
  intros H1 H2. unfold load32. rewrite !memset_in by lia. reflexivity.
Qed.

(** The slot of the new inode, when it is not the slot of the root inode. *)
Lemma new_inode_block_inode d now free_inode :
  0 < free_inode ->
  let ib := new_inode_block_of d now free_inode in
  let ino := free_inode mod (BLOCK_SIZE / INODE_SIZE) * INODE_SIZE in
  load16 ib (ino + INO_TYPE) = INODE_FILE /\
  load16 ib (ino + INO_LINKS) = 1 /\
  load32 ib (ino + INO_SIZE) = 0 /\
  (forall k, 0 <= k < DIRECT_POINTERS -> load32 ib (ino + INO_DIRECT + 4 * k) = 0) /\
  load32 ib (ino + INO_CTIME) = u32 now /\
  load32 ib (ino + INO_MTIME) = u32 now.
Proof.
  intros Hpos. cbv zeta. unfold new_inode_block_of. cbv zeta.
  change (BLOCK_SIZE / INODE_SIZE) with 32.
  unfold INODE_SIZE, INO_TYPE, INO_LINKS, INO_SIZE, INO_DIRECT, INO_CTIME, INO_MTIME,
    DIRECT_POINTERS, INODE_FILE.
  assert (Hm : 0 <= free_inode mod 32 < 32) by (apply Z.mod_pos_bound; lia).
  assert (Hroot : free_inode / 32 = 0 -> 1 <= free_inode mod 32)
    by (intros H0; Z.to_euclidean_division_equations; lia).
  assert (Hu : u32 now mod 2 ^ 32 = u32 now)
    by (unfold u32; apply Z.mod_mod; lia).
  set (ino := free_inode mod 32 * 128) in *.
  set (blk := if negb (free_inode / 32 =? 0) then _ else _).
  destruct (Z.eqb_spec (free_inode / 32) 0) as [H0|H0].
  - specialize (Hroot H0).
    repeat split; [| | | intros k Hk | |]; peel.
    + rewrite load16_store16_same. reflexivity.
    + rewrite load16_store16_same. reflexivity.
    + rewrite load32_store32_same. reflexivity.
    + apply load32_memset_zero; lia.
    + rewrite load32_store32_same. exact Hu.
    + rewrite load32_store32_same. exact Hu.
  - repeat split; [| | | intros k Hk | |]; peel.
    + rewrite load16_store16_same. reflexivity.
    + rewrite load16_store16_same. reflexivity.
    + rewrite load32_store32_same. reflexivity.
    + apply load32_memset_zero; lia.
    + rewrite load32_store32_same. exact Hu.
    + rewrite load32_store32_same. exact Hu.
Qed.

(** The root inode in the journaled block, when the new inode shares its
    block. *)
Lemma new_inode_block_root d now free_inode :
  0 < free_inode < BLOCK_SIZE / INODE_SIZE ->
  let ib := new_inode_block_of d now free_inode in
  load32 ib INO_SIZE = u32 (load32 (d INODE_START_IDX) INO_SIZE + SIZEOF_DIRENT) /\
  load32 ib INO_MTIME = u32 now.
Proof.
  change (BLOCK_SIZE / INODE_SIZE) with 32.
  intros Hino. cbv zeta. unfold new_inode_block_of. cbv zeta.
  change (BLOCK_SIZE / INODE_SIZE) with 32.
  rewrite (Z.div_small free_inode 32), (Z.mod_small free_inode 32) by lia.
  change (0 =? 0) with true. cbn [negb].
  unfold INODE_SIZE, INO_TYPE, INO_LINKS, INO_SIZE, INO_DIRECT, INO_CTIME, INO_MTIME,
    DIRECT_POINTERS, INODE_FILE, BLOCK_SIZE.
  split.
  - peel. rewrite load32_store32_same. unfold u32. rewrite Z.mod_mod by lia.
    f_equal. f_equal. peel. rewrite load32_memcpy_in by lia. reflexivity.
  - rewrite load32_store32_same. unfold u32. apply Z.mod_mod. lia.
Qed.

Lemma strcmp_eq_ext s : forall m m' a,
  (forall i, a <= i <= a + strlen s -> m i = m' i) ->
  strcmp_eq m a s = strcmp_eq m' a s.
Proof.
  induction s as [|c s IH]; intros m m' a Hext; cbn [strcmp_eq strlen] in *.
  - unfold load8. rewrite Hext by lia. reflexivity.
  - pose proof (strlen_nonneg s).
    destruct (byte.unsigned c =? 0).
    + unfold load8. rewrite Hext by lia. reflexivity.
    + unfold load8. rewrite (Hext a) by lia. f_equal.
      apply IH. intros i Hi. apply Hext. lia.
Qed.

(** *** The fresh image *)

Lemma fresh_image_journal d :
  fresh_image d -> journal_holds (journal_in_memory d) [].
Proof.
  intros (_ & _ & _ & _ & _ & _ & _ & Hj).
  destruct (Z.eq_dec (load32 (d JOURNAL_BLOCK_IDX) JH_MAGIC) JOURNAL_MAGIC) as [Hm|Hm].
  - destruct Hj as [Hj|Hj]; [contradiction|].
    apply journal_in_memory_holds. unfold journal_holds.
    rewrite !load32_journal_of by (unfold JH_MAGIC, JH_NBYTES_USED, BLOCK_SIZE; lia).
    split; [exact Hm|]. split; [rewrite Hj; cbn; lia|]. split; [|exact I].
    cbn. unfold SIZEOF_JOURNAL_HEADER, JOURNAL_SIZE, JOURNAL_BLOCKS, BLOCK_SIZE. lia.
  - apply journal_in_memory_uninitialized.
    rewrite load32_journal_of by (unfold JH_MAGIC, BLOCK_SIZE; lia). exact Hm.
Qed.

Lemma find_free_entry_unused (n : nat) entries filename i :
  load32 entries (i * SIZEOF_DIRENT + DE_INODE) = 0 ->
  load8 entries (i * SIZEOF_DIRENT + DE_NAME) = 0 ->
  find_free_entry (S n) entries filename i = Ok i.
Proof. intros H1 H2. cbn [find_free_entry]. rewrite H1, H2. reflexivity. Qed.

Lemma fresh_image_checks d filename :
  fresh_image d -> strlen filename < NAME_LEN ->
  checks_in_order filename d = Ok (1, 0).
Proof.
  intros (Hmagic & Hcount & Hbit0 & Hbits & _ & Hroot & Hdir & _) Hlen.
  unfold checks_in_order.
  destruct (Z.leb_spec NAME_LEN (strlen filename)); [lia|].
  rewrite Hmagic, Z.eqb_refl. cbn [negb].
  rewrite Hcount, Hroot.
  unfold bitmap_find_free.
  change (Z.to_nat (INODE_BLOCKS * (BLOCK_SIZE / INODE_SIZE))) with (S (S 62)).
  cbn [bitmap_find_free_loop].
  change (BLOCK_SIZE <=? 0 / 8) with false. change (BLOCK_SIZE <=? (0 + 1) / 8) with false.
  cbv iota. unfold bitmap_test.
  change (0 / 8) with 0. change ((0 + 1) / 8) with 0. rewrite Hbit0.
  change (Z.land (Z.shiftr 1 (0 mod 8)) 1 =? 0) with false.
  change (Z.land (Z.shiftr 1 ((0 + 1) mod 8)) 1 =? 0) with true.
  cbv iota. change (1 =? UINT32_MAX) with false. cbv iota.
  change (Z.to_nat (BLOCK_SIZE / SIZEOF_DIRENT)) with (S 127).
  rewrite find_free_entry_unused.
  - reflexivity.
  - unfold load32. rewrite !Hdir
      by (unfold SIZEOF_DIRENT, NAME_LEN, DE_INODE, DE_NAME, BLOCK_SIZE; lia).
    reflexivity.
  - unfold load8. rewrite !Hdir
      by (unfold SIZEOF_DIRENT, NAME_LEN, DE_INODE, DE_NAME, BLOCK_SIZE; lia).
    reflexivity.
Qed.

(** Create then install on a fresh image, for any name that passes the
    length check: inode 1 and slot 0 are chosen, and after the install the
    image holds the bitmap, inode and directory blocks of the transaction. *)
Lemma create_install_on_fresh_image filename now d :
  fresh_image d -> strlen filename < NAME_LEN ->
  exists d1 d2,
    cmd_create_lenient filename now d = (Ok tt, d1) /\
    cmd_install d1 = (Ok 1, d2) /\
    block_eq (d2 INODE_BMAP_IDX) (new_inode_bitmap_of d 1) /\
    block_eq (d2 INODE_START_IDX) (new_inode_block_of d now 1) /\
    block_eq (d2 DATA_START_IDX) (new_root_data_block_of d filename 1 0).
Proof.
  intros Hfresh Hlen.
  pose proof (fresh_image_journal d Hfresh) as Hj.
  pose proof (fresh_image_checks d filename Hfresh Hlen) as Hc.
  destruct Hfresh as (_ & _ & _ & _ & _ & Hroot & _ & _).
  destruct (create_stages_transaction filename now d [] 1 0 Hj Hc) as (d1 & Hcreate & Hh1 & _).
  { apply Z.leb_le. reflexivity. }
  cbn [app] in Hh1.
  destruct (install_replays_journal d1 _ Hh1) as (d2 & Hinst & Hblocks & _).
  exists d1, d2. split; [exact Hcreate|]. split; [exact Hinst|].
  assert (Hout : forall b, b = INODE_BMAP_IDX \/ b = INODE_START_IDX \/ b = DATA_START_IDX ->
            ~ in_journal_region b).
  { intros b Hb. unfold in_journal_region, DATA_START_IDX, INODE_START_IDX, DATA_BMAP_IDX,
      INODE_BMAP_IDX, INODE_BLOCKS, JOURNAL_BLOCK_IDX, JOURNAL_BLOCKS in *. lia. }
  unfold transaction_of in Hblocks. rewrite Hroot in Hblocks.
  change (u32 (INODE_START_IDX + 1 / (BLOCK_SIZE / INODE_SIZE))) with INODE_START_IDX
    in Hblocks.
  cbn [fold_left install_record] in Hblocks. unfold after, write_block in Hblocks.
  cbn [snd] in Hblocks.
  split; [|split].
  - apply (Hblocks INODE_BMAP_IDX). apply Hout. tauto.
  - apply (Hblocks INODE_START_IDX). apply Hout. tauto.
  - apply (Hblocks DATA_START_IDX). apply Hout. tauto.
Qed.

(** With the superblock given the room of a block, a create of "foo.txt"
    on a freshly formatted image followed by an install succeeds with one
    transaction replayed; the root directory then has one more entry,
    "foo.txt" in its first slot with every other slot as before; the
    entry maps the name to inode 1, whose bitmap bit was clear and is now
    set, and whose inode record has type File, one link, size zero and
    all direct pointers zero. *)
Lemma lenient_create_install_round_trip d now :
  fresh_image d ->
  exists d1 d2,
    cmd_create_lenient foo_txt now d = (Ok tt, d1) /\
    cmd_install d1 = (Ok 1, d2) /\
    dir_entry_is (d2 DATA_START_IDX) 0 1 foo_txt /\
    (forall i, SIZEOF_DIRENT <= i < BLOCK_SIZE ->
               d2 DATA_START_IDX i = d DATA_START_IDX i) /\
    bitmap_test (d INODE_BMAP_IDX) 1 = 0 /\
    bitmap_test (d2 INODE_BMAP_IDX) 1 = 1 /\
    empty_file_inode (d2 INODE_START_IDX) (1 * INODE_SIZE).
Proof.
  intros Hfresh.
  assert (Hlen : strlen foo_txt < NAME_LEN) by (vm_compute; reflexivity).
  destruct (create_install_on_fresh_image foo_txt now d Hfresh Hlen)
    as (d1 & d2 & Hcreate & Hinst & Hbm & Hib & Hdb).
  destruct Hfresh as (_ & _ & Hbit0 & _ & _ & Hroot & _ & _).
  exists d1, d2. split; [exact Hcreate|]. split; [exact Hinst|].
  destruct (new_root_data_block_entry d foo_txt 1 0 Hlen) as (He1 & He2 & He3); [lia|].
  split; [|split; [|split; [|split]]].
  - split.
    + rewrite (load32_block_eq _ _ _ Hdb)
        by (unfold SIZEOF_DIRENT, NAME_LEN, DE_INODE, BLOCK_SIZE; lia).
      exact He1.
    + rewrite <- He2. apply strcmp_eq_ext. intros i Hi. apply Hdb.
      change (strlen foo_txt) with 7 in Hi.
      unfold SIZEOF_DIRENT, NAME_LEN, DE_NAME, BLOCK_SIZE in *. lia.
  - intros i Hi. rewrite (Hdb i) by (unfold SIZEOF_DIRENT, NAME_LEN, BLOCK_SIZE in *; lia).
    rewrite He3; [rewrite Hroot; reflexivity| |];
      unfold SIZEOF_DIRENT, NAME_LEN, BLOCK_SIZE in *; lia.
  - unfold bitmap_test. change (1 / 8) with 0. rewrite Hbit0. reflexivity.
  - apply eq_trans with (bitmap_test (new_inode_bitmap_of d 1) 1).
    + unfold bitmap_test. f_equal. f_equal. apply load8_block_eq; [exact Hbm|].
      change (1 / 8) with 0. unfold BLOCK_SIZE. lia.
    + apply new_inode_bitmap_bit; [lia|]. change (1 / 8) with 0. unfold BLOCK_SIZE. lia.
  - destruct (new_inode_block_inode d now 1) as (Ht & Hl & Hs & Hd & _); [lia|].
    change (1 mod (BLOCK_SIZE / INODE_SIZE) * INODE_SIZE) with (1 * INODE_SIZE) in *.
    unfold empty_file_inode, INODE_SIZE, INO_TYPE, INO_LINKS, INO_SIZE, INO_DIRECT,
      DIRECT_POINTERS, BLOCK_SIZE in *.
    split; [|split; [|split]].
    + rewrite (load16_block_eq _ _ _ Hib) by (unfold BLOCK_SIZE; lia). exact Ht.
    + rewrite (load16_block_eq _ _ _ Hib) by (unfold BLOCK_SIZE; lia). exact Hl.
    + rewrite (load32_block_eq _ _ _ Hib) by (unfold BLOCK_SIZE; lia). exact Hs.
    + intros k Hk.
      rewrite (load32_block_eq _ _ _ Hib) by (unfold BLOCK_SIZE; lia). apply Hd. exact Hk.
Qed.

Lemma image0_fresh : fresh_image image0.
Proof.
  unfold fresh_image. repeat split; try (vm_compute; reflexivity).
  - intros i Hi. change (image0 INODE_BMAP_IDX) with (store8 zero_buf 0 1).
    rewrite load8_store8_other by lia. reflexivity.
  - left. vm_compute. discriminate.
Qed.

(** C7: on a freshly formatted image the statements of [cmd_create] and
    [cmd_install] do what the specification says of the round trip (the
    lemma above, for a superblock with the room of a block), but the
    create of the round trip, as written, does not succeed, on the fresh
    image [image0] or on any other: "foo.txt" passes the check of its
    length, and the read of block 0 into the 128-byte superblock that
    follows is outside its object.  The run is undefined from there; it
    is not a successful create. *)
Theorem create_on_fresh_image_overruns d now :
  fresh_image image0 /\
  strlen foo_txt < NAME_LEN /\
  cmd_create foo_txt now image0 = (Undefined, image0) /\
  cmd_create foo_txt now d = (Undefined, d) /\
  fst (cmd_create foo_txt now d) <> Ok tt.
Proof.
  rewrite !cmd_create_run.
  split; [exact image0_fresh|].
  split; [vm_compute; reflexivity|].
  split; [reflexivity|]. split; [reflexivity|]. cbn. discriminate.
Qed.

(** ** Where the code departs from the specification *)

(** C2: the replay only checks that the 4-byte header of the next record
    lies below [nbytes_used].  On [image_truncated] the first record is a
    data record of declared size 4104 at offset 8 while [nbytes_used] is
    12; the install succeeds, and writes the 4096 bytes found at offsets
    16 and above to block 17, which had other contents. *)
Theorem install_applies_truncated_record :
  let jb := journal_of image_truncated in
  load32 jb JH_NBYTES_USED = 12 /\
  load16 jb (SIZEOF_JOURNAL_HEADER + RH_TYPE) = REC_DATA /\
  load16 jb (SIZEOF_JOURNAL_HEADER + RH_SIZE) = SIZEOF_DATA_RECORD /\
  load32 jb (SIZEOF_JOURNAL_HEADER + DR_BLOCK_NO) = INODE_BMAP_IDX /\
  fst (cmd_install image_truncated) = Ok 0 /\
  applied_records scan_fuel jb (load32 jb JH_NBYTES_USED) SIZEOF_JOURNAL_HEADER
    = [SIZEOF_JOURNAL_HEADER] /\
  after cmd_install image_truncated INODE_BMAP_IDX
    = slice jb (SIZEOF_JOURNAL_HEADER + DR_DATA) /\
  load8 (image_truncated INODE_BMAP_IDX) 0 = 1 /\
  load8 (after cmd_install image_truncated INODE_BMAP_IDX) 0 = 3.
Proof.
  cbv zeta. repeat split; vm_compute; reflexivity.
Qed.

(** The payload is not compared with the end of the buffer either: a data
    record whose header lies in the last bytes of the journal is read past
    the 65536 bytes of the buffer. *)
Lemma install_reads_past_buffer :
  load32 (journal_of image_journal_to_the_end) JH_NBYTES_USED = JOURNAL_SIZE /\
  count_commits scan_fuel (journal_of image_journal_to_the_end) JOURNAL_SIZE
    SIZEOF_JOURNAL_HEADER 0 = Ok 1 /\
  fst (cmd_install image_journal_to_the_end) = Undefined.
Proof. repeat split; vm_compute; reflexivity. Qed.

(** C1: [cmd_create] reads the bitmap, the inode table and the root
    directory from their blocks only; the records staged in the journal
    are not consulted.  On the fresh image (the creates run with the
    superblock given the room of a block) a second create before any
    install, with another name or with the same name, succeeds and chooses
    the same inode 1 and the same directory slot 0 as the first; once both
    are installed the directory holds the second name only. *)
Theorem create_twice_same_inode :
  checks_in_order foo_txt image0 = Ok (1, 0) /\
  fst (cmd_create_lenient foo_txt 7 image0) = Ok tt /\
  checks_in_order bar_txt image_one_staged = Ok (1, 0) /\
  fst (cmd_create_lenient bar_txt 8 image_one_staged) = Ok tt /\
  checks_in_order foo_txt image_one_staged = Ok (1, 0) /\
  fst (cmd_create_lenient foo_txt 8 image_one_staged) = Ok tt /\
  (let jb := journal_of image_two_staged in
   load32 jb JH_NBYTES_USED = SIZEOF_JOURNAL_HEADER + 2 * TRANSACTION_SIZE /\
   load32 jb (SIZEOF_JOURNAL_HEADER + 2 * SIZEOF_DATA_RECORD + DR_DATA + DE_INODE) = 1 /\
   load32 jb (SIZEOF_JOURNAL_HEADER + TRANSACTION_SIZE + 2 * SIZEOF_DATA_RECORD
              + DR_DATA + DE_INODE) = 1) /\
  fst (cmd_install image_two_staged) = Ok 2 /\
  (let root := after cmd_install image_two_staged DATA_START_IDX in
   load32 root (0 * SIZEOF_DIRENT + DE_INODE) = 1 /\
   strcmp_eq root (0 * SIZEOF_DIRENT + DE_NAME) bar_txt = true /\
   load32 root (1 * SIZEOF_DIRENT + DE_INODE) = 0 /\
   load8 root (1 * SIZEOF_DIRENT + DE_NAME) = 0).
Proof. cbv zeta. repeat split; vm_compute; reflexivity. Qed.

(** C4: when the new inode falls in the second block of the inode table,
    the transaction holds the bitmap block, that second block and the
    directory block; no record targets the block of the root inode, and
    after the install the root inode has the size and mtime it had while
    the directory has its new entry.  (The create runs with the
    superblock given the room of a block.) *)
Theorem create_skips_root_inode_update :
  checks_in_order foo_txt image_32_inodes = Ok (32, 0) /\
  fst (cmd_create_lenient foo_txt 7 image_32_inodes) = Ok tt /\
  (let jb := journal_of image_32_inodes_staged in
   load32 jb JH_NBYTES_USED = SIZEOF_JOURNAL_HEADER + TRANSACTION_SIZE /\
   applied_records scan_fuel jb (load32 jb JH_NBYTES_USED) SIZEOF_JOURNAL_HEADER
     = [8; 4112; 8216] /\
   map (fun o => load32 jb (o + DR_BLOCK_NO)) [8; 4112; 8216]
     = [INODE_BMAP_IDX; INODE_START_IDX + 1; DATA_START_IDX]) /\
  fst (cmd_install image_32_inodes_staged) = Ok 1 /\
  (let d := after cmd_install image_32_inodes_staged in
   load32 (d DATA_START_IDX) (0 * SIZEOF_DIRENT + DE_INODE) = 32 /\
   strcmp_eq (d DATA_START_IDX) (0 * SIZEOF_DIRENT + DE_NAME) foo_txt = true /\
   load32 (d INODE_START_IDX) INO_SIZE = load32 (image_32_inodes INODE_START_IDX) INO_SIZE /\
   load32 (d INODE_START_IDX) INO_MTIME = load32 (image_32_inodes INODE_START_IDX) INO_MTIME /\
   load32 (d INODE_START_IDX) INO_MTIME <> 7).
Proof.
  cbv zeta. repeat split; try (vm_compute; reflexivity). vm_compute. discriminate.
Qed.

(** The second implementation of create, on the same input: its replay in
    memory makes the second create see the first, so it chooses inode 2 and
    slot 1, and after the install both names are in the directory. *)
Lemma merge_aware_create_twice_distinct_inodes :
  fst (MergeAware.cmd_create foo_txt 7 image0) = Ok tt /\
  fst (MergeAware.cmd_create bar_txt 8 (after (MergeAware.cmd_create foo_txt 7) image0))
    = Ok tt /\
  fst (cmd_install image_two_staged_merge_aware) = Ok 2 /\
  (let root := after cmd_install image_two_staged_merge_aware DATA_START_IDX in
   dir_entry_is root 0 1 foo_txt /\ dir_entry_is root 1 2 bar_txt) /\
  load8 (after cmd_install image_two_staged_merge_aware INODE_BMAP_IDX) 0 = 7.
Proof. cbv zeta. unfold dir_entry_is. repeat split; vm_compute; reflexivity. Qed.

(** *** The same departures, for every image *)

(** The checks of [cmd_create] read blocks outside the journal region
    only (as long as the root directory block is outside it). *)
Lemma checks_ignore_journal filename d d' :
  (forall b, ~ in_journal_region b -> d' b = d b) ->
  ~ in_journal_region (load32 (d INODE_START_IDX) (INO_DIRECT + 4 * 0)) ->
  checks_in_order filename d' = checks_in_order filename d.
Proof.
  intros Hsame Hroot.
  assert (H0 : d' 0 = d 0).
  { apply Hsame. unfold in_journal_region, JOURNAL_BLOCK_IDX, JOURNAL_BLOCKS. lia. }
  assert (H17 : d' INODE_BMAP_IDX = d INODE_BMAP_IDX).
  { apply Hsame. unfold in_journal_region, INODE_BMAP_IDX, JOURNAL_BLOCK_IDX,
      JOURNAL_BLOCKS. lia. }
  assert (H19 : d' INODE_START_IDX = d INODE_START_IDX).
  { apply Hsame. unfold in_journal_region, INODE_START_IDX, DATA_BMAP_IDX, INODE_BMAP_IDX,
      JOURNAL_BLOCK_IDX, JOURNAL_BLOCKS. lia. }
  unfold checks_in_order. rewrite H0, H17, H19. rewrite (Hsame _ Hroot). reflexivity.
Qed.

(** So a create staged and not installed changes nothing for the next
    create: with any name, the same one included, it passes or fails the
    checks as it would have before, and chooses the same inode and slot. *)
Lemma staged_create_is_not_seen filename1 now d d1 filename2 :
  cmd_create_lenient filename1 now d = (Ok tt, d1) ->
  ~ in_journal_region (load32 (d INODE_START_IDX) (INO_DIRECT + 4 * 0)) ->
  checks_in_order filename2 d1 = checks_in_order filename2 d.
Proof.
  intros Hrun Hroot. apply checks_ignore_journal; [|exact Hroot].
  intros b Hb. exact (cmd_create_lenient_writes_journal_only filename1 now d d1 b Hrun Hb).
Qed.

(** A record of unknown type ends both scans; the install goes on to the
    reset. *)
Lemma scans_stop_at_unknown_type (fuel : nat) jb nb off n d :
  off < nb -> off + SIZEOF_REC_HEADER <= nb -> off + RH_TYPE + 2 <= JOURNAL_SIZE ->
  load16 jb (off + RH_TYPE) <> REC_DATA -> load16 jb (off + RH_TYPE) <> REC_COMMIT ->
  count_commits (S fuel) jb nb off n = Ok n /\
  replay_records (S fuel) jb nb off d = (Ok tt, d).
Proof.
  intros H1 H2 H3 Hd Hc. cbn [count_commits replay_records].
  destruct (Z.ltb_spec off nb); [|lia].
  destruct (Z.ltb_spec nb (off + SIZEOF_REC_HEADER)); [lia|].
  destruct (Z.ltb_spec JOURNAL_SIZE (off + RH_TYPE + 2)); [lia|].
  destruct (Z.eqb_spec (load16 jb (off + RH_TYPE)) REC_DATA); [contradiction|].
  destruct (Z.eqb_spec (load16 jb (off + RH_TYPE)) REC_COMMIT); [contradiction|].
  split; reflexivity.
Qed.

(** A data record is written as soon as its 4-byte header lies below
    [nbytes_used]; neither its declared size nor the end of its payload is
    compared with [nbytes_used]. *)
Lemma replay_writes_on_header_alone (fuel : nat) jb nb off :
  off < nb -> off + SIZEOF_REC_HEADER <= nb -> off + SIZEOF_DATA_RECORD <= JOURNAL_SIZE ->
  load16 jb (off + RH_TYPE) = REC_DATA ->
  exists rest, applied_records (S fuel) jb nb off = off :: rest.
Proof.
  intros H1 H2 H3 Hd. cbn [applied_records].
  destruct (Z.ltb_spec off nb); [|lia].
  destruct (Z.ltb_spec nb (off + SIZEOF_REC_HEADER)); [lia|].
  unfold SIZEOF_DATA_RECORD, SIZEOF_REC_HEADER, RH_TYPE, BLOCK_SIZE in *.
  destruct (Z.ltb_spec JOURNAL_SIZE (off + 0 + 2)); [lia|].
  rewrite Hd. change (REC_DATA =? REC_DATA) with true. cbv iota.
  destruct (Z.ltb_spec JOURNAL_SIZE (off + (4 + 4 + 4096))); [lia|].
  eexists. reflexivity.
Qed.

(** When the new inode shares the first inode-table block with the root
    inode, the block journaled for it carries the root inode with its size
    grown by one directory entry and its mtime set. *)
Lemma create_updates_root_inode_in_first_block d filename now free_inode free_entry :
  0 < free_inode < BLOCK_SIZE / INODE_SIZE ->
  exists bm ib db,
    transaction_of d filename now free_inode free_entry =
      [DataRec INODE_BMAP_IDX bm; DataRec INODE_START_IDX ib;
       DataRec (load32 (d INODE_START_IDX) (INO_DIRECT + 4 * 0)) db; CommitRec] /\
    load32 ib INO_SIZE = u32 (load32 (d INODE_START_IDX) INO_SIZE + SIZEOF_DIRENT) /\
    load32 ib INO_MTIME = u32 now.
Proof.
  intros Hino. destruct (new_inode_block_root d now free_inode Hino) as [Hs Hm].
  do 3 eexists. split; [|split; [exact Hs|exact Hm]].
  unfold transaction_of. change (BLOCK_SIZE / INODE_SIZE) with 32 in *.
  rewrite Z.div_small by lia. reflexivity.
Qed.

(** When it falls in a later block, the block journaled for it is that
    later block, and the bytes of the root inode appear in no payload of
    the transaction unless the directory block is the root inode's. *)
Lemma create_leaves_root_inode_in_later_block d filename now free_inode free_entry :
  BLOCK_SIZE / INODE_SIZE <= free_inode < INODE_BLOCKS * (BLOCK_SIZE / INODE_SIZE) ->
  map (fun r => match r with DataRec b _ => b | CommitRec => -1 end)
      (transaction_of d filename now free_inode free_entry)
    = [INODE_BMAP_IDX; INODE_START_IDX + 1;
       load32 (d INODE_START_IDX) (INO_DIRECT + 4 * 0); -1].
Proof.
  change (BLOCK_SIZE / INODE_SIZE) with 32. change INODE_BLOCKS with 2.
  intros Hino. unfold transaction_of. cbn [map].
  change (BLOCK_SIZE / INODE_SIZE) with 32.
  assert (free_inode / 32 = 1) as -> by (Z.to_euclidean_division_equations; lia).
  reflexivity.
Qed.


(** * Further properties of the code

    The helpers of [journal.c] (the bitmap allocator, the journal manager,
    the scan of the root directory), [cmd_install] on journals that end
    in a record without its commit or in a record of unknown type, and
    the install command of the second implementation. *)

(** ** The bitmap allocator *)

Lemma land_shiftr_1 x k : 0 <= k -> Z.land (Z.shiftr x k) 1 = Z.b2z (Z.testbit x k).
Proof.
  intros Hk. change 1 with (Z.ones 1). rewrite Z.land_ones by lia.
  change (2 ^ 1) with 2. rewrite <- Z.bit0_mod. rewrite Z.shiftr_spec by lia.
  rewrite Z.add_0_l. reflexivity.
Qed.

Lemma bitmap_test_bit bitmap index :
  bitmap_test bitmap index = Z.b2z (Z.testbit (load8 bitmap (index / 8)) (index mod 8)).
Proof.
  unfold bitmap_test. apply land_shiftr_1.
  pose proof (Z.mod_pos_bound index 8). lia.
Qed.

Lemma bitmap_test_cases bitmap index :
  bitmap_test bitmap index = 0 \/ bitmap_test bitmap index = 1.
Proof. rewrite bitmap_test_bit. destruct (Z.testbit _ _); cbn; auto. Qed.

(** The bits of a bitmap after [bitmap_set]. *)
Lemma bitmap_test_bitmap_set bitmap index j :
  bitmap_test (bitmap_set bitmap index) j =
    if j =? index then 1 else bitmap_test bitmap j.
Proof.
  rewrite !bitmap_test_bit. unfold bitmap_set.
  pose proof (Z.mod_pos_bound index 8 ltac:(lia)) as Hi.
  pose proof (Z.mod_pos_bound j 8 ltac:(lia)) as Hj.
  destruct (Z.eq_dec (j / 8) (index / 8)) as [Hbyte|Hbyte].
  - rewrite Hbyte, load8_store8_same.
    rewrite Z.mod_pow2_bits_low by lia.
    rewrite Z.lor_spec, Z.shiftl_1_l, Z.pow2_bits_eqb by lia.
    destruct (Z.eqb_spec j index) as [->|Hne].
    + rewrite Z.eqb_refl, orb_true_r. reflexivity.
    + destruct (Z.eqb_spec (index mod 8) (j mod 8)) as [Hbit|Hbit].
      * exfalso. apply Hne.
        rewrite (Z.div_mod j 8), (Z.div_mod index 8) by lia. lia.
      * rewrite orb_false_r. reflexivity.
  - rewrite load8_store8_other by lia.
    destruct (Z.eqb_spec j index) as [->|_]; [contradiction|reflexivity].
Qed.

(** X1: [bitmap_set] sets the bit it is asked for and no other:
    afterwards [bitmap_test] gives 1 at that index, and at every other
    index what it gave before. *)
Theorem bitmap_set_sets_one_bit bitmap index :
  bitmap_test (bitmap_set bitmap index) index = 1 /\
  forall j, j <> index ->
    bitmap_test (bitmap_set bitmap index) j = bitmap_test bitmap j.
Proof.
  split.
  - rewrite bitmap_test_bitmap_set, Z.eqb_refl. reflexivity.
  - intros j Hj. rewrite bitmap_test_bitmap_set.
    destruct (Z.eqb_spec j index); [contradiction|reflexivity].
Qed.

Lemma bitmap_find_free_loop_spec bitmap (todo : nat) : forall i r,
  bitmap_find_free_loop todo bitmap i = Ok r ->
  (r = UINT32_MAX /\
   forall j, i <= j < i + Z.of_nat todo -> bitmap_test bitmap j = 1) \/
  (i <= r < i + Z.of_nat todo /\ r / 8 < BLOCK_SIZE /\ bitmap_test bitmap r = 0 /\
   forall j, i <= j < r -> bitmap_test bitmap j = 1).
Proof.
  induction todo as [|todo IH]; intros i r; cbn [bitmap_find_free_loop].
  - intros [= <-]. left. split; [reflexivity|]. intros j Hj. lia.
  - destruct (Z.leb_spec BLOCK_SIZE (i / 8)) as [|Hin]; [discriminate|].
    destruct (Z.eqb_spec (bitmap_test bitmap i) 0) as [Hclear|Hset].
    + intros [= <-]. right. repeat split; try lia; assumption.
    + intros Hrun. apply IH in Hrun.
      assert (Hone : bitmap_test bitmap i = 1)
        by (destruct (bitmap_test_cases bitmap i); [contradiction|assumption]).
      destruct Hrun as [[-> Hall]|(Hr & Hb & Hc & Hall)].
      * left. split; [reflexivity|]. intros j Hj.
        destruct (Z.eq_dec j i) as [->|]; [exact Hone|apply Hall; lia].
      * right. repeat split; try lia; try assumption. intros j Hj.
        destruct (Z.eq_dec j i) as [->|]; [exact Hone|apply Hall; lia].
Qed.

Lemma bitmap_find_free_loop_full bitmap (todo : nat) : forall i,
  0 <= i -> i + Z.of_nat todo <= 8 * BLOCK_SIZE ->
  (forall j, i <= j < i + Z.of_nat todo -> bitmap_test bitmap j = 1) ->
  bitmap_find_free_loop todo bitmap i = Ok UINT32_MAX.
Proof.
  induction todo as [|todo IH]; intros i Hi Hfit Hall; cbn [bitmap_find_free_loop].
  - reflexivity.
  - destruct (Z.leb_spec BLOCK_SIZE (i / 8)) as [Hout|_].
    { unfold BLOCK_SIZE in *. Z.to_euclidean_division_equations; lia. }
    rewrite (Hall i) by lia. change (1 =? 0) with false. cbv iota.
    apply IH; [lia|lia|]. intros j Hj. apply Hall. lia.
Qed.

(** X2: when [bitmap_find_free] returns an index other than
    [(uint32_t)-1], it is the lowest clear bit: it lies below [max_bits],
    its bit is clear and every bit below it is set. *)
Theorem bitmap_find_free_lowest_clear bitmap max_bits r :
  bitmap_find_free bitmap max_bits = Ok r -> r <> UINT32_MAX ->
  0 <= r < max_bits /\ bitmap_test bitmap r = 0 /\
  forall j, 0 <= j < r -> bitmap_test bitmap j = 1.
Proof.
  unfold bitmap_find_free. intros Hrun Hr.
  apply bitmap_find_free_loop_spec in Hrun.
  destruct Hrun as [[-> _]|(Hrange & _ & Hclear & Hall)]; [contradiction|].
  split; [lia|]. split; [exact Hclear|exact Hall].
Qed.

Lemma bitmap_find_free_lowest_clear_witness :
  bitmap_find_free (image0 INODE_BMAP_IDX) 64 = Ok 1 /\ 1 <> UINT32_MAX /\
  0 <= 1 < 64 /\ bitmap_test (image0 INODE_BMAP_IDX) 1 = 0 /\
  forall j, 0 <= j < 1 -> bitmap_test (image0 INODE_BMAP_IDX) j = 1.
Proof.
  assert (H1 : bitmap_find_free (image0 INODE_BMAP_IDX) 64 = Ok 1) by (vm_compute; reflexivity).
  assert (H2 : 1 <> UINT32_MAX) by discriminate.
  split; [exact H1|]. split; [exact H2|].
  exact (bitmap_find_free_lowest_clear (image0 INODE_BMAP_IDX) 64 1 H1 H2).
Defined.

(** X3: on a bitmap that holds [max_bits] bits, [bitmap_find_free]
    returns [(uint32_t)-1] exactly when every bit below [max_bits] is
    set. *)
Theorem bitmap_find_free_none bitmap max_bits :
  max_bits <= 8 * BLOCK_SIZE ->
  bitmap_find_free bitmap max_bits = Ok UINT32_MAX <->
  forall j, 0 <= j < max_bits -> bitmap_test bitmap j = 1.
Proof.
  intros Hmax. unfold bitmap_find_free. split.
  - intros Hrun. apply bitmap_find_free_loop_spec in Hrun.
    destruct Hrun as [[_ Hall]|(_ & Hb & _)].
    + intros j Hj. apply Hall. lia.
    + unfold UINT32_MAX, BLOCK_SIZE in Hb. exfalso. revert Hb. clear. intros Hb.
      vm_compute in Hb. discriminate Hb.
  - intros Hall. apply bitmap_find_free_loop_full; [lia|unfold BLOCK_SIZE in *; lia|].
    intros j Hj. apply Hall. lia.
Qed.

Lemma bitmap_find_free_none_witness :
  64 <= 8 * BLOCK_SIZE /\
  (bitmap_find_free (image_no_inode INODE_BMAP_IDX) 64 = Ok UINT32_MAX <->
   forall j, 0 <= j < 64 -> bitmap_test (image_no_inode INODE_BMAP_IDX) j = 1).
Proof.
  assert (H : 64 <= 8 * BLOCK_SIZE) by (vm_compute; discriminate).
  split; [exact H|].
  exact (bitmap_find_free_none (image_no_inode INODE_BMAP_IDX) 64 H).
Defined.

(** X4: a bit handed out by [bitmap_find_free] and marked with
    [bitmap_set] is not handed out again: the next search returns a
    higher index, or [(uint32_t)-1]. *)
Theorem bitmap_find_free_after_set bitmap max_bits i r :
  bitmap_find_free bitmap max_bits = Ok i -> i <> UINT32_MAX ->
  bitmap_find_free (bitmap_set bitmap i) max_bits = Ok r ->
  i < r.
Proof.
  unfold bitmap_find_free. intros Hfirst Hi Hsecond.
  apply bitmap_find_free_loop_spec in Hfirst.
  destruct Hfirst as [[-> _]|(Hrange & Hb & Hclear & Hall)]; [contradiction|].
  apply bitmap_find_free_loop_spec in Hsecond.
  destruct Hsecond as [[-> _]|(Hrange' & _ & Hclear' & _)].
  - unfold UINT32_MAX, BLOCK_SIZE in *. Z.to_euclidean_division_equations; lia.
  - rewrite bitmap_test_bitmap_set in Hclear'.
    destruct (Z.eqb_spec r i) as [->|Hne]; [discriminate|].
    destruct (Z_lt_le_dec r i) as [Hlt|Hge]; [|lia].
    rewrite Hall in Hclear' by lia. discriminate.
Qed.

Lemma bitmap_find_free_after_set_witness :
  bitmap_find_free (image0 INODE_BMAP_IDX) 64 = Ok 1 /\ 1 <> UINT32_MAX /\
  bitmap_find_free (bitmap_set (image0 INODE_BMAP_IDX) 1) 64 = Ok 2 /\
  1 < 2.
Proof.
  assert (H1 : bitmap_find_free (image0 INODE_BMAP_IDX) 64 = Ok 1) by (vm_compute; reflexivity).
  assert (H2 : 1 <> UINT32_MAX) by discriminate.
  assert (H3 : bitmap_find_free (bitmap_set (image0 INODE_BMAP_IDX) 1) 64 = Ok 2)
    by (vm_compute; reflexivity).
  split; [exact H1|]. split; [exact H2|]. split; [exact H3|].
  exact (bitmap_find_free_after_set (image0 INODE_BMAP_IDX) 64 1 2 H1 H2 H3).
Defined.


(** ** The journal manager *)

(** X5: what [write_journal] writes, [read_journal] reads back: the
    65536 bytes of the buffer; and the write touches no block outside the
    journal region. *)
Theorem write_journal_then_read_journal journal_buf d :
  exists journal_buf' d',
    (write_journal journal_buf ;;; read_journal) d = (Ok journal_buf', d') /\
    (forall a, 0 <= a < JOURNAL_SIZE -> journal_buf' a = journal_buf a) /\
    (forall b, ~ in_journal_region b -> d' b = d b).
Proof.
  exists (journal_of (journal_written journal_buf d)), (journal_written journal_buf d).
  split; [|split].
  - unfold bind. rewrite write_journal_run. apply read_journal_run.
  - intros a Ha. apply journal_of_written. exact Ha.
  - intros b Hb. apply journal_written_outside. exact Hb.
Qed.

(** X6: reading the journal and writing it back leaves every block of
    the image with the bytes it had. *)
Theorem read_journal_then_write_journal d :
  exists d',
    (journal_buf <- read_journal ;; write_journal journal_buf) d = (Ok tt, d') /\
    disk_eq d' d.
Proof.
  exists (journal_written (journal_of d) d). split.
  - unfold bind. rewrite read_journal_run. apply write_journal_run.
  - intros b i Hi. rewrite journal_written_spec.
    destruct (Z.leb_spec JOURNAL_BLOCK_IDX b),
             (Z.ltb_spec b (JOURNAL_BLOCK_IDX + JOURNAL_BLOCKS));
      cbn [andb]; try reflexivity.
    unfold slice. unfold JOURNAL_BLOCK_IDX, JOURNAL_BLOCKS, BLOCK_SIZE in *.
    rewrite journal_of_spec
      by (unfold JOURNAL_SIZE, JOURNAL_BLOCKS, BLOCK_SIZE; lia).
    unfold JOURNAL_BLOCK_IDX, BLOCK_SIZE.
    replace (1 + ((b - 1) * 4096 + i) / 4096) with b
      by (Z.to_euclidean_division_equations; lia).
    f_equal. Z.to_euclidean_division_equations; lia.
Qed.

(** A record written just after the records of a framed journal, with the
    header moved past it, gives the journal that holds one record more. *)
Lemma journal_holds_snoc jb jb' recs r :
  journal_holds jb recs ->
  SIZEOF_JOURNAL_HEADER + records_size recs + record_size r <= JOURNAL_SIZE ->
  record_at jb' (SIZEOF_JOURNAL_HEADER + records_size recs) r ->
  (forall a, a < SIZEOF_JOURNAL_HEADER + records_size recs \/
             SIZEOF_JOURNAL_HEADER + records_size recs + record_size r <= a ->
             jb' a = jb a) ->
  journal_holds
    (update_journal_header jb' (SIZEOF_JOURNAL_HEADER + records_size recs + record_size r))
    (recs ++ [r]).
Proof.
  intros (Hm & Hu & Hfit & Hr) Hroom Hrec Hframe.
  pose proof (records_size_nonneg recs) as Hnn.
  pose proof (record_size_pos r) as Hpos.
  unfold update_journal_header, journal_holds.
  rewrite records_size_app. cbn [records_size fold_right].
  unfold JH_MAGIC, JH_NBYTES_USED, SIZEOF_JOURNAL_HEADER, JOURNAL_SIZE, JOURNAL_BLOCKS,
    BLOCK_SIZE in *.
  split; [|split; [|split]].
  - rewrite load32_store32_other by lia. rewrite <- Hm.
    apply load32_ext. intros i Hi. apply Hframe. lia.
  - rewrite load32_store32_same. rewrite Z.mod_small by lia. lia.
  - lia.
  - apply records_at_app. split.
    + apply (records_at_ext jb); [|exact Hr]. intros a Ha.
      rewrite store32_out by lia. apply Hframe. lia.
    + cbn [records_at]. split; [|exact I].
      apply (record_at_ext jb'); [|exact Hrec]. intros a Ha.
      apply store32_out. lia.
Qed.

(** X7: on a journal that holds the records [recs] and has room for one
    more data record, [append_data_record] at the offset of the header
    followed by [update_journal_header] gives the journal that holds
    [recs] and then the new record: the records already there are kept,
    and the new one carries the block number and the 4096 bytes given. *)
Theorem append_data_record_extends_journal journal_buf recs block_no block_data :
  journal_holds journal_buf recs ->
  SIZEOF_JOURNAL_HEADER + records_size recs + SIZEOF_DATA_RECORD <= JOURNAL_SIZE ->
  0 <= block_no < 2 ^ 32 ->
  exists journal_buf' offset',
    append_data_record journal_buf (load32 journal_buf JH_NBYTES_USED) block_no block_data
      = Ok (journal_buf', offset') /\
    offset' = load32 journal_buf JH_NBYTES_USED + SIZEOF_DATA_RECORD /\
    journal_holds (update_journal_header journal_buf' offset')
      (recs ++ [DataRec block_no block_data]).
Proof.
  intros Hh Hroom Hblk. pose proof Hh as (_ & Hu & _ & _).
  pose proof (records_size_nonneg recs) as Hnn.
  rewrite Hu.
  destruct (append_data_record_spec journal_buf (SIZEOF_JOURNAL_HEADER + records_size recs)
              block_no block_data) as (jb' & Hrun & Hrec & Hframe);
    [unfold SIZEOF_JOURNAL_HEADER; lia|exact Hroom|exact Hblk|].
  exists jb', (SIZEOF_JOURNAL_HEADER + records_size recs + SIZEOF_DATA_RECORD).
  split; [exact Hrun|]. split; [reflexivity|].
  apply (journal_holds_snoc journal_buf jb' recs (DataRec block_no block_data));
    assumption.
Qed.

Lemma append_data_record_extends_journal_witness :
  journal_holds (init_journal zero_buf) [] /\
  SIZEOF_JOURNAL_HEADER + records_size [] + SIZEOF_DATA_RECORD <= JOURNAL_SIZE /\
  0 <= INODE_BMAP_IDX < 2 ^ 32 /\
  exists journal_buf' offset',
    append_data_record (init_journal zero_buf)
      (load32 (init_journal zero_buf) JH_NBYTES_USED) INODE_BMAP_IDX (image0 INODE_BMAP_IDX)
      = Ok (journal_buf', offset') /\
    offset' = load32 (init_journal zero_buf) JH_NBYTES_USED + SIZEOF_DATA_RECORD /\
    journal_holds (update_journal_header journal_buf' offset')
      ([] ++ [DataRec INODE_BMAP_IDX (image0 INODE_BMAP_IDX)]).
Proof.
  assert (H1 : journal_holds (init_journal zero_buf) []).
  { unfold journal_holds. split; [vm_compute; reflexivity|].
    split; [vm_compute; reflexivity|]. split; [vm_compute; discriminate|exact I]. }
  assert (H2 : SIZEOF_JOURNAL_HEADER + records_size [] + SIZEOF_DATA_RECORD <= JOURNAL_SIZE)
    by (vm_compute; discriminate).
  assert (H3 : 0 <= INODE_BMAP_IDX < 2 ^ 32)
    by (split; [vm_compute; discriminate | vm_compute; reflexivity]).
  split; [exact H1|]. split; [exact H2|]. split; [exact H3|].
  exact (append_data_record_extends_journal (init_journal zero_buf) [] INODE_BMAP_IDX
           (image0 INODE_BMAP_IDX) H1 H2 H3).
Defined.

(** X8: on a journal that holds the records [recs] and has room for it,
    [append_commit_record] followed by [update_journal_header] gives the
    journal that holds [recs] and then a commit record, and the first
    scan of the install counts one transaction more on it. *)
Theorem append_commit_record_extends_journal journal_buf recs :
  journal_holds journal_buf recs ->
  SIZEOF_JOURNAL_HEADER + records_size recs + SIZEOF_COMMIT_RECORD <= JOURNAL_SIZE ->
  exists journal_buf' offset',
    append_commit_record journal_buf (load32 journal_buf JH_NBYTES_USED)
      = Ok (journal_buf', offset') /\
    journal_holds (update_journal_header journal_buf' offset') (recs ++ [CommitRec]) /\
    count_commits scan_fuel (update_journal_header journal_buf' offset') offset'
      SIZEOF_JOURNAL_HEADER 0 = Ok (commits_in recs + 1).
Proof.
  intros Hh Hroom. pose proof Hh as (_ & Hu & _ & _).
  pose proof (records_size_nonneg recs) as Hnn.
  rewrite Hu.
  destruct (append_commit_record_spec journal_buf (SIZEOF_JOURNAL_HEADER + records_size recs))
    as (jb' & Hrun & Hrec & Hframe);
    [unfold SIZEOF_JOURNAL_HEADER; lia|exact Hroom|].
  exists jb', (SIZEOF_JOURNAL_HEADER + records_size recs + SIZEOF_COMMIT_RECORD).
  split; [exact Hrun|].
  assert (Hh' : journal_holds
            (update_journal_header jb'
               (SIZEOF_JOURNAL_HEADER + records_size recs + SIZEOF_COMMIT_RECORD))
            (recs ++ [CommitRec]))
    by (apply (journal_holds_snoc journal_buf jb' recs CommitRec); assumption).
  split; [exact Hh'|].
  pose proof (journal_holds_fuel _ _ Hh') as Hfuel.
  destruct Hh' as (_ & Hu' & Hfit' & Hr').
  rewrite records_size_app in Hu', Hfit'. cbn [records_size fold_right record_size] in Hu', Hfit'.
  rewrite (count_commits_holds _ _ (recs ++ [CommitRec]) scan_fuel SIZEOF_JOURNAL_HEADER 0).
  - rewrite commits_in_app. cbn [commits_in fold_right]. f_equal; lia.
  - unfold SIZEOF_JOURNAL_HEADER. lia.
  - exact Hr'.
  - rewrite records_size_app. cbn [records_size fold_right record_size]. lia.
  - lia.
  - exact Hfuel.
Qed.

Lemma append_commit_record_extends_journal_witness :
  journal_holds (init_journal zero_buf) [] /\
  SIZEOF_JOURNAL_HEADER + records_size [] + SIZEOF_COMMIT_RECORD <= JOURNAL_SIZE /\
  exists journal_buf' offset',
    append_commit_record (init_journal zero_buf)
      (load32 (init_journal zero_buf) JH_NBYTES_USED) = Ok (journal_buf', offset') /\
    journal_holds (update_journal_header journal_buf' offset') ([] ++ [CommitRec]) /\
    count_commits scan_fuel (update_journal_header journal_buf' offset') offset'
      SIZEOF_JOURNAL_HEADER 0 = Ok (commits_in [] + 1).
Proof.
  assert (H1 : journal_holds (init_journal zero_buf) []).
  { unfold journal_holds. split; [vm_compute; reflexivity|].
    split; [vm_compute; reflexivity|]. split; [vm_compute; discriminate|exact I]. }
  assert (H2 : SIZEOF_JOURNAL_HEADER + records_size [] + SIZEOF_COMMIT_RECORD <= JOURNAL_SIZE)
    by (vm_compute; discriminate).
  split; [exact H1|]. split; [exact H2|].
  exact (append_commit_record_extends_journal (init_journal zero_buf) [] H1 H2).
Defined.


(** ** The scan of the root directory *)

Lemma find_free_entry_spec entries filename (todo : nat) : forall i,
  match find_free_entry todo entries filename i with
  | Ok r =>
      (r = UINT32_MAX /\
       forall j, i <= j < i + Z.of_nat todo ->
         slot_unused entries j = false /\
         strcmp_eq entries (j * SIZEOF_DIRENT + DE_NAME) filename = false) \/
      (i <= r < i + Z.of_nat todo /\ slot_unused entries r = true /\
       forall j, i <= j < r ->
         slot_unused entries j = false /\
         strcmp_eq entries (j * SIZEOF_DIRENT + DE_NAME) filename = false)
  | Exit e =>
      e = DuplicateName /\
      exists k, i <= k < i + Z.of_nat todo /\
        strcmp_eq entries (k * SIZEOF_DIRENT + DE_NAME) filename = true /\
        forall j, i <= j <= k -> slot_unused entries j = false
  | _ => False
  end.
Proof.
  induction todo as [|todo IH]; intros i; cbn [find_free_entry].
  - left. split; [reflexivity|]. intros j Hj. lia.
  - fold (slot_unused entries i).
    destruct (slot_unused entries i) eqn:Hu.
    + right. split; [lia|]. split; [exact Hu|]. intros j Hj. lia.
    + destruct (strcmp_eq entries (i * SIZEOF_DIRENT + DE_NAME) filename) eqn:Hs.
      * split; [reflexivity|]. exists i. split; [lia|]. split; [exact Hs|].
        intros j Hj. replace j with i by lia. exact Hu.
      * specialize (IH (i + 1)).
        destruct (find_free_entry todo entries filename (i + 1)) as [r|e| | |];
          try contradiction.
        -- destruct IH as [[-> Hall]|(Hr & Hur & Hall)].
           ++ left. split; [reflexivity|]. intros j Hj.
              destruct (Z.eq_dec j i) as [->|]; [split; assumption|apply Hall; lia].
           ++ right. split; [lia|]. split; [exact Hur|]. intros j Hj.
              destruct (Z.eq_dec j i) as [->|]; [split; assumption|apply Hall; lia].
        -- destruct IH as (-> & k & Hk & Hsk & Hall). split; [reflexivity|].
           exists k. split; [lia|]. split; [exact Hsk|]. intros j Hj.
           destruct (Z.eq_dec j i) as [->|]; [exact Hu|apply Hall; lia].
Qed.

Lemma slot_unused_ext entries entries' j :
  (forall a, j * SIZEOF_DIRENT <= a < (j + 1) * SIZEOF_DIRENT -> entries' a = entries a) ->
  slot_unused entries' j = slot_unused entries j.
Proof.
  intros Hext. unfold slot_unused, SIZEOF_DIRENT, NAME_LEN, DE_INODE, DE_NAME in *.
  f_equal; f_equal.
  - apply load32_ext. intros i Hi. apply Hext. lia.
  - apply load8_ext. apply Hext. lia.
Qed.

Lemma find_free_entry_found entries filename (todo : nat) : forall i r,
  i <= r < i + Z.of_nat todo ->
  slot_unused entries r = true ->
  (forall j, i <= j < r ->
     slot_unused entries j = false /\
     strcmp_eq entries (j * SIZEOF_DIRENT + DE_NAME) filename = false) ->
  find_free_entry todo entries filename i = Ok r.
Proof.
  induction todo as [|todo IH]; intros i r Hr Hur Hall; [lia|].
  cbn [find_free_entry]. fold (slot_unused entries i).
  destruct (Z.eq_dec r i) as [->|Hne].
  - rewrite Hur. reflexivity.
  - destruct (Hall i) as [-> ->]; [lia|]. apply IH; [lia|exact Hur|].
    intros j Hj. apply Hall. lia.
Qed.

(** X9: the scan of the root directory ends at the first unused slot
    (inode number 0 and empty name): that slot is the one chosen, every
    slot before it is in use under another name, and nothing behind it is
    looked at, so the scan gives the same slot on any block that has the
    same bytes up to the end of that slot, whatever names the rest
    holds. *)
Theorem find_free_entry_first_unused entries filename r :
  strlen filename < NAME_LEN ->
  find_free_entry (Z.to_nat (BLOCK_SIZE / SIZEOF_DIRENT)) entries filename 0 = Ok r ->
  r <> UINT32_MAX ->
  0 <= r < BLOCK_SIZE / SIZEOF_DIRENT /\
  slot_unused entries r = true /\
  (forall j, 0 <= j < r ->
     slot_unused entries j = false /\
     strcmp_eq entries (j * SIZEOF_DIRENT + DE_NAME) filename = false) /\
  (forall entries',
     (forall a, 0 <= a < (r + 1) * SIZEOF_DIRENT -> entries' a = entries a) ->
     find_free_entry (Z.to_nat (BLOCK_SIZE / SIZEOF_DIRENT)) entries' filename 0 = Ok r).
Proof.
  intros Hlen Hrun Hr.
  pose proof (find_free_entry_spec entries filename
                (Z.to_nat (BLOCK_SIZE / SIZEOF_DIRENT)) 0) as Hscan.
  rewrite Hrun in Hscan.
  change (Z.of_nat (Z.to_nat (BLOCK_SIZE / SIZEOF_DIRENT))) with (BLOCK_SIZE / SIZEOF_DIRENT)
    in Hscan.
  destruct Hscan as [[-> _]|(Hrange & Hur & Hall)]; [contradiction|].
  split; [lia|]. split; [exact Hur|]. split; [exact Hall|].
  intros entries' Hext.
  pose proof (strlen_nonneg filename) as Hnn.
  apply find_free_entry_found.
  - change (Z.of_nat (Z.to_nat (BLOCK_SIZE / SIZEOF_DIRENT)))
      with (BLOCK_SIZE / SIZEOF_DIRENT). lia.
  - rewrite <- Hur. apply slot_unused_ext. intros a Ha. apply Hext.
    unfold SIZEOF_DIRENT, NAME_LEN in *. lia.
  - intros j Hj. destruct (Hall j Hj) as [Huj Hsj]. split.
    + rewrite <- Huj. apply slot_unused_ext. intros a Ha. apply Hext.
      unfold SIZEOF_DIRENT, NAME_LEN in *. lia.
    + rewrite <- Hsj. apply strcmp_eq_ext. intros a Ha. apply Hext.
      unfold SIZEOF_DIRENT, NAME_LEN, DE_NAME in *. lia.
Qed.

Lemma find_free_entry_first_unused_witness :
  strlen bar_txt < NAME_LEN /\
  find_free_entry (Z.to_nat (BLOCK_SIZE / SIZEOF_DIRENT))
    (root_directory_of image_one_installed) bar_txt 0 = Ok 1 /\
  1 <> UINT32_MAX /\
  0 <= 1 < BLOCK_SIZE / SIZEOF_DIRENT /\
  slot_unused (root_directory_of image_one_installed) 1 = true /\
  (forall j, 0 <= j < 1 ->
     slot_unused (root_directory_of image_one_installed) j = false /\
     strcmp_eq (root_directory_of image_one_installed) (j * SIZEOF_DIRENT + DE_NAME) bar_txt
       = false) /\
  (forall entries',
     (forall a, 0 <= a < (1 + 1) * SIZEOF_DIRENT ->
        entries' a = root_directory_of image_one_installed a) ->
     find_free_entry (Z.to_nat (BLOCK_SIZE / SIZEOF_DIRENT)) entries' bar_txt 0 = Ok 1).
Proof.
  assert (H1 : strlen bar_txt < NAME_LEN) by (vm_compute; reflexivity).
  assert (H2 : find_free_entry (Z.to_nat (BLOCK_SIZE / SIZEOF_DIRENT))
                 (root_directory_of image_one_installed) bar_txt 0 = Ok 1)
    by (vm_compute; reflexivity).
  assert (H3 : 1 <> UINT32_MAX) by discriminate.
  split; [exact H1|]. split; [exact H2|]. split; [exact H3|].
  exact (find_free_entry_first_unused (root_directory_of image_one_installed) bar_txt 1
           H1 H2 H3).
Defined.

(** X10: for a name that has passed the check of its length (so that
    the comparison stays inside the name field), the scan fails with
    [DuplicateName] exactly when the name stands in a slot that has no
    unused slot before it or at it: a name in a slot behind an unused
    one is not found. *)
Theorem find_free_entry_duplicate_iff entries filename :
  strlen filename < NAME_LEN ->
  find_free_entry (Z.to_nat (BLOCK_SIZE / SIZEOF_DIRENT)) entries filename 0
    = Exit DuplicateName <->
  exists k, 0 <= k < BLOCK_SIZE / SIZEOF_DIRENT /\
    strcmp_eq entries (k * SIZEOF_DIRENT + DE_NAME) filename = true /\
    forall j, 0 <= j <= k -> slot_unused entries j = false.
Proof.
  intros _.
  pose proof (find_free_entry_spec entries filename
                (Z.to_nat (BLOCK_SIZE / SIZEOF_DIRENT)) 0) as Hscan.
  change (Z.of_nat (Z.to_nat (BLOCK_SIZE / SIZEOF_DIRENT))) with (BLOCK_SIZE / SIZEOF_DIRENT)
    in Hscan.
  split.
  - intros Hrun. rewrite Hrun in Hscan.
    destruct Hscan as (_ & k & Hk & Hs & Hall). exists k.
    split; [lia|]. split; [exact Hs|]. intros j Hj. apply Hall. lia.
  - intros (k & Hk & Hs & Hall).
    destruct (find_free_entry _ _ _ _) as [r|e| | |]; try contradiction.
    + exfalso. destruct Hscan as [[_ Hno]|(Hr & Hur & Hno)].
      * destruct (Hno k) as [_ Hsk]; [lia|]. congruence.
      * destruct (Z_lt_le_dec k r) as [Hlt|Hge].
        -- destruct (Hno k) as [_ Hsk]; [lia|]. congruence.
        -- rewrite Hall in Hur by lia. discriminate.
    + destruct Hscan as (-> & _). reflexivity.
Qed.

Lemma find_free_entry_duplicate_iff_witness :
  strlen foo_txt < NAME_LEN /\
  (find_free_entry (Z.to_nat (BLOCK_SIZE / SIZEOF_DIRENT))
     (root_directory_of image_one_installed) foo_txt 0 = Exit DuplicateName <->
   exists k, 0 <= k < BLOCK_SIZE / SIZEOF_DIRENT /\
     strcmp_eq (root_directory_of image_one_installed) (k * SIZEOF_DIRENT + DE_NAME) foo_txt
       = true /\
     forall j, 0 <= j <= k -> slot_unused (root_directory_of image_one_installed) j = false).
Proof.
  assert (H : strlen foo_txt < NAME_LEN) by (vm_compute; reflexivity).
  split; [exact H|].
  exact (find_free_entry_duplicate_iff (root_directory_of image_one_installed) foo_txt H).
Defined.

(** X11: for such a name the scan returns [(uint32_t)-1], which
    [cmd_create] reports as a full root directory, exactly when each of
    the 128 slots of the block is in use under another name. *)
Theorem find_free_entry_full_iff entries filename :
  strlen filename < NAME_LEN ->
  find_free_entry (Z.to_nat (BLOCK_SIZE / SIZEOF_DIRENT)) entries filename 0
    = Ok UINT32_MAX <->
  forall j, 0 <= j < BLOCK_SIZE / SIZEOF_DIRENT ->
    slot_unused entries j = false /\
    strcmp_eq entries (j * SIZEOF_DIRENT + DE_NAME) filename = false.
Proof.
  intros _.
  pose proof (find_free_entry_spec entries filename
                (Z.to_nat (BLOCK_SIZE / SIZEOF_DIRENT)) 0) as Hscan.
  change (Z.of_nat (Z.to_nat (BLOCK_SIZE / SIZEOF_DIRENT))) with (BLOCK_SIZE / SIZEOF_DIRENT)
    in Hscan.
  change (BLOCK_SIZE / SIZEOF_DIRENT) with 128 in *.
  split.
  - intros Hrun. rewrite Hrun in Hscan.
    destruct Hscan as [[_ Hall]|(Hr & _)]; [|unfold UINT32_MAX in Hr; lia].
    intros j Hj. apply Hall. lia.
  - intros Hall.
    destruct (find_free_entry _ _ _ _) as [r|e| | |]; try contradiction.
    + destruct Hscan as [[-> _]|(Hr & Hur & _)]; [reflexivity|].
      destruct (Hall r) as [Hu _]; [lia|]. congruence.
    + exfalso. destruct Hscan as (_ & k & Hk & Hs & _).
      destruct (Hall k) as [_ Hsk]; [lia|]. congruence.
Qed.

Lemma find_free_entry_full_iff_witness :
  strlen foo_txt < NAME_LEN /\
  (find_free_entry (Z.to_nat (BLOCK_SIZE / SIZEOF_DIRENT))
     (root_directory_of image_full_directory) foo_txt 0 = Ok UINT32_MAX <->
   forall j, 0 <= j < BLOCK_SIZE / SIZEOF_DIRENT ->
     slot_unused (root_directory_of image_full_directory) j = false /\
     strcmp_eq (root_directory_of image_full_directory) (j * SIZEOF_DIRENT + DE_NAME) foo_txt
       = false).
Proof.
  assert (H : strlen foo_txt < NAME_LEN) by (vm_compute; reflexivity).
  split; [exact H|].
  exact (find_free_entry_full_iff (root_directory_of image_full_directory) foo_txt H).
Defined.

(** ** Runs of [cmd_install] *)

(** A run is its result and the image it leaves. *)
Lemma run_as_after {A} (m : M A) d r : fst (m d) = r -> m d = (r, after m d).
Proof. intros <-. unfold after. apply surjective_pairing. Qed.

Lemma fold_install_record_app recs1 recs2 d :
  fold_left install_record (recs1 ++ recs2) d =
  fold_left install_record recs2 (fold_left install_record recs1 d).
Proof. apply fold_left_app. Qed.

(** X12: the replay does not wait for a commit record.  On a journal
    whose last record is a data record, with no commit record after it,
    [cmd_install] still writes that record to its block (here a block
    outside the journal region), and reports only the commits that came
    before it. *)
Theorem install_applies_uncommitted_record d recs block_no data :
  journal_holds (journal_of d) (recs ++ [DataRec block_no data]) ->
  ~ in_journal_region block_no ->
  exists d',
    cmd_install d = (Ok (commits_in recs), d') /\
    block_eq (d' block_no) data.
Proof.
  intros Hh Hout.
  destruct (install_replays_journal d _ Hh) as (d' & Hinst & Hblocks & _).
  exists d'. split.
  - rewrite Hinst. rewrite commits_in_app. cbn [commits_in fold_right].
    rewrite Z.add_0_r. reflexivity.
  - intros i Hi. rewrite (Hblocks block_no Hout i Hi).
    rewrite fold_install_record_app. cbn [fold_left install_record].
    unfold after, write_block. cbn [snd]. rewrite Z.eqb_refl. reflexivity.
Qed.

(** The journal of [image_uncommitted] holds its one data record. *)
Lemma image_uncommitted_holds :
  journal_holds (journal_of image_uncommitted)
    [DataRec INODE_BMAP_IDX (memset zero_buf 0 Byte.xff BLOCK_SIZE)].
Proof.
  apply (journal_holds_ext journal_uncommitted);
    [intros a Ha; apply journal_of_written; exact Ha|].
  unfold journal_uncommitted.
  destruct (append_data_record_spec (init_journal zero_buf) SIZEOF_JOURNAL_HEADER
              INODE_BMAP_IDX (memset zero_buf 0 Byte.xff BLOCK_SIZE))
    as (jb' & E & R & F).
  - vm_compute. discriminate.
  - vm_compute. discriminate.
  - split; [vm_compute; discriminate | vm_compute; reflexivity].
  - rewrite E.
    apply (journal_holds_snoc (init_journal zero_buf) jb' []
             (DataRec INODE_BMAP_IDX (memset zero_buf 0 Byte.xff BLOCK_SIZE))).
    + apply init_journal_holds.
    + vm_compute. discriminate.
    + exact R.
    + exact F.
Qed.

Lemma install_applies_uncommitted_record_witness :
  journal_holds (journal_of image_uncommitted)
    ([] ++ [DataRec INODE_BMAP_IDX (memset zero_buf 0 Byte.xff BLOCK_SIZE)]) /\
  ~ in_journal_region INODE_BMAP_IDX /\
  exists d',
    cmd_install image_uncommitted = (Ok (commits_in []), d') /\
    block_eq (d' INODE_BMAP_IDX) (memset zero_buf 0 Byte.xff BLOCK_SIZE).
Proof.
  pose proof image_uncommitted_holds as H1.
  assert (H2 : ~ in_journal_region INODE_BMAP_IDX)
    by (unfold in_journal_region, INODE_BMAP_IDX, JOURNAL_BLOCK_IDX, JOURNAL_BLOCKS; lia).
  split; [exact H1|]. split; [exact H2|].
  exact (install_applies_uncommitted_record image_uncommitted [] INODE_BMAP_IDX _ H1 H2).
Defined.

(** *** A record of unknown type *)

Section ScansToUnknownType.

Variables (jb : buf) (nb : Z).

Lemma count_commits_to_unknown recs : forall (fuel : nat) off n,
  0 <= off -> records_at jb off recs ->
  off + records_size recs + SIZEOF_REC_HEADER <= nb ->
  off + records_size recs + SIZEOF_REC_HEADER <= JOURNAL_SIZE ->
  load16 jb (off + records_size recs + RH_TYPE) <> REC_DATA ->
  load16 jb (off + records_size recs + RH_TYPE) <> REC_COMMIT ->
  (length recs < fuel)%nat ->
  count_commits fuel jb nb off n = Ok (n + commits_in recs).
Proof.
  induction recs as [|r recs IH]; intros fuel off n Hoff Hrecs Hnb Hfit Hd Hc Hfuel;
    (destruct fuel as [|fuel]; [cbn [length] in Hfuel; lia|]).
  - cbn [records_size fold_right commits_in] in *. rewrite Z.add_0_r in *.
    apply (scans_stop_at_unknown_type fuel jb nb off n (fun _ => zero_buf));
      unfold SIZEOF_REC_HEADER, RH_TYPE in *; try assumption; lia.
  - cbn [count_commits records_at records_size fold_right commits_in length] in *.
    fold (records_size recs) in *. fold (commits_in recs).
    pose proof (records_size_nonneg recs) as Hnn.
    pose proof (record_size_pos r) as Hpos.
    destruct Hrecs as [Hr Hrs].
    assert (H4 : SIZEOF_REC_HEADER <= record_size r)
      by (destruct r; cbn; unfold SIZEOF_DATA_RECORD, SIZEOF_COMMIT_RECORD,
            SIZEOF_REC_HEADER, BLOCK_SIZE; lia).
    unfold SIZEOF_REC_HEADER, RH_TYPE, RH_SIZE in *.
    destruct (Z.ltb_spec off nb); [|lia].
    destruct (Z.ltb_spec nb (off + 4)); [lia|].
    destruct (Z.ltb_spec JOURNAL_SIZE (off + 0 + 2)); [lia|].
    destruct (Z.ltb_spec JOURNAL_SIZE (off + 2 + 2)); [lia|].
    rewrite Z.add_assoc in Hd, Hc, Hnb, Hfit.
    destruct r as [blk data|]; cbn [record_at record_size] in *.
    + destruct Hr as (Ht & Hs & _). unfold RH_TYPE, RH_SIZE in *. rewrite Ht, Hs.
      change (REC_DATA =? REC_DATA) with true. cbv iota.
      change (SIZEOF_DATA_RECORD =? 0) with false. cbv iota.
      rewrite u32_small
        by (unfold SIZEOF_DATA_RECORD, SIZEOF_REC_HEADER, JOURNAL_SIZE, JOURNAL_BLOCKS,
              BLOCK_SIZE in *; lia).
      apply IH; try assumption; lia.
    + destruct Hr as (Ht & Hs). unfold RH_TYPE, RH_SIZE in *. rewrite Ht, Hs.
      change (REC_COMMIT =? REC_DATA) with false. cbv iota.
      change (REC_COMMIT =? REC_COMMIT) with true. cbv iota.
      change (SIZEOF_COMMIT_RECORD =? 0) with false. cbv iota.
      rewrite u32_small
        by (unfold SIZEOF_COMMIT_RECORD, SIZEOF_REC_HEADER, JOURNAL_SIZE, JOURNAL_BLOCKS,
              BLOCK_SIZE in *; lia).
      rewrite IH with (off := off + SIZEOF_COMMIT_RECORD); try assumption; try lia.
      f_equal. lia.
Qed.

Lemma replay_records_to_unknown recs : forall (fuel : nat) off d d0,
  0 <= off -> records_at jb off recs ->
  off + records_size recs + SIZEOF_REC_HEADER <= nb ->
  off + records_size recs + SIZEOF_REC_HEADER <= JOURNAL_SIZE ->
  load16 jb (off + records_size recs + RH_TYPE) <> REC_DATA ->
  load16 jb (off + records_size recs + RH_TYPE) <> REC_COMMIT ->
  (length recs < fuel)%nat ->
  disk_eq d d0 ->
  fst (replay_records fuel jb nb off d) = Ok tt /\
  disk_eq (snd (replay_records fuel jb nb off d)) (fold_left install_record recs d0).
Proof.
  induction recs as [|r recs IH]; intros fuel off d d0 Hoff Hrecs Hnb Hfit Hd Hc Hfuel Heq;
    (destruct fuel as [|fuel]; [cbn [length] in Hfuel; lia|]).
  - cbn [records_size fold_right fold_left] in *. rewrite Z.add_0_r in *.
    destruct (scans_stop_at_unknown_type fuel jb nb off 0 d) as [_ ->];
      unfold SIZEOF_REC_HEADER, RH_TYPE in *; try assumption; try lia.
    split; [reflexivity|exact Heq].
  - cbn [replay_records records_at records_size fold_right fold_left length] in *.
    fold (records_size recs) in *.
    pose proof (records_size_nonneg recs) as Hnn.
    pose proof (record_size_pos r) as Hpos.
    destruct Hrecs as [Hr Hrs].
    assert (H4 : SIZEOF_REC_HEADER <= record_size r)
      by (destruct r; cbn; unfold SIZEOF_DATA_RECORD, SIZEOF_COMMIT_RECORD,
            SIZEOF_REC_HEADER, BLOCK_SIZE; lia).
    unfold SIZEOF_REC_HEADER, RH_TYPE, RH_SIZE in *.
    destruct (Z.ltb_spec off nb); [|lia].
    destruct (Z.ltb_spec nb (off + 4)); [lia|].
    destruct (Z.ltb_spec JOURNAL_SIZE (off + 0 + 2)); [lia|].
    rewrite Z.add_assoc in Hd, Hc, Hnb, Hfit.
    destruct r as [blk data|]; cbn [record_at record_size install_record] in *.
    + destruct Hr as (Ht & Hs & Hb & Hdata). unfold RH_TYPE, RH_SIZE in *. rewrite Ht, Hs.
      change (REC_DATA =? REC_DATA) with true. cbv iota.
      destruct (Z.ltb_spec JOURNAL_SIZE (off + SIZEOF_DATA_RECORD)); [lia|].
      change (SIZEOF_DATA_RECORD =? 0) with false. cbv iota.
      rewrite u32_small
        by (unfold SIZEOF_DATA_RECORD, SIZEOF_REC_HEADER, JOURNAL_SIZE, JOURNAL_BLOCKS,
              BLOCK_SIZE in *; lia).
      unfold bind at 1 2. unfold write_block at 1 2. rewrite Hb.
      apply IH; try assumption; try lia.
      apply (write_block_eq d d0 blk _ data Heq Hdata).
    + destruct Hr as (Ht & Hs). unfold RH_TYPE, RH_SIZE in *. rewrite Ht, Hs.
      change (REC_COMMIT =? REC_DATA) with false. cbv iota.
      change (REC_COMMIT =? REC_COMMIT) with true. cbv iota.
      destruct (Z.ltb_spec JOURNAL_SIZE (off + 2 + 2)); [lia|].
      change (SIZEOF_COMMIT_RECORD =? 0) with false. cbv iota.
      rewrite u32_small
        by (unfold SIZEOF_COMMIT_RECORD, SIZEOF_REC_HEADER, JOURNAL_SIZE, JOURNAL_BLOCKS,
              BLOCK_SIZE in *; lia).
      apply IH; try assumption; lia.
Qed.

End ScansToUnknownType.

(** X13: a record whose type is neither data nor commit ends the install:
    when the journal holds the records [recs] and then, still below
    [nbytes_used], a header of another type, [cmd_install] succeeds,
    reports the commits of [recs], leaves the blocks outside the journal
    region as the data records of [recs] leave them, and resets the
    journal; whatever followed the unknown record is dropped with it. *)
Theorem install_stops_at_unknown_type d recs :
  load32 (journal_of d) JH_MAGIC = JOURNAL_MAGIC ->
  records_at (journal_of d) SIZEOF_JOURNAL_HEADER recs ->
  SIZEOF_JOURNAL_HEADER + records_size recs + SIZEOF_REC_HEADER
    <= load32 (journal_of d) JH_NBYTES_USED ->
  SIZEOF_JOURNAL_HEADER + records_size recs + SIZEOF_REC_HEADER <= JOURNAL_SIZE ->
  load16 (journal_of d) (SIZEOF_JOURNAL_HEADER + records_size recs + RH_TYPE) <> REC_DATA ->
  load16 (journal_of d) (SIZEOF_JOURNAL_HEADER + records_size recs + RH_TYPE) <> REC_COMMIT ->
  exists d',
    cmd_install d = (Ok (commits_in recs), d') /\
    (forall b, ~ in_journal_region b ->
               block_eq (d' b) (fold_left install_record recs d b)) /\
    journal_holds (journal_of d') [].
Proof.
  intros Hm Hr Hnb Hfit Hd Hc.
  assert (Hfuel : (length recs < scan_fuel)%nat).
  { pose proof (records_length_bound recs).
    unfold scan_fuel, SIZEOF_JOURNAL_HEADER, SIZEOF_REC_HEADER, JOURNAL_SIZE, JOURNAL_BLOCKS,
      BLOCK_SIZE in *. lia. }
  assert (H8 : 0 <= SIZEOF_JOURNAL_HEADER) by (unfold SIZEOF_JOURNAL_HEADER; lia).
  rewrite cmd_install_run. cbv zeta.
  unfold journal_is_initialized. rewrite Hm, Z.eqb_refl. cbn [negb].
  rewrite (count_commits_to_unknown _ _ recs scan_fuel _ 0 H8 Hr Hnb Hfit Hd Hc Hfuel).
  destruct (replay_records_to_unknown (journal_of d) _ recs scan_fuel _ d d
              H8 Hr Hnb Hfit Hd Hc Hfuel) as [Hok Heq].
  { intros b i Hi. reflexivity. }
  destruct (replay_records _ _ _ _ d) as [r d1]. cbn [fst snd] in *. subst r.
  eexists. split; [reflexivity|]. split.
  - intros b Hb. rewrite journal_written_outside by exact Hb. apply Heq.
  - apply (journal_holds_ext (init_journal (journal_of d))).
    + intros a Ha. apply journal_of_written. exact Ha.
    + apply init_journal_holds.
Qed.

Lemma install_stops_at_unknown_type_witness :
  load32 (journal_of image_unknown_record) JH_MAGIC = JOURNAL_MAGIC /\
  records_at (journal_of image_unknown_record) SIZEOF_JOURNAL_HEADER [] /\
  SIZEOF_JOURNAL_HEADER + records_size [] + SIZEOF_REC_HEADER
    <= load32 (journal_of image_unknown_record) JH_NBYTES_USED /\
  SIZEOF_JOURNAL_HEADER + records_size [] + SIZEOF_REC_HEADER <= JOURNAL_SIZE /\
  load16 (journal_of image_unknown_record) (SIZEOF_JOURNAL_HEADER + records_size [] + RH_TYPE)
    <> REC_DATA /\
  load16 (journal_of image_unknown_record) (SIZEOF_JOURNAL_HEADER + records_size [] + RH_TYPE)
    <> REC_COMMIT /\
  exists d',
    cmd_install image_unknown_record = (Ok (commits_in []), d') /\
    (forall b, ~ in_journal_region b ->
               block_eq (d' b) (fold_left install_record [] image_unknown_record b)) /\
    journal_holds (journal_of d') [].
Proof.
  assert (H1 : load32 (journal_of image_unknown_record) JH_MAGIC = JOURNAL_MAGIC)
    by (vm_compute; reflexivity).
  assert (H2 : records_at (journal_of image_unknown_record) SIZEOF_JOURNAL_HEADER [])
    by exact I.
  assert (H3 : SIZEOF_JOURNAL_HEADER + records_size [] + SIZEOF_REC_HEADER
                 <= load32 (journal_of image_unknown_record) JH_NBYTES_USED)
    by (vm_compute; discriminate).
  assert (H4 : SIZEOF_JOURNAL_HEADER + records_size [] + SIZEOF_REC_HEADER <= JOURNAL_SIZE)
    by (vm_compute; discriminate).
  assert (H5 : load16 (journal_of image_unknown_record)
                 (SIZEOF_JOURNAL_HEADER + records_size [] + RH_TYPE) <> REC_DATA)
    by (vm_compute; discriminate).
  assert (H6 : load16 (journal_of image_unknown_record)
                 (SIZEOF_JOURNAL_HEADER + records_size [] + RH_TYPE) <> REC_COMMIT)
    by (vm_compute; discriminate).
  split; [exact H1|]. split; [exact H2|]. split; [exact H3|]. split; [exact H4|].
  split; [exact H5|]. split; [exact H6|].
  exact (install_stops_at_unknown_type image_unknown_record [] H1 H2 H3 H4 H5 H6).
Defined.

(** X14: a successful install leaves nothing of the staged records on the
    image: behind the eight bytes of its header, every byte of the
    journal region is zero. *)
Theorem install_wipes_journal d n d' a :
  cmd_install d = (Ok n, d') ->
  SIZEOF_JOURNAL_HEADER <= a < JOURNAL_SIZE ->
  journal_of d' a = Byte.x00.
Proof.
  intros Hinst Ha. apply cmd_install_ok in Hinst. cbv zeta in Hinst.
  destruct Hinst as (_ & _ & ->).
  unfold SIZEOF_JOURNAL_HEADER in Ha.
  rewrite journal_of_written by lia.
  unfold init_journal, JH_MAGIC, JH_NBYTES_USED.
  rewrite !store32_out by lia. apply memset_in. lia.
Qed.

Lemma install_wipes_journal_witness :
  cmd_install image_one_staged = (Ok 1, after cmd_install image_one_staged) /\
  SIZEOF_JOURNAL_HEADER <= 16 < JOURNAL_SIZE /\
  journal_of (after cmd_install image_one_staged) 16 = Byte.x00.
Proof.
  assert (H0 : fst (cmd_install image_one_staged) = Ok 1) by (vm_compute; reflexivity).
  pose proof (run_as_after cmd_install image_one_staged (Ok 1) H0) as H1.
  assert (H2 : SIZEOF_JOURNAL_HEADER <= 16 < JOURNAL_SIZE)
    by (split; [vm_compute; discriminate | vm_compute; reflexivity]).
  split; [exact H1|]. split; [exact H2|].
  exact (install_wipes_journal image_one_staged 1 (after cmd_install image_one_staged) 16
           H1 H2).
Defined.

(** ** The install command of the second implementation *)

Lemma merge_aware_read_journal_loop_run (todo : nat) : forall i jbuf d,
  0 <= i -> i + Z.of_nat todo <= JOURNAL_BLOCKS ->
  MergeAware.read_journal_loop todo JOURNAL_BLOCK_IDX i jbuf d
    = (Ok (journal_loaded todo i jbuf d), d).
Proof.
  induction todo as [|todo IH]; intros i jbuf d Hi Hfit;
    cbn [MergeAware.read_journal_loop journal_loaded].
  - reflexivity.
  - unfold bind at 1. unfold read_block at 1.
    rewrite u32_small by (unfold JOURNAL_BLOCK_IDX, JOURNAL_BLOCKS in *; lia).
    apply IH; lia.
Qed.

Lemma merge_aware_read_journal_run d :
  MergeAware.read_journal_loop (Z.to_nat JOURNAL_BLOCKS) JOURNAL_BLOCK_IDX 0 zero_buf d
    = (Ok (journal_of d), d).
Proof. apply merge_aware_read_journal_loop_run; unfold JOURNAL_BLOCKS; lia. Qed.

Lemma clear_journal_loop_run (todo : nat) : forall jblk i b d,
  0 <= jblk -> 0 <= i -> jblk + i + Z.of_nat todo <= 2 ^ 32 ->
  fst (MergeAware.clear_journal_loop todo jblk i b d) = Ok tt /\
  forall j,
    snd (MergeAware.clear_journal_loop todo jblk i b d) j =
      if (jblk + i <=? j) && (j <? jblk + i + Z.of_nat todo) then b else d j.
Proof.
  induction todo as [|todo IH]; intros jblk i b d Hj Hi Hfit;
    cbn [MergeAware.clear_journal_loop].
  - split; [reflexivity|]. intros j. cbn [ret snd].
    destruct (Z.leb_spec (jblk + i) j), (Z.ltb_spec j (jblk + i + Z.of_nat 0));
      cbn [andb]; try reflexivity; lia.
  - unfold bind at 1 2. unfold write_block at 1 2. cbv beta iota.
    rewrite u32_small by lia.
    destruct (IH jblk (i + 1) b (fun j => if j =? jblk + i then b else d j))
      as [Hr Hd]; try lia.
    split; [exact Hr|]. intros j. rewrite Hd.
    destruct (Z.leb_spec (jblk + (i + 1)) j),
             (Z.ltb_spec j (jblk + (i + 1) + Z.of_nat todo)),
             (Z.leb_spec (jblk + i) j),
             (Z.ltb_spec j (jblk + i + Z.of_nat (S todo))),
             (Z.eqb_spec j (jblk + i));
      cbn [andb]; try reflexivity; lia.
Qed.

(** The image after [clear_journal], block by block. *)
Lemma clear_journal_run jblk d :
  0 <= jblk -> jblk + JOURNAL_BLOCKS <= 2 ^ 32 ->
  let header_block :=
    store32 (store32 (memset zero_buf 0 Byte.x00 BLOCK_SIZE) JH_MAGIC JOURNAL_MAGIC)
      JH_NBYTES_USED SIZEOF_JOURNAL_HEADER in
  fst (MergeAware.clear_journal jblk d) = Ok tt /\
  forall b,
    after (MergeAware.clear_journal jblk) d b =
      if b =? jblk then header_block
      else if (jblk + 1 <=? b) && (b <? jblk + JOURNAL_BLOCKS)
      then memset header_block 0 Byte.x00 BLOCK_SIZE
      else d b.
Proof.
  intros Hj Hfit. cbv zeta. unfold after, MergeAware.clear_journal. cbv zeta.
  unfold bind at 1 2. unfold write_block at 1 2. cbv beta iota.
  match goal with |- context [MergeAware.clear_journal_loop ?t ?j ?i ?b ?d0] =>
    destruct (clear_journal_loop_run t j i b d0) as [Hr Hd];
      [lia|lia|unfold JOURNAL_BLOCKS in *; cbn; lia|]
  end.
  split; [exact Hr|]. intros b. rewrite Hd.
  change (Z.of_nat (Z.to_nat (JOURNAL_BLOCKS - 1))) with 15.
  unfold JOURNAL_BLOCKS in *.
  destruct (Z.leb_spec (jblk + 1) b), (Z.ltb_spec b (jblk + 1 + 15)),
           (Z.ltb_spec b (jblk + 16)), (Z.eqb_spec b jblk);
    cbn [andb]; try reflexivity; lia.
Qed.

(** X15: [clear_journal] of the second implementation leaves a journal
    header alone in the first block of the journal (the magic, eight
    bytes used, zeros behind them), zeros in the fifteen blocks after it,
    and every other block as it was. *)
Theorem clear_journal_resets jblk d :
  0 <= jblk -> jblk + JOURNAL_BLOCKS <= 2 ^ 32 ->
  exists d',
    MergeAware.clear_journal jblk d = (Ok tt, d') /\
    load32 (d' jblk) JH_MAGIC = JOURNAL_MAGIC /\
    load32 (d' jblk) JH_NBYTES_USED = SIZEOF_JOURNAL_HEADER /\
    (forall a, SIZEOF_JOURNAL_HEADER <= a < BLOCK_SIZE -> d' jblk a = Byte.x00) /\
    (forall i a, 1 <= i < JOURNAL_BLOCKS -> 0 <= a < BLOCK_SIZE ->
                 d' (jblk + i) a = Byte.x00) /\
    (forall b, ~ (jblk <= b < jblk + JOURNAL_BLOCKS) -> d' b = d b).
Proof.
  intros Hj Hfit. destruct (clear_journal_run jblk d Hj Hfit) as [Hr Hd].
  exists (after (MergeAware.clear_journal jblk) d).
  split; [rewrite <- Hr; apply surjective_pairing|].
  unfold JOURNAL_BLOCKS, JH_MAGIC, JH_NBYTES_USED, SIZEOF_JOURNAL_HEADER, BLOCK_SIZE in *.
  split; [|split; [|split; [|split]]].
  - rewrite Hd, Z.eqb_refl. rewrite load32_store32_other by lia.
    rewrite load32_store32_same. reflexivity.
  - rewrite Hd, Z.eqb_refl. rewrite load32_store32_same. reflexivity.
  - intros a Ha. rewrite Hd, Z.eqb_refl. rewrite !store32_out by lia.
    apply memset_in. lia.
  - intros i a Hi Ha. rewrite Hd.
    destruct (Z.eqb_spec (jblk + i) jblk); [lia|].
    destruct (Z.leb_spec (jblk + 1) (jblk + i)), (Z.ltb_spec (jblk + i) (jblk + 16));
      cbn [andb]; try lia.
    apply memset_in. lia.
  - intros b Hb. rewrite Hd.
    destruct (Z.eqb_spec b jblk); [lia|].
    destruct (Z.leb_spec (jblk + 1) b), (Z.ltb_spec b (jblk + 16));
      cbn [andb]; try lia; reflexivity.
Qed.

Lemma clear_journal_resets_witness :
  0 <= JOURNAL_BLOCK_IDX /\ JOURNAL_BLOCK_IDX + JOURNAL_BLOCKS <= 2 ^ 32 /\
  exists d',
    MergeAware.clear_journal JOURNAL_BLOCK_IDX image_one_staged = (Ok tt, d') /\
    load32 (d' JOURNAL_BLOCK_IDX) JH_MAGIC = JOURNAL_MAGIC /\
    load32 (d' JOURNAL_BLOCK_IDX) JH_NBYTES_USED = SIZEOF_JOURNAL_HEADER /\
    (forall a, SIZEOF_JOURNAL_HEADER <= a < BLOCK_SIZE ->
               d' JOURNAL_BLOCK_IDX a = Byte.x00) /\
    (forall i a, 1 <= i < JOURNAL_BLOCKS -> 0 <= a < BLOCK_SIZE ->
                 d' (JOURNAL_BLOCK_IDX + i) a = Byte.x00) /\
    (forall b, ~ (JOURNAL_BLOCK_IDX <= b < JOURNAL_BLOCK_IDX + JOURNAL_BLOCKS) ->
               d' b = image_one_staged b).
Proof.
  assert (H1 : 0 <= JOURNAL_BLOCK_IDX) by (vm_compute; discriminate).
  assert (H2 : JOURNAL_BLOCK_IDX + JOURNAL_BLOCKS <= 2 ^ 32) by (vm_compute; discriminate).
  split; [exact H1|]. split; [exact H2|].
  exact (clear_journal_resets JOURNAL_BLOCK_IDX image_one_staged H1 H2).
Defined.

Section MergeAwareInstallLoop.

Variables (jb : buf) (nb : Z).

(** The loop of the second install on a framed journal: every data record
    is written to its block and counted. *)
Lemma install_loop_holds recs : forall (fuel : nat) off n d d0,
  0 <= off -> records_at jb off recs -> nb = off + records_size recs ->
  nb <= JOURNAL_SIZE -> (length recs < fuel)%nat ->
  disk_eq d d0 ->
  fst (MergeAware.install_loop fuel jb nb off n d) = Ok (n + data_records_in recs) /\
  disk_eq (snd (MergeAware.install_loop fuel jb nb off n d))
    (fold_left install_record recs d0).
Proof.
  induction recs as [|r recs IH]; intros fuel off n d d0 Hoff Hrecs Hnb Hfit Hfuel Hd;
    (destruct fuel as [|fuel]; [cbn [length] in Hfuel; lia|]);
    cbn [MergeAware.install_loop records_at records_size fold_right fold_left length
         data_records_in] in *.
  - rewrite Z.add_0_r in Hnb. subst nb.
    destruct (Z.leb_spec (off + SIZEOF_REC_HEADER) off);
      [unfold SIZEOF_REC_HEADER in *; lia|].
    cbn [ret fst snd]. split; [f_equal; lia|exact Hd].
  - fold (records_size recs) in Hnb. fold (data_records_in recs).
    pose proof (records_size_nonneg recs) as Hnn.
    pose proof (record_size_pos r) as Hpos.
    destruct Hrecs as [Hr Hrs].
    assert (H4 : SIZEOF_REC_HEADER <= record_size r)
      by (destruct r; cbn; unfold SIZEOF_DATA_RECORD, SIZEOF_COMMIT_RECORD,
            SIZEOF_REC_HEADER, BLOCK_SIZE; lia).
    destruct (Z.leb_spec (off + SIZEOF_REC_HEADER) nb); [|lia].
    change (BLOCK_SIZE * JOURNAL_BLOCKS) with JOURNAL_SIZE.
    destruct (Z.ltb_spec JOURNAL_SIZE (off + SIZEOF_REC_HEADER)); [lia|].
    destruct r as [blk data|]; cbn [record_at record_size install_record] in *.
    + destruct Hr as (Ht & Hs & Hb & Hdata). rewrite Ht, Hs.
      change (REC_DATA =? REC_DATA) with true. cbv iota.
      destruct (Z.ltb_spec JOURNAL_SIZE (off + SIZEOF_DATA_RECORD)); [lia|].
      change (SIZEOF_DATA_RECORD =? 0) with false. cbv iota.
      unfold bind at 1 2. unfold write_block at 1 2. rewrite Hb.
      destruct (IH fuel (off + SIZEOF_DATA_RECORD) (n + 1)
                  (fun i => if i =? blk then slice jb (off + DR_DATA) else d i)
                  (after (write_block blk data) d0)) as [Hres Hdisk];
        try assumption; try lia.
      { apply (write_block_eq d d0 blk _ data Hd Hdata). }
      split; [rewrite Hres; f_equal; lia|exact Hdisk].
    + destruct Hr as (Ht & Hs). rewrite Ht, Hs.
      change (REC_COMMIT =? REC_DATA) with false. cbv iota.
      change (REC_COMMIT =? REC_COMMIT) with true. cbv iota.
      change (SIZEOF_COMMIT_RECORD =? 0) with false. cbv iota.
      apply IH; try assumption; lia.
Qed.

End MergeAwareInstallLoop.

(** The journal region after [clear_journal] holds the bytes that
    [init_journal] and [write_journal] leave there. *)
Lemma clear_journal_as_init_journal d jb a :
  0 <= a < JOURNAL_SIZE ->
  journal_of (after (MergeAware.clear_journal JOURNAL_BLOCK_IDX) d) a = init_journal jb a.
Proof.
  intros Ha.
  destruct (clear_journal_run JOURNAL_BLOCK_IDX d) as [_ Hd];
    [unfold JOURNAL_BLOCK_IDX; lia|unfold JOURNAL_BLOCK_IDX, JOURNAL_BLOCKS; lia|].
  rewrite journal_of_spec by exact Ha. rewrite Hd. unfold init_journal.
  unfold JOURNAL_SIZE, JOURNAL_BLOCKS, JOURNAL_BLOCK_IDX, BLOCK_SIZE, JH_MAGIC,
    JH_NBYTES_USED, SIZEOF_JOURNAL_HEADER in *.
  destruct (Z.eqb_spec (1 + a / 4096) 1) as [Hfirst|Hrest].
  - assert (Hlow : 0 <= a < 4096) by (Z.to_euclidean_division_equations; lia).
    rewrite Z.mod_small by lia.
    destruct (Z_lt_le_dec a 4) as [H4|H4]; [|destruct (Z_lt_le_dec a 8) as [H8|H8]].
    + rewrite !(store32_out _ 4) by lia. unfold store32.
      rewrite !store_bytes_in by (rewrite length_le_split; lia). reflexivity.
    + unfold store32 at 1 3. rewrite !store_bytes_in by (rewrite length_le_split; lia).
      reflexivity.
    + rewrite !store32_out by lia. rewrite !memset_in by lia. reflexivity.
  - destruct (Z.leb_spec (1 + 1) (1 + a / 4096)), (Z.ltb_spec (1 + a / 4096) (1 + 16));
      cbn [andb]; try (Z.to_euclidean_division_equations; lia).
    assert (Hhigh : 4096 <= a) by (Z.to_euclidean_division_equations; lia).
    rewrite !store32_out by lia.
    rewrite !memset_in by (try lia; Z.to_euclidean_division_equations; lia).
    reflexivity.
Qed.

(** X16: on an image whose journal region does not start with the
    journal magic, the install of the second implementation reports an
    empty journal and returns successfully with the image unchanged,
    where [cmd_install] of [journal.c] exits with an error. *)
Theorem merge_aware_install_uninitialized d :
  load32 (d 0) SB_MAGIC = FS_MAGIC ->
  load32 (d 0) MergeAware.SB_JOURNAL_BLOCK = JOURNAL_BLOCK_IDX ->
  load32 (journal_of d) JH_MAGIC <> JOURNAL_MAGIC ->
  MergeAware.cmd_install d = (Ok 0, d) /\
  cmd_install d = (Exit JournalNotInitialized, d).
Proof.
  intros Hsb Hjblk Hm. split; [|apply cmd_install_uninitialized; exact Hm].
  unfold MergeAware.cmd_install. unfold bind at 1. unfold read_block at 1.
  rewrite Hsb, Z.eqb_refl. cbn [negb]. rewrite Hjblk.
  unfold bind at 1. rewrite merge_aware_read_journal_run.
  apply Z.eqb_neq in Hm. rewrite Hm. reflexivity.
Qed.

Lemma merge_aware_install_uninitialized_witness :
  load32 (image0 0) SB_MAGIC = FS_MAGIC /\
  load32 (image0 0) MergeAware.SB_JOURNAL_BLOCK = JOURNAL_BLOCK_IDX /\
  load32 (journal_of image0) JH_MAGIC <> JOURNAL_MAGIC /\
  MergeAware.cmd_install image0 = (Ok 0, image0) /\
  cmd_install image0 = (Exit JournalNotInitialized, image0).
Proof.
  assert (H1 : load32 (image0 0) SB_MAGIC = FS_MAGIC) by (vm_compute; reflexivity).
  assert (H2 : load32 (image0 0) MergeAware.SB_JOURNAL_BLOCK = JOURNAL_BLOCK_IDX)
    by (vm_compute; reflexivity).
  assert (H3 : load32 (journal_of image0) JH_MAGIC <> JOURNAL_MAGIC)
    by (vm_compute; discriminate).
  split; [exact H1|]. split; [exact H2|]. split; [exact H3|].
  exact (merge_aware_install_uninitialized image0 H1 H2 H3).
Defined.

(** X17: on an image with the standard layout whose journal holds the
    records [recs], the install of the second implementation writes the
    data records to their blocks in order and resets the journal: it
    leaves, block for block, the image that [cmd_install] of [journal.c]
    leaves.  The two differ in what they report: the second
    implementation counts the data records, [journal.c] the commits. *)
Theorem merge_aware_install_replays_journal d recs :
  load32 (d 0) SB_MAGIC = FS_MAGIC ->
  load32 (d 0) MergeAware.SB_JOURNAL_BLOCK = JOURNAL_BLOCK_IDX ->
  journal_holds (journal_of d) recs ->
  exists d' d'',
    MergeAware.cmd_install d = (Ok (data_records_in recs), d') /\
    cmd_install d = (Ok (commits_in recs), d'') /\
    (forall b, ~ in_journal_region b ->
               block_eq (d' b) (fold_left install_record recs d b)) /\
    journal_holds (journal_of d') [] /\
    disk_eq d' d''.
Proof.
  intros Hsb Hjblk Hh. pose proof (journal_holds_fuel _ _ Hh) as Hfuel.
  destruct (install_replays_journal d recs Hh) as (d'' & Hinst & Hblocks'' & Hempty'').
  destruct Hh as (Hm & Hu & Hfit & Hr).
  assert (H8 : 0 <= SIZEOF_JOURNAL_HEADER) by (unfold SIZEOF_JOURNAL_HEADER; lia).
  destruct (install_loop_holds (journal_of d) (load32 (journal_of d) JH_NBYTES_USED)
              recs scan_fuel SIZEOF_JOURNAL_HEADER 0 d d H8 Hr Hu)
    as [Hres Hdisk]; try (rewrite ?Hu; assumption).
  { intros b i Hi. reflexivity. }
  destruct (MergeAware.install_loop scan_fuel (journal_of d)
              (load32 (journal_of d) JH_NBYTES_USED) SIZEOF_JOURNAL_HEADER 0 d)
    as [r d1] eqn:Hloop.
  cbn [fst snd] in Hres, Hdisk. subst r.
  destruct (clear_journal_run JOURNAL_BLOCK_IDX d1) as [Hclr Hcd];
    [unfold JOURNAL_BLOCK_IDX; lia|unfold JOURNAL_BLOCK_IDX, JOURNAL_BLOCKS; lia|].
  assert (Hrun : MergeAware.cmd_install d
                 = (Ok (data_records_in recs),
                    after (MergeAware.clear_journal JOURNAL_BLOCK_IDX) d1)).
  { unfold MergeAware.cmd_install. unfold bind at 1. unfold read_block at 1.
    rewrite Hsb, Z.eqb_refl. cbn [negb]. rewrite Hjblk.
    unfold bind at 1. rewrite merge_aware_read_journal_run.
    rewrite Hm, Z.eqb_refl. cbn [negb].
    unfold bind at 1. rewrite Hloop.
    unfold bind at 1. unfold after.
    destruct (MergeAware.clear_journal JOURNAL_BLOCK_IDX d1) as [r2 d2].
    cbn [fst snd] in *. subst r2.
    unfold bind, read_block, ret. reflexivity. }
  assert (Hout : forall b, ~ in_journal_region b ->
            after (MergeAware.clear_journal JOURNAL_BLOCK_IDX) d1 b = d1 b).
  { intros b Hb. rewrite Hcd. unfold in_journal_region, JOURNAL_BLOCK_IDX, JOURNAL_BLOCKS in *.
    destruct (Z.eqb_spec b 1); [lia|].
    destruct (Z.leb_spec (1 + 1) b), (Z.ltb_spec b (1 + 16)); cbn [andb]; try lia;
      reflexivity. }
  exists (after (MergeAware.clear_journal JOURNAL_BLOCK_IDX) d1), d''.
  split; [exact Hrun|]. split; [exact Hinst|].
  split; [|split].
  - intros b Hb. rewrite (Hout b Hb). apply Hdisk.
  - apply (journal_holds_ext (init_journal zero_buf)).
    + intros a Ha. apply clear_journal_as_init_journal. exact Ha.
    + apply init_journal_holds.
  - intros b i Hi.
    destruct (Z_le_dec JOURNAL_BLOCK_IDX b) as [Hlo|Hlo];
      [destruct (Z_lt_dec b (JOURNAL_BLOCK_IDX + JOURNAL_BLOCKS)) as [Hhi|Hhi]|].
    + apply cmd_install_ok in Hinst. cbv zeta in Hinst. destruct Hinst as (_ & _ & ->).
      rewrite journal_written_spec.
      destruct (Z.leb_spec JOURNAL_BLOCK_IDX b),
               (Z.ltb_spec b (JOURNAL_BLOCK_IDX + JOURNAL_BLOCKS)); cbn [andb]; try lia.
      unfold slice.
      rewrite <- (clear_journal_as_init_journal d1 (journal_of d))
        by (unfold JOURNAL_SIZE, JOURNAL_BLOCKS, JOURNAL_BLOCK_IDX, BLOCK_SIZE in *; lia).
      rewrite journal_of_spec
        by (unfold JOURNAL_SIZE, JOURNAL_BLOCKS, JOURNAL_BLOCK_IDX, BLOCK_SIZE in *; lia).
      unfold JOURNAL_BLOCKS, JOURNAL_BLOCK_IDX, BLOCK_SIZE in *.
      replace (1 + ((b - 1) * 4096 + i) / 4096) with b
        by (Z.to_euclidean_division_equations; lia).
      f_equal. Z.to_euclidean_division_equations; lia.
    + assert (Hb : ~ in_journal_region b) by (unfold in_journal_region; lia).
      rewrite (Hout b Hb), (Hblocks'' b Hb i Hi). apply Hdisk. exact Hi.
    + assert (Hb : ~ in_journal_region b) by (unfold in_journal_region; lia).
      rewrite (Hout b Hb), (Hblocks'' b Hb i Hi). apply Hdisk. exact Hi.
Qed.

Lemma merge_aware_install_replays_journal_witness :
  load32 (image_uncommitted 0) SB_MAGIC = FS_MAGIC /\
  load32 (image_uncommitted 0) MergeAware.SB_JOURNAL_BLOCK = JOURNAL_BLOCK_IDX /\
  journal_holds (journal_of image_uncommitted)
    [DataRec INODE_BMAP_IDX (memset zero_buf 0 Byte.xff BLOCK_SIZE)] /\
  exists d' d'',
    MergeAware.cmd_install image_uncommitted
      = (Ok (data_records_in [DataRec INODE_BMAP_IDX (memset zero_buf 0 Byte.xff BLOCK_SIZE)]),
         d') /\
    cmd_install image_uncommitted
      = (Ok (commits_in [DataRec INODE_BMAP_IDX (memset zero_buf 0 Byte.xff BLOCK_SIZE)]),
         d'') /\
    (forall b, ~ in_journal_region b ->
               block_eq (d' b)
                 (fold_left install_record
                    [DataRec INODE_BMAP_IDX (memset zero_buf 0 Byte.xff BLOCK_SIZE)]
                    image_uncommitted b)) /\
    journal_holds (journal_of d') [] /\
    disk_eq d' d''.
Proof.
  assert (H1 : load32 (image_uncommitted 0) SB_MAGIC = FS_MAGIC) by (vm_compute; reflexivity).
  assert (H2 : load32 (image_uncommitted 0) MergeAware.SB_JOURNAL_BLOCK = JOURNAL_BLOCK_IDX)
    by (vm_compute; reflexivity).
  pose proof image_uncommitted_holds as H3.
  split; [exact H1|]. split; [exact H2|]. split; [exact H3|].
  exact (merge_aware_install_replays_journal image_uncommitted _ H1 H2 H3).
Defined.

(** ** The replay in memory of the second implementation *)

Lemma last_staged_ext blk recs : forall dflt dflt',
  block_eq dflt dflt' ->
  block_eq (last_staged blk recs dflt) (last_staged blk recs dflt').
Proof.
  induction recs as [|r recs IH]; intros dflt dflt' Heq; cbn [last_staged]; [exact Heq|].
  destruct r as [block_no data|]; [|apply IH; exact Heq].
  apply IH. destruct (block_no =? blk); [intros i Hi; reflexivity|exact Heq].
Qed.

Section MergeStaged.

Variables (jb : buf) (nb : Z) (sb : buf).

Hypothesis bitmap_not_inodes :
  load32 sb MergeAware.SB_INODE_BITMAP <> load32 sb MergeAware.SB_INODE_START.
Hypothesis bitmap_not_root :
  load32 sb MergeAware.SB_INODE_BITMAP <> load32 sb MergeAware.SB_DATA_START.
Hypothesis inodes_not_root :
  load32 sb MergeAware.SB_INODE_START <> load32 sb MergeAware.SB_DATA_START.

Lemma merge_staged_holds recs : forall (fuel : nat) off bm ib rb bm0 ib0 rb0,
  0 <= off -> records_at jb off recs -> nb = off + records_size recs ->
  nb <= JOURNAL_SIZE -> (length recs < fuel)%nat ->
  block_eq bm bm0 -> block_eq ib ib0 -> block_eq rb rb0 ->
  exists bm' ib' rb',
    MergeAware.merge_staged fuel jb nb off sb bm ib rb = Ok (bm', ib', rb') /\
    block_eq bm' (last_staged (load32 sb MergeAware.SB_INODE_BITMAP) recs bm0) /\
    block_eq ib' (last_staged (load32 sb MergeAware.SB_INODE_START) recs ib0) /\
    block_eq rb' (last_staged (load32 sb MergeAware.SB_DATA_START) recs rb0).
Proof.
  induction recs as [|r recs IH];
    intros fuel off bm ib rb bm0 ib0 rb0 Hoff Hrecs Hnb Hfit Hfuel Hbm Hib Hrb;
    (destruct fuel as [|fuel]; [cbn [length] in Hfuel; lia|]);
    cbn [MergeAware.merge_staged records_at records_size fold_right length last_staged] in *.
  - rewrite Z.add_0_r in Hnb. subst nb.
    destruct (Z.leb_spec (off + SIZEOF_REC_HEADER) off);
      [unfold SIZEOF_REC_HEADER in *; lia|].
    exists bm, ib, rb. repeat split; assumption.
  - fold (records_size recs) in Hnb.
    pose proof (records_size_nonneg recs) as Hnn.
    pose proof (record_size_pos r) as Hpos.
    destruct Hrecs as [Hr Hrs].
    assert (H4 : SIZEOF_REC_HEADER <= record_size r)
      by (destruct r; cbn; unfold SIZEOF_DATA_RECORD, SIZEOF_COMMIT_RECORD,
            SIZEOF_REC_HEADER, BLOCK_SIZE; lia).
    destruct (Z.leb_spec (off + SIZEOF_REC_HEADER) nb); [|lia].
    change (BLOCK_SIZE * JOURNAL_BLOCKS) with JOURNAL_SIZE.
    destruct (Z.ltb_spec JOURNAL_SIZE (off + SIZEOF_REC_HEADER)); [lia|].
    destruct r as [blk data|]; cbn [record_at record_size] in *.
    + destruct Hr as (Ht & Hs & Hb & Hdata). rewrite Ht, Hs, Hb.
      change (REC_DATA =? REC_DATA) with true. cbv iota.
      destruct (Z.ltb_spec JOURNAL_SIZE (off + DR_BLOCK_NO + 4));
        [unfold DR_BLOCK_NO, SIZEOF_DATA_RECORD, SIZEOF_REC_HEADER, BLOCK_SIZE in *; lia|].
      destruct (Z.ltb_spec JOURNAL_SIZE (off + SIZEOF_DATA_RECORD)); [lia|].
      change (SIZEOF_DATA_RECORD =? 0) with false. cbv iota.
      assert (Hcopy : block_eq (memcpy zero_buf 0 (slice jb (off + DR_DATA)) 0 BLOCK_SIZE) data).
      { intros i Hi. rewrite memcpy_in by lia.
        replace (0 + (i - 0)) with i by lia. apply Hdata. exact Hi. }
      destruct (Z.eqb_spec blk (load32 sb MergeAware.SB_INODE_BITMAP)) as [E1|N1];
        [|destruct (Z.eqb_spec blk (load32 sb MergeAware.SB_INODE_START)) as [E2|N2];
          [|destruct (Z.eqb_spec blk (load32 sb MergeAware.SB_DATA_START)) as [E3|N3]]];
        cbn [orb]; cbv iota beta.
      * destruct (Z.eqb_spec blk (load32 sb MergeAware.SB_INODE_START)); [congruence|].
        destruct (Z.eqb_spec blk (load32 sb MergeAware.SB_DATA_START)); [congruence|].
        apply IH; try assumption; lia.
      * destruct (Z.eqb_spec blk (load32 sb MergeAware.SB_DATA_START)); [congruence|].
        apply IH; try assumption; lia.
      * apply IH; try assumption; lia.
      * apply IH; try assumption; lia.
    + destruct Hr as (Ht & Hs). rewrite Ht, Hs.
      change (REC_COMMIT =? REC_DATA) with false. cbv iota.
      change (SIZEOF_COMMIT_RECORD =? 0) with false. cbv iota.
      apply IH; try assumption; lia.
Qed.

End MergeStaged.

(** X18: the second implementation replays the staged records over the
    copies its create works on.  On a journal that holds the records
    [recs], and with three different block numbers in the superblock,
    the replay gives for the inode bitmap, the first inode block and the
    root directory block the payload of the last staged data record that
    targets the block, and the on-disk copy when none does. *)
Theorem merge_staged_sees_staged_records jbuf sb recs inode_bitmap inode_blk root_blk :
  load32 sb MergeAware.SB_INODE_BITMAP <> load32 sb MergeAware.SB_INODE_START ->
  load32 sb MergeAware.SB_INODE_BITMAP <> load32 sb MergeAware.SB_DATA_START ->
  load32 sb MergeAware.SB_INODE_START <> load32 sb MergeAware.SB_DATA_START ->
  journal_holds jbuf recs ->
  exists inode_bitmap' inode_blk' root_blk',
    MergeAware.merge_staged scan_fuel jbuf (load32 jbuf JH_NBYTES_USED)
      SIZEOF_JOURNAL_HEADER sb inode_bitmap inode_blk root_blk
      = Ok (inode_bitmap', inode_blk', root_blk') /\
    block_eq inode_bitmap'
      (last_staged (load32 sb MergeAware.SB_INODE_BITMAP) recs inode_bitmap) /\
    block_eq inode_blk'
      (last_staged (load32 sb MergeAware.SB_INODE_START) recs inode_blk) /\
    block_eq root_blk'
      (last_staged (load32 sb MergeAware.SB_DATA_START) recs root_blk).
Proof.
  intros H1 H2 H3 Hh. pose proof (journal_holds_fuel _ _ Hh) as Hfuel.
  destruct Hh as (_ & Hu & Hfit & Hr).
  apply (merge_staged_holds jbuf _ sb H1 H2 H3 recs); try assumption.
  - unfold SIZEOF_JOURNAL_HEADER. lia.
  - rewrite Hu. exact Hfit.
  - intros i Hi. reflexivity.
  - intros i Hi. reflexivity.
  - intros i Hi. reflexivity.
Qed.

Lemma merge_staged_sees_staged_records_witness :
  load32 (image0 0) MergeAware.SB_INODE_BITMAP <> load32 (image0 0) MergeAware.SB_INODE_START /\
  load32 (image0 0) MergeAware.SB_INODE_BITMAP <> load32 (image0 0) MergeAware.SB_DATA_START /\
  load32 (image0 0) MergeAware.SB_INODE_START <> load32 (image0 0) MergeAware.SB_DATA_START /\
  journal_holds (journal_of image_uncommitted)
    [DataRec INODE_BMAP_IDX (memset zero_buf 0 Byte.xff BLOCK_SIZE)] /\
  exists inode_bitmap' inode_blk' root_blk',
    MergeAware.merge_staged scan_fuel (journal_of image_uncommitted)
      (load32 (journal_of image_uncommitted) JH_NBYTES_USED)
      SIZEOF_JOURNAL_HEADER (image0 0)
      (image0 INODE_BMAP_IDX) (image0 INODE_START_IDX) (image0 DATA_START_IDX)
      = Ok (inode_bitmap', inode_blk', root_blk') /\
    block_eq inode_bitmap'
      (last_staged (load32 (image0 0) MergeAware.SB_INODE_BITMAP)
         [DataRec INODE_BMAP_IDX (memset zero_buf 0 Byte.xff BLOCK_SIZE)]
         (image0 INODE_BMAP_IDX)) /\
    block_eq inode_blk'
      (last_staged (load32 (image0 0) MergeAware.SB_INODE_START)
         [DataRec INODE_BMAP_IDX (memset zero_buf 0 Byte.xff BLOCK_SIZE)]
         (image0 INODE_START_IDX)) /\
    block_eq root_blk'
      (last_staged (load32 (image0 0) MergeAware.SB_DATA_START)
         [DataRec INODE_BMAP_IDX (memset zero_buf 0 Byte.xff BLOCK_SIZE)]
         (image0 DATA_START_IDX)).
Proof.
  assert (H1 : load32 (image0 0) MergeAware.SB_INODE_BITMAP
               <> load32 (image0 0) MergeAware.SB_INODE_START) by (vm_compute; discriminate).
  assert (H2 : load32 (image0 0) MergeAware.SB_INODE_BITMAP
               <> load32 (image0 0) MergeAware.SB_DATA_START) by (vm_compute; discriminate).
  assert (H3 : load32 (image0 0) MergeAware.SB_INODE_START
               <> load32 (image0 0) MergeAware.SB_DATA_START) by (vm_compute; discriminate).
  pose proof image_uncommitted_holds as H4.
  split; [exact H1|]. split; [exact H2|]. split; [exact H3|]. split; [exact H4|].
  exact (merge_staged_sees_staged_records (journal_of image_uncommitted) (image0 0) _
           (image0 INODE_BMAP_IDX) (image0 INODE_START_IDX) (image0 DATA_START_IDX)
           H1 H2 H3 H4).
Defined.
